(** * UniFlash: the flash orchestration pipeline of [UniFlash/core.py]

    A shallow embedding of the control logic of [core.py].  Python
    statements become computations in a small state-and-exception monad;
    every call that leaves the process (subprocess, file system, network,
    the GUI handler) is answered by an explicit [world] of oracles and
    leaves an [event] in the trace of the run. *)

From Stdlib Require Import String Ascii List ZArith Bool Arith Lia.
Import ListNotations.
Local Open Scope string_scope.

(** ** Python runtime: exceptions, outcomes and the monad *)

Module Py.

(** The exception classes that [core.py] names in a handler, and the
    built-in ones its library calls raise. *)
Inductive exn_class : Type :=
| URLError
| HTTPError
| ContentTooShortError
| CalledProcessError
| FileNotFoundError
| OSError
| RuntimeError
| OtherException.

(** An exception object: its class, [str(error)] and, for [OSError]s that
    have one, the [filename] attribute. *)
Record exn : Type := mk_exn {
  exn_cls : exn_class;
  exn_str : string;
  exn_filename : option string
}.

(** [isinstance(e, urllib.error.URLError)]: [HTTPError] and
    [ContentTooShortError] are subclasses of [URLError]. *)
Definition is_url_error (e : exn) : bool :=
  match exn_cls e with
  | URLError | HTTPError | ContentTooShortError => true
  | _ => false
  end.

Definition is_called_process_error (e : exn) : bool :=
  match exn_cls e with
  | CalledProcessError => true
  | _ => false
  end.

(** How a statement or a call ends.  [SystemExit] derives from
    [BaseException], not from [Exception], so [except Exception] does not
    catch it: it gets an outcome of its own. *)
Inductive outcome (A : Type) : Type :=
| Return (a : A)
| Raise (e : exn)
| SysExit.

Arguments Return {A} a.
Arguments Raise {A} e.
Arguments SysExit {A}.

Section Monad.
Variable St : Type.

Definition M (A : Type) : Type := St -> outcome A * St.

Definition ret {A} (a : A) : M A := fun s => (Return a, s).
Definition raise {A} (e : exn) : M A := fun s => (Raise e, s).
Definition sys_exit {A} : M A := fun s => (SysExit, s).

Definition bind {A B} (m : M A) (k : A -> M B) : M B :=
  fun s =>
    match m s with
    | (Return a, s1) => k a s1
    | (Raise e, s1) => (Raise e, s1)
    | (SysExit, s1) => (SysExit, s1)
    end.

Definition gets {A} (f : St -> A) : M A := fun s => (Return (f s), s).
Definition modify (f : St -> St) : M unit := fun s => (Return tt, f s).

(** [try: body except C as e: handler e], where [catches] decides
    [isinstance(e, C)]. *)
Definition try_except {A} (body : M A) (catches : exn -> bool)
           (handler : exn -> M A) : M A :=
  fun s =>
    match body s with
    | (Raise e, s1) => if catches e then handler e s1 else (Raise e, s1)
    | r => r
    end.

(** [try: body finally: final].  The [finally] suite always runs; when it
    completes, the pending outcome of [body] resumes, and when it raises
    or exits, its own outcome replaces the pending one. *)
Definition try_finally {A} (body : M A) (final : M unit) : M A :=
  fun s =>
    match body s with
    | (r, s1) =>
        match final s1 with
        | (Return _, s2) => (r, s2)
        | (Raise e, s2) => (Raise e, s2)
        | (SysExit, s2) => (SysExit, s2)
        end
    end.
End Monad.

Arguments ret {St A} a.
Arguments raise {St A} e.
Arguments sys_exit {St A}.
Arguments bind {St A B} m k.
Arguments gets {St A} f.
Arguments modify {St} f.
Arguments try_except {St A} body catches handler.
Arguments try_finally {St A} body final.

End Py.

Import Py.

Declare Scope py_scope.
Delimit Scope py_scope with py.
Notation "x <- m ;; k" := (bind m (fun x => k))
  (at level 61, m at next level, right associativity) : py_scope.
Notation "m ;;; k" := (bind m (fun _ => k))
  (at level 61, right associativity) : py_scope.
Local Open Scope py_scope.

(** ** Strings: the pieces of [str], [re] and [os.path] that the code uses *)

Module Str.

Definition nl : string := String (ascii_of_nat 10) EmptyString.

(** [c in 'A'..'Z'], the character class [[A-Z]]. *)
Definition is_upper (c : ascii) : bool :=
  (65 <=? nat_of_ascii c)%nat && (nat_of_ascii c <=? 90)%nat.

(** [re.match(r"^[A-Z]:\\", s)]: an upper-case letter, a colon and a
    backslash at the start of [s]. *)
Definition match_drive_root (s : string) : bool :=
  match s with
  | String c (String ":" (String "\" _)) => is_upper c
  | _ => false
  end.

(** [re.match(r"^[A-Z]:$", s)]: an upper-case letter and a colon, then the
    end of [s]; without [re.MULTILINE], [$] also matches just before a
    newline that ends the string. *)
Definition match_drive_only (s : string) : bool :=
  match s with
  | String c (String ":" rest) =>
      is_upper c && (String.eqb rest "" || String.eqb rest nl)
  | _ => false
  end.

(** [s.startswith(p)] and then the rest of [s], when it does. *)
Fixpoint strip_prefix (p s : string) : option string :=
  match p with
  | EmptyString => Some s
  | String a p' =>
      match s with
      | String b s' => if Ascii.eqb a b then strip_prefix p' s' else None
      | EmptyString => None
      end
  end.

(** [p in s] for a non-empty [p]: [p] starts at some position of [s]. *)
Fixpoint occurs (p s : string) : bool :=
  match strip_prefix p s with
  | Some _ => true
  | None =>
      match s with
      | String _ s' => occurs p s'
      | EmptyString => false
      end
  end.

(** [s.replace(p, "")]: every occurrence of [p], found from the left and
    not overlapping, is removed.  The recursion is on [fuel], the number of
    characters still to scan; [remove_all] starts it with the length of
    [s], which is enough.  For the empty pattern Python inserts the
    replacement between the characters, and the replacement is empty, so
    [s] is unchanged. *)
Fixpoint remove_all_fuel (fuel : nat) (p s : string) : string :=
  match fuel with
  | O => s
  | S fuel' =>
      match strip_prefix p s with
      | Some rest => remove_all_fuel fuel' p rest
      | None =>
          match s with
          | String c s' => String c (remove_all_fuel fuel' p s')
          | EmptyString => EmptyString
          end
      end
  end.

Definition remove_all (p s : string) : string :=
  match p with
  | EmptyString => s
  | _ => remove_all_fuel (String.length s) p s
  end.

(** Python's [str.isspace] on the characters below 128. *)
Definition is_space (c : ascii) : bool :=
  let n := nat_of_ascii c in
  ((9 <=? n)%nat && (n <=? 13)%nat) || ((28 <=? n)%nat && (n <=? 32)%nat).

(** The white space above 127, as it stands in a text in UTF-8 (a decoded
    [str] is held here by its UTF-8 form): U+0085 and U+00A0 take two
    bytes; U+1680, U+2000 to U+200A, U+2028, U+2029, U+202F, U+205F and
    U+3000 take three. *)
Definition is_space2 (c d : ascii) : bool :=
  (nat_of_ascii c =? 194)%nat &&
  ((nat_of_ascii d =? 133)%nat || (nat_of_ascii d =? 160)%nat).

Definition is_space3 (c d e : ascii) : bool :=
  let c := nat_of_ascii c in
  let d := nat_of_ascii d in
  let e := nat_of_ascii e in
  ((c =? 225) && (d =? 154) && (e =? 128))%nat ||
  ((c =? 226) && (d =? 128) &&
   (((128 <=? e) && (e <=? 138)) || (e =? 168) || (e =? 169) || (e =? 175)))%nat ||
  ((c =? 226) && (d =? 129) && (e =? 159))%nat ||
  ((c =? 227) && (d =? 128) && (e =? 128))%nat.

(** [len(s.strip()) == 0]: [s] holds nothing but characters for which
    [str.isspace] is true. *)
Fixpoint all_space (s : string) : bool :=
  match s with
  | EmptyString => true
  | String c s1 =>
      if is_space c then all_space s1
      else
        match s1 with
        | String d s2 =>
            if is_space2 c d then all_space s2
            else
              match s2 with
              | String e s3 => is_space3 c d e && all_space s3
              | EmptyString => false
              end
        | EmptyString => false
        end
  end.

Definition last_char (s : string) : option ascii :=
  match String.length s with
  | O => None
  | S n => String.get n s
  end.

Definition is_sep (c : ascii) : bool :=
  Ascii.eqb c "\" || Ascii.eqb c "/".

(** [os.path.join(a, b)] of [ntpath], for a second component [b] that is a
    plain entry name (no drive, no leading separator), which is what
    [os.walk] yields in [filenames] and what [flash_device] passes: a
    separator is added unless [a] is empty, is a bare drive ["X:"], or
    already ends in one. *)
Definition path_join (a b : string) : string :=
  match a with
  | EmptyString => b
  | String _ (String ":" EmptyString) => a ++ b
  | _ =>
      match last_char a with
      | Some c => if is_sep c then a ++ b else a ++ "\" ++ b
      | None => a ++ b
      end
  end.

End Str.

Import Str.

(** ** The world outside the process, and what a run leaves behind *)

(** What [subprocess.run(argv, ...)] does: it raises (the program cannot be
    started, the output cannot be decoded), or the child runs to the end
    with an exit status and the text of its standard output. *)
Inductive run_result : Type :=
| RunRaise (e : exn)
| RunDone (returncode : Z) (stdout : string).

(** [ReportCopyProgress], the thread object behind the global
    [CopyFiles_handle]: whether [start()] was called, and its two class
    attributes [stop] and [file]. *)
Record thread : Type := mk_thread {
  th_started : bool;
  th_stop : bool;
  th_file : string
}.

(** The answers of everything [core.py] calls but does not define.  An
    oracle that takes a [nat] first is asked with the number of events the
    run has produced so far, so the same call may be answered differently
    at different moments (the kill flag is set by another thread; the same
    [diskpart] script is run twice). *)
Record world : Type := mk_world {
  w_gui : bool;                                   (* [gui is not None] *)
  w_kill : nat -> bool;                           (* [gui.kill] *)
  w_is_admin : bool;                              (* [is_admin()] *)
  w_isfile : string -> bool;                      (* [os.path.isfile] *)
  w_stamp_source : string;                        (* seconds since the epoch *)
  w_stamp_target : string;
  w_pid : string;                                 (* [str(os.getpid())] *)
  w_paths0 : list string;                         (* paths that exist at the start *)
  w_handle0 : thread;                             (* [CopyFiles_handle] at the start *)
  w_mkdtemp : exn + string;                       (* [tempfile.mkdtemp] *)
  w_makedirs : string -> option exn;              (* [os.makedirs] fails with *)
  w_run : nat -> list string -> run_result;       (* [subprocess.run] *)
  w_walk : string -> list (string * list string); (* [os.walk]: dirpath, filenames *)
  w_getsize : string -> exn + Z;                  (* [os.path.getsize] *)
  w_copy2 : nat -> string -> string -> option exn;        (* [shutil.copy2] fails with *)
  w_urlretrieve : nat -> string -> string -> option exn;  (* [urlretrieve] fails with *)
  w_move : nat -> string -> string -> option exn;         (* [shutil.move] fails with *)
  w_rmtree : nat -> string -> option exn;         (* [shutil.rmtree] of an existing tree fails with *)
  w_alive_after_stop : nat -> bool                (* a stopped thread has not ended yet *)
}.

Inductive color : Type := Plain | Red | Yellow | Green.

Definition is_red (c : color) : bool :=
  match c with Red => true | _ => false end.

(** The texts [core.py] passes to [print_with_color], one constructor per
    format string (the translation [_] is applied to each before use). *)
Inductive message : Type :=
| MsgSourceNotFound (source_media : string)
| MsgNotDriveLetter (target_media : string)
| MsgNotEntireDevice (target_media : string)
| MsgNotPartition (target_media : string)
| MsgFat32Limit (path : string)
| MsgCheckingFormatting (target_device : string)
| MsgNoPartitions
| MsgHasPartition
| MsgNotAdmin
| MsgSourceMountFailed
| MsgTargetMountFailed
| MsgCompleted
| MsgWiping (target_device : string)
| MsgCreatingTable (target_device : string)
| MsgCreatingPartition
| MsgCreatingUefi
| MsgDownloadFailed
| MsgMountingSource
| MsgMountingTarget
| MsgText (text : string)
| MsgDependencyMissing (application_name command : string)
| MsgInfoTargetDevice (target_device : string)
| MsgInfoTargetPartition (target_partition : string)
| MsgDriveBusy (device : string)
| MsgSourceInUse
| MsgTargetPartitionMounted
| MsgTargetDeviceBusy.

(** The functions of the pipeline; [ECall f] marks an entry into [f]. *)
Inductive func : Type :=
| Fformat_target_device
| Fwipe
| Fcreate_target_partition_table
| Fcreate_target_partition
| Fcreate_uefi_ntfs_support_partition
| Finstall_uefi_ntfs_support_partition
| Fmount_source_filesystem
| Fmount_target_filesystem
| Fcopy_filesystem_files
| Fcheck_fat32_filesize_limitation
| Fcleanup.

Inductive event : Type :=
| ECall (f : func)
| EPrint (m : message) (c : color)
| EKillCheck (observed : bool)          (* [gui.kill] was read *)
| ESubprocess (argv : list string)
| EMkdtemp (path : string)
| EMakedirs (path : string)
| EThreadStart
| ECopy2 (src dst : string)
| EUrlretrieve (url filename : string)
| EMove (src dst : string)
| ERmtree (path : string).

Record state : Type := mk_state {
  trace : list event;            (* oldest first *)
  paths : list string;           (* the paths that exist *)
  handle : thread;               (* the global [CopyFiles_handle] *)
  gui_state : option message;    (* [gui.state] *)
  gui_error : option message     (* [gui.error] *)
}.

Definition init (w : world) : state :=
  {| trace := []; paths := w_paths0 w; handle := w_handle0 w;
     gui_state := None; gui_error := None |}.

Definition add_event (e : event) (s : state) : state :=
  {| trace := trace s ++ [e]; paths := paths s; handle := handle s;
     gui_state := gui_state s; gui_error := gui_error s |}.

Definition set_paths (ps : list string) (s : state) : state :=
  {| trace := trace s; paths := ps; handle := handle s;
     gui_state := gui_state s; gui_error := gui_error s |}.

Definition set_handle (h : thread) (s : state) : state :=
  {| trace := trace s; paths := paths s; handle := h;
     gui_state := gui_state s; gui_error := gui_error s |}.

Definition set_gui_state (m : message) (s : state) : state :=
  {| trace := trace s; paths := paths s; handle := handle s;
     gui_state := Some m; gui_error := gui_error s |}.

Definition set_gui_error (m : message) (s : state) : state :=
  {| trace := trace s; paths := paths s; handle := handle s;
     gui_state := gui_state s; gui_error := Some m |}.

Definition path_exists (p : string) (s : state) : bool :=
  existsb (String.eqb p) (paths s).

Definition remove_path (p : string) (ps : list string) : list string :=
  filter (fun q => negb (String.eqb p q)) ps.

(** ** [core.py] *)

Module Core.

Definition DEFAULT_NEW_FS_LABEL : string := "USB".

(** [(2 ** 32) - 1], the largest file FAT32 can hold. *)
Definition FAT32_MAX_FILE_SIZE : Z := 2 ^ 32 - 1.

Definition UEFI_NTFS_URL : string :=
  "https://github.com/pbatard/rufus/raw/master/res/uefi/uefi-ntfs.img".

(** The argument vectors handed to [subprocess.run]. *)
Definition cmd_mount_image (source_media : string) : list string :=
  ["PowerShell"; "Mount-DiskImage"; "-ImagePath"; source_media].

Definition cmd_get_partition (target_device : string) : list string :=
  ["PowerShell"; "-Command"; "Get-Partition -DiskNumber " ++ target_device].

Definition cmd_clean (target_device : string) : list string :=
  ["diskpart"; "/s"; "select disk " ++ target_device ++ nl ++ "clean" ++ nl].

Definition cmd_convert (target_device style : string) : list string :=
  ["diskpart"; "/s";
   "select disk " ++ target_device ++ nl ++ "convert " ++ style ++ nl].

Definition partition_script (target_device filesystem_type filesystem_label : string)
  : string :=
  nl ++ "    select disk " ++ target_device ++
  nl ++ "    create partition primary" ++
  nl ++ "    select partition 1" ++
  nl ++ "    active" ++
  nl ++ "    format fs=" ++ filesystem_type ++ " label=" ++ filesystem_label ++ " quick" ++
  nl ++ "    assign letter=U" ++
  nl ++ "    ".

Definition cmd_create_partition (target_device filesystem_type filesystem_label : string)
  : list string :=
  ["diskpart"; "/s"; partition_script target_device filesystem_type filesystem_label].

Section WithWorld.
Variable w : world.

Local Abbreviation M := (Py.M state).

(** *** The calls that leave the process *)

Definition emit (e : event) : M unit := modify (add_event e).

Definition clock : M nat := gets (fun s => length (trace s)).

Definition of_fault (f : option exn) : M unit :=
  match f with
  | Some e => raise e
  | None => ret tt
  end.

Definition is_admin : M bool := ret (w_is_admin w).

Definition isfile (p : string) : M bool := ret (w_isfile w p).

Definition exists_ (p : string) : M bool := gets (path_exists p).

Definition mkdtemp : M string :=
  match w_mkdtemp w with
  | inl e => raise e
  | inr p => emit (EMkdtemp p) ;;; modify (fun s => set_paths (p :: paths s) s) ;;; ret p
  end.

Definition makedirs (p : string) : M unit :=
  emit (EMakedirs p) ;;;
  match w_makedirs w p with
  | Some e => raise e
  | None => modify (fun s => set_paths (p :: paths s) s)
  end.

(** [subprocess.run(argv, check=check)]: with [check], a non-zero exit
    status raises [CalledProcessError]; without it the status is only
    stored in the result. *)
Definition subprocess_run (argv : list string) (check : bool) : M (Z * string) :=
  t <- clock ;;
  emit (ESubprocess argv) ;;;
  match w_run w t argv with
  | RunRaise e => raise e
  | RunDone rc out =>
      if check && negb (rc =? 0)%Z
      then raise (mk_exn CalledProcessError "non-zero exit status" None)
      else ret (rc, out)
  end.

(** [os.walk(top)] flattened to the paths the two inner loops build:
    [os.path.join(dirpath, file)] for every [file] of every [dirpath],
    in the order of the walk. *)
Definition walk_paths (top : string) : list string :=
  flat_map (fun df => map (path_join (fst df)) (snd df)) (w_walk w top).

Definition getsize (p : string) : M Z :=
  match w_getsize w p with
  | inl e => raise e
  | inr z => ret z
  end.

Definition copy2 (src dst : string) : M unit :=
  t <- clock ;;
  emit (ECopy2 src dst) ;;;
  of_fault (w_copy2 w t src dst).

(** [urllib.request.urlretrieve(url, filename)[0]] is [filename]. *)
Definition urlretrieve (url filename : string) : M string :=
  t <- clock ;;
  emit (EUrlretrieve url filename) ;;;
  of_fault (w_urlretrieve w t url filename) ;;;
  ret filename.

Definition move (src dst : string) : M unit :=
  t <- clock ;;
  emit (EMove src dst) ;;;
  of_fault (w_move w t src dst).

(** [shutil.rmtree(path)]: a path that does not exist raises
    [FileNotFoundError]; an existing tree is removed unless the removal
    itself fails. *)
Definition rmtree (p : string) : M unit :=
  t <- clock ;;
  emit (ERmtree p) ;;;
  present <- exists_ p ;;
  if present
  then of_fault (w_rmtree w t p) ;;; modify (fun s => set_paths (remove_path p (paths s)) s)
  else raise (mk_exn FileNotFoundError "No such file or directory" (Some p)).

(** [CopyFiles_handle.is_alive()]: a thread that was never started is not
    alive; [run] loops until [stop] is set, and then ends within one
    sleep. *)
Definition is_alive : M bool :=
  t <- clock ;;
  h <- gets handle ;;
  ret (th_started h && (negb (th_stop h) || w_alive_after_stop w t)).

Definition set_stop : M unit :=
  modify (fun s => set_handle (mk_thread (th_started (handle s)) true (th_file (handle s))) s).

Definition set_file (p : string) : M unit :=
  modify (fun s => set_handle (mk_thread (th_started (handle s)) (th_stop (handle s)) p) s).

(** [CopyFiles_handle = ReportCopyProgress(...); CopyFiles_handle.start()] *)
Definition start_reporter : M unit :=
  modify (set_handle (mk_thread true false "")) ;;;
  emit EThreadStart.

(** *** Utility functions *)

(** [print_with_color(text, color)]: under the GUI the text becomes
    [gui.state] and a red one also [gui.error], followed by [sys.exit()];
    otherwise the text goes to the debug window or to standard output. *)
Definition print_with_color (text : message) (c : color) : M unit :=
  emit (EPrint text c) ;;;
  if w_gui w then
    modify (set_gui_state text) ;;;
    if is_red c then modify (set_gui_error text) ;;; sys_exit else ret tt
  else ret tt.

Definition check_kill_signal : M unit :=
  if w_gui w then
    t <- clock ;;
    emit (EKillCheck (w_kill w t)) ;;;
    if w_kill w t then sys_exit else ret tt
  else ret tt.

Definition check_runtime_parameters (install_mode source_media target_media : string)
  : M Z :=
  f <- isfile source_media ;;
  if negb f then
    print_with_color (MsgSourceNotFound source_media) Red ;;; ret 1%Z
  else if negb (match_drive_root target_media) then
    print_with_color (MsgNotDriveLetter target_media) Red ;;; ret 1%Z
  else if String.eqb install_mode "device" && negb (match_drive_only target_media) then
    print_with_color (MsgNotEntireDevice target_media) Red ;;; ret 1%Z
  else if String.eqb install_mode "partition" && negb (match_drive_root target_media) then
    print_with_color (MsgNotPartition target_media) Red ;;; ret 1%Z
  else ret 0%Z.

(** The two nested loops of [check_fat32_filesize_limitation], over the
    joined paths. *)
Fixpoint check_fat32_loop (ps : list string) : M Z :=
  match ps with
  | [] => ret 0%Z
  | path :: rest =>
      size <- getsize path ;;
      if (size >? FAT32_MAX_FILE_SIZE)%Z then
        print_with_color (MsgFat32Limit path) Yellow ;;; ret 1%Z
      else check_fat32_loop rest
  end.

Definition check_fat32_filesize_limitation (source_fs_mountpoint : string) : M Z :=
  emit (ECall Fcheck_fat32_filesize_limitation) ;;;
  check_fat32_loop (walk_paths source_fs_mountpoint).

(** *** The steps of the pipeline *)

Definition create_target_partition (target_device filesystem_type filesystem_label : string)
  : M unit :=
  emit (ECall Fcreate_target_partition) ;;;
  print_with_color MsgCreatingPartition Green ;;;
  subprocess_run (cmd_create_partition target_device filesystem_type filesystem_label) false ;;;
  ret tt.

(** [format_target_device]: asks for the partitions of the device and, when
    the answer holds ["No partitions"] or nothing but white space, creates
    and formats one under the default label. *)
Definition format_target_device (target_device filesystem_type : string) : M unit :=
  emit (ECall Fformat_target_device) ;;;
  print_with_color (MsgCheckingFormatting target_device) Green ;;;
  r <- subprocess_run (cmd_get_partition target_device) false ;;
  let result := snd r in
  if occurs "No partitions" result || all_space result then
    print_with_color MsgNoPartitions Green ;;;
    create_target_partition target_device filesystem_type DEFAULT_NEW_FS_LABEL
  else
    print_with_color MsgHasPartition Green.

Definition wipe_existing_partition_table_and_filesystem_signatures (target_device : string)
  : M unit :=
  emit (ECall Fwipe) ;;;
  print_with_color (MsgWiping target_device) Green ;;;
  subprocess_run (cmd_clean target_device) false ;;;
  ret tt.

Definition create_target_partition_table (target_device partition_table_type : string)
  : M unit :=
  emit (ECall Fcreate_target_partition_table) ;;;
  print_with_color (MsgCreatingTable target_device) Green ;;;
  if String.eqb partition_table_type "legacy" || String.eqb partition_table_type "msdos" then
    subprocess_run (cmd_convert target_device "mbr") false ;;; ret tt
  else if String.eqb partition_table_type "gpt" then
    subprocess_run (cmd_convert target_device "gpt") false ;;; ret tt
  else ret tt.

Definition create_uefi_ntfs_support_partition (target_device : string) : M unit :=
  emit (ECall Fcreate_uefi_ntfs_support_partition) ;;;
  print_with_color MsgCreatingUefi Green.

(** [install_uefi_ntfs_support_partition] returns [1] after a failed
    download and [None] otherwise. *)
Definition install_uefi_ntfs_support_partition (uefi_ntfs_partition download_directory : string)
  : M (option Z) :=
  emit (ECall Finstall_uefi_ntfs_support_partition) ;;;
  check_kill_signal ;;;
  fetched <- try_except
               (fileName <- urlretrieve UEFI_NTFS_URL "uefi-ntfs.img" ;; ret (Some fileName))
               is_url_error
               (fun _ => print_with_color MsgDownloadFailed Yellow ;;; ret None) ;;
  match fetched with
  | None => ret (Some 1%Z)
  | Some fileName =>
      move fileName (download_directory ++ "/" ++ fileName) ;;;
      copy2 (download_directory ++ "/uefi-ntfs.img") uefi_ntfs_partition ;;;
      ret None
  end.

(** [mount_source_filesystem]: [1] when [Mount-DiskImage] ends with a
    non-zero status, [0] otherwise. *)
Definition mount_source_filesystem (source_media source_fs_mountpoint : string) : M Z :=
  emit (ECall Fmount_source_filesystem) ;;;
  print_with_color MsgMountingSource Green ;;;
  present <- exists_ source_fs_mountpoint ;;
  (if negb present then makedirs source_fs_mountpoint else ret tt) ;;;
  try_except
    (subprocess_run (cmd_mount_image source_media) true ;;; ret 0%Z)
    is_called_process_error
    (fun _ => ret 1%Z).

Definition mount_target_filesystem (target_device target_fs_mountpoint : string) : M Z :=
  emit (ECall Fmount_target_filesystem) ;;;
  print_with_color MsgMountingTarget Green ;;;
  ret 0%Z.

(** The loops of [copy_filesystem_files], over the joined paths. *)
Fixpoint copy_loop (source_fs_mountpoint target_fs_mountpoint : string) (ps : list string)
  : M unit :=
  match ps with
  | [] => ret tt
  | path :: rest =>
      set_file path ;;;
      copy2 path (target_fs_mountpoint ++ remove_all source_fs_mountpoint path) ;;;
      copy_loop source_fs_mountpoint target_fs_mountpoint rest
  end.

Definition copy_filesystem_files (source_fs_mountpoint target_fs_mountpoint : string)
  : M unit :=
  emit (ECall Fcopy_filesystem_files) ;;;
  check_kill_signal ;;;
  start_reporter ;;;
  copy_loop source_fs_mountpoint target_fs_mountpoint (walk_paths source_fs_mountpoint) ;;;
  set_stop.

Definition cleanup (source_fs_mountpoint target_fs_mountpoint temp_directory target_device : string)
  : M unit :=
  emit (ECall Fcleanup) ;;;
  alive <- is_alive ;;
  (if alive then set_stop else ret tt) ;;;
  rmtree temp_directory.

(** *** [flash_device] *)

Definition source_mountpoint : string :=
  path_join "C:\media\uniflash_source_" (w_stamp_source w ++ "_" ++ w_pid w).

Definition target_mountpoint : string :=
  path_join "C:\media\uniflash_target_" (w_stamp_target w ++ "_" ++ w_pid w).

(** The file system the device is prepared with: ["NTFS"] when ["FAT"] was
    asked for and the size check answered non-zero. *)
Definition resolve_filesystem_type (target_filesystem_type : string) (limited : Z) : string :=
  if String.eqb target_filesystem_type "FAT" && negb (limited =? 0)%Z
  then "NTFS" else target_filesystem_type.

(** The suite under [try:].  Its value is what [flash_device] returns:
    [Some 1] for [return 1], [None] when the end of the suite is reached. *)
Definition flash_device_try
           (source_media target_device target_filesystem_type filesystem_label
              temp_directory : string) : M (option Z) :=
  admin <- is_admin ;;
  if negb admin then
    print_with_color MsgNotAdmin Yellow ;;; ret (Some 1%Z)
  else
    mounted <- mount_source_filesystem source_media source_mountpoint ;;
    if negb (mounted =? 0)%Z then
      print_with_color MsgSourceMountFailed Red ;;; ret (Some 1%Z)
    else
      limited <- (if String.eqb target_filesystem_type "FAT"
                  then check_fat32_filesize_limitation source_mountpoint
                  else ret 0%Z) ;;
      let target_filesystem_type := resolve_filesystem_type target_filesystem_type limited in
      format_target_device target_device target_filesystem_type ;;;
      wipe_existing_partition_table_and_filesystem_signatures target_device ;;;
      create_target_partition_table target_device "legacy" ;;;
      create_target_partition target_device target_filesystem_type filesystem_label ;;;
      mounted <- mount_target_filesystem target_device target_mountpoint ;;
      if negb (mounted =? 0)%Z then
        print_with_color MsgTargetMountFailed Red ;;; ret (Some 1%Z)
      else
        copy_filesystem_files source_mountpoint target_mountpoint ;;;
        (if String.eqb target_filesystem_type "NTFS" then
           create_uefi_ntfs_support_partition target_device ;;;
           install_uefi_ntfs_support_partition (target_device ++ "2") temp_directory ;;;
           ret tt
         else ret tt) ;;;
        ret None.

(** [flash_device]: the scratch directory is made before the [try]
    statement; [except Exception] reports the error in red and returns
    [1]; [finally] runs [cleanup] and then prints the closing message. *)
Definition flash_device
           (source_media target_device target_filesystem_type filesystem_label : string)
  : M (option Z) :=
  temp_directory <- mkdtemp ;;
  try_finally
    (try_except
       (flash_device_try source_media target_device target_filesystem_type
                         filesystem_label temp_directory)
       (fun _ => true)
       (fun error => print_with_color (MsgText (exn_str error)) Red ;;; ret (Some 1%Z)))
    (cleanup source_mountpoint target_mountpoint temp_directory target_device ;;;
     print_with_color MsgCompleted Green).

End WithWorld.

End Core.

(** ** The checks of [core.py] that come before the pipeline *)

Module Checks.

(** What these functions read besides the [world]: the module variable
    [verbose], [shutil.which] and [re.search] (whose first argument is a
    pattern, so that it can also raise [re.error]). *)
Record shell : Type := mk_shell {
  sh_verbose : bool;
  sh_which : string -> bool;                    (* [shutil.which(c) is not None] *)
  sh_search : string -> string -> exn + bool    (* [re.search(pattern, text)] matches *)
}.

Definition cmd_get_volume (letter : ascii) : list string :=
  ["PowerShell";
   "Get-Volume -DriveLetter " ++ String letter "" ++
   " | Select-Object DriveLetter, FileSystem"].

Section WithShell.
Variable w : world.
Variable sh : shell.

Local Abbreviation M := (Py.M state).

(** The loop of [check_runtime_dependencies]; [result] is
    [result == "success"]. *)
Fixpoint check_commands (application_name : string) (commands : list string)
         (result : bool) : M bool :=
  match commands with
  | [] => ret result
  | command :: rest =>
      if sh_which sh command then check_commands application_name rest result
      else
        Core.print_with_color w (MsgDependencyMissing application_name command) Red ;;;
        check_commands application_name rest false
  end.

(** [check_runtime_dependencies] returns the list
    [["diskpart", "diskpart", None]]. *)
Definition check_runtime_dependencies (application_name : string)
  : M (list (option string)) :=
  result <- check_commands application_name ["diskpart"; "PowerShell"] true ;;
  if result then ret [Some "diskpart"; Some "diskpart"; None]
  else raise (mk_exn RuntimeError "Dependencies are not met" None).

(** [determine_target_parameters] returns [[target_device,
    target_partition]]. *)
Definition determine_target_parameters (install_mode target_media : string)
  : M (string * string) :=
  let '(target_device, target_partition) :=
      if String.eqb install_mode "partition"
      then (target_media, target_media)     (* device and partition share the letter *)
      else (target_media, target_media) in
  (if sh_verbose sh then
     Core.print_with_color w (MsgInfoTargetDevice target_device) Plain ;;;
     Core.print_with_color w (MsgInfoTargetPartition target_partition) Plain
   else ret tt) ;;;
  ret (target_device, target_partition).

(** [check_is_target_device_busy]: [device[0]] raises [IndexError] on the
    empty string; the device itself is the pattern that is searched in the
    decoded output of [Get-Volume]. *)
Definition check_is_target_device_busy (device : string) : M Z :=
  match device with
  | EmptyString => raise (mk_exn OtherException "string index out of range" None)
  | String letter _ =>
      r <- Core.subprocess_run w (cmd_get_volume letter) false ;;
      match sh_search sh device (snd r) with
      | inl e => raise e
      | inr found =>
          if found then
            Core.print_with_color w (MsgDriveBusy device) Yellow ;;; ret 1%Z
          else ret 0%Z
      end
  end.

Definition check_source_and_target_not_busy
           (install_mode source_media target_device target_partition : string) : M Z :=
  busy <- check_is_target_device_busy source_media ;;
  if negb (busy =? 0)%Z then
    Core.print_with_color w MsgSourceInUse Red ;;; ret 1%Z
  else if String.eqb install_mode "partition" then
    busy <- check_is_target_device_busy target_partition ;;
    if negb (busy =? 0)%Z then
      Core.print_with_color w MsgTargetPartitionMounted Red ;;; ret 1%Z
    else ret 0%Z
  else
    busy <- check_is_target_device_busy target_device ;;
    if negb (busy =? 0)%Z then
      Core.print_with_color w MsgTargetDeviceBusy Red ;;; ret 1%Z
    else ret 0%Z.

(** The loops of [get_size], over the joined paths. *)
Fixpoint get_size_loop (ps : list string) (total_size : Z) : M Z :=
  match ps with
  | [] => ret total_size
  | path :: rest =>
      size <- Core.getsize w path ;;
      get_size_loop rest (total_size + size)%Z
  end.

Definition get_size (path : string) : M Z :=
  get_size_loop (Core.walk_paths w path) 0%Z.

End WithShell.

End Checks.

(** ** What is observed of a run *)

Module Obs.

Local Open Scope list_scope.

Definition count_events (p : event -> bool) (tr : list event) : nat :=
  length (filter p tr).

Definition is_cleanup_call (e : event) : bool :=
  match e with ECall Fcleanup => true | _ => false end.

(** How many times [cleanup] was entered. *)
Definition cleanup_calls (tr : list event) : nat := count_events is_cleanup_call tr.

(** The argument vectors of the [subprocess.run] calls, in order. *)
Definition calls (tr : list event) : list (list string) :=
  flat_map (fun e => match e with ESubprocess argv => [argv] | _ => [] end) tr.

(** The [shutil.copy2] calls, in order. *)
Definition copies (tr : list event) : list (string * string) :=
  flat_map (fun e => match e with ECopy2 a b => [(a, b)] | _ => [] end) tr.

(** The texts printed in red. *)
Definition red_messages (tr : list event) : list message :=
  flat_map (fun e => match e with EPrint m Red => [m] | _ => [] end) tr.

(** The commands that [shutil.which] does not find, and the errors printed
    for them. *)
Definition missing (which : string -> bool) (commands : list string) : list string :=
  filter (fun c => negb (which c)) commands.

Definition report_missing (application_name : string) (commands : list string)
  : list event :=
  map (fun c => EPrint (MsgDependencyMissing application_name c) Red) commands.

Definition first_letter (device : string) : list ascii :=
  match device with
  | EmptyString => []
  | String letter _ => [letter]
  end.

Definition is_subprocess (e : event) : bool :=
  match e with ESubprocess _ => true | _ => false end.

(** The directories and files an event may touch: the only directory made
    is [made], the only tree removed is [removed], and a file is copied
    below [below] or onto [onto]. *)
Definition in_place (made removed below onto : string) (e : event) : Prop :=
  match e with
  | EMakedirs p => p = made
  | ERmtree p => p = removed
  | ECopy2 _ target => (exists rest, target = (below ++ rest)%string) \/ target = onto
  | _ => True
  end.

(** An entry into [check_fat32_filesize_limitation]. *)
Definition is_size_check (e : event) : bool :=
  match e with ECall Fcheck_fat32_filesize_limitation => true | _ => false end.

Definition is_download_warning (e : event) : bool :=
  match e with EPrint MsgDownloadFailed Yellow => true | _ => false end.

Definition is_fetch (e : event) : bool :=
  match e with EUrlretrieve _ _ => true | _ => false end.


(** [gui.kill] was read and found set. *)
Definition is_kill_seen (e : event) : bool :=
  match e with EKillCheck true => true | _ => false end.

Definition is_kill_check (e : event) : bool :=
  match e with EKillCheck _ => true | _ => false end.

Definition is_target_mount_error (e : event) : bool :=
  match e with EPrint MsgTargetMountFailed _ => true | _ => false end.

(** The events of [cleanup] and of the closing message of [flash_device]. *)
Definition is_cleanup_event (e : event) : bool :=
  match e with
  | ECall Fcleanup | ERmtree _ | EPrint MsgCompleted Green => true
  | _ => false
  end.

Definition is_prefix {A} (l1 l2 : list A) : Prop := exists r, l2 = l1 ++ r.

(** The file is larger than FAT32 allows. *)
Definition too_big (w : world) (path : string) : bool :=
  match w_getsize w path with
  | inr size => (size >? Core.FAT32_MAX_FILE_SIZE)%Z
  | inl _ => false
  end.

(** The file system [flash_device] prepares the device with, read off the
    source tree. *)
Definition resolved_type (w : world) (requested : string) : string :=
  if String.eqb requested "FAT" &&
     existsb (too_big w) (Core.walk_paths w (Core.source_mountpoint w))
  then "NTFS" else requested.

(** The two orders in which [flash_device] can run its commands: the query
    for the partitions, the default partition when there was none, and then
    always clean, convert, create. *)
Definition device_scripts (source_media target_device fstype label : string)
  : list (list (list string)) :=
  [ [ Core.cmd_mount_image source_media;
      Core.cmd_get_partition target_device;
      Core.cmd_create_partition target_device fstype Core.DEFAULT_NEW_FS_LABEL;
      Core.cmd_clean target_device;
      Core.cmd_convert target_device "mbr";
      Core.cmd_create_partition target_device fstype label ];
    [ Core.cmd_mount_image source_media;
      Core.cmd_get_partition target_device;
      Core.cmd_clean target_device;
      Core.cmd_convert target_device "mbr";
      Core.cmd_create_partition target_device fstype label ] ].

(** The kill flag was found set by the last event, and never before. *)
Definition kill_seen_last (tr : list event) : Prop :=
  exists pre, tr = pre ++ [EKillCheck true] /\ count_events is_kill_seen pre = 0.

(** Every reading of the kill flag comes right after the entry into
    [copy_filesystem_files] or into [install_uefi_ntfs_support_partition]. *)
Definition kill_check_placed (tr : list event) : Prop :=
  forall pre b post,
    tr = pre ++ EKillCheck b :: post ->
    exists pre',
      pre = pre' ++ [ECall Fcopy_filesystem_files] \/
      pre = pre' ++ [ECall Finstall_uefi_ntfs_support_partition].

(** Every [subprocess.run] of the trace was answered by a finished child,
    or by a [CalledProcessError]. *)
Definition answered (w : world) (tr : list event) : Prop :=
  forall pre argv post,
    tr = pre ++ ESubprocess argv :: post ->
    match w_run w (length pre) argv with
    | RunDone _ _ => True
    | RunRaise e => is_called_process_error e = true
    end.

(** The sizes of the files, for the files whose size can be read. *)
Definition size_of (w : world) (path : string) : Z :=
  match w_getsize w path with
  | inr size => size
  | inl _ => 0%Z
  end.

Definition readable (w : world) (path : string) : Prop :=
  exists size, w_getsize w path = inr size /\ (0 <= size)%Z.

Definition total_size (w : world) (ps : list string) : Z :=
  fold_right (fun path acc => (size_of w path + acc)%Z) 0%Z ps.

(** The last event is a [subprocess.run] that raised [e]; the ones before
    were answered. *)
Definition launch_failed (w : world) (e : exn) (tr : list event) : Prop :=
  exists pre argv,
    tr = pre ++ [ESubprocess argv] /\ answered w pre /\
    w_run w (length pre) argv = RunRaise e.

End Obs.

(** ** A logic of runs *)

Module Logic.

Local Open Scope list_scope.

(** [keeps I Xr Xe R m]: started where [I] holds, [m] returns where [I]
    holds, with a value in [R]; or raises [e] where [Xr e] holds; or exits
    where [Xe] holds. *)
Definition keeps {A} (I : state -> Prop) (Xr : exn -> state -> Prop) (Xe : state -> Prop)
           (R : A -> Prop) (m : M state A) : Prop :=
  forall s, I s ->
    match m s with
    | (Return a, s') => I s' /\ R a
    | (Raise e, s') => Xr e s'
    | (SysExit, s') => Xe s'
    end.

(** [hoare P m Q]: a triple with the outcome in the postcondition. *)
Definition hoare {A} (P : state -> Prop) (m : M state A)
           (Q : outcome A -> state -> Prop) : Prop :=
  forall s, P s -> Q (fst (m s)) (snd (m s)).

(** All ways of running one script of [Ls1] and then one of [Ls2]. *)
Definition cat {B} (Ls1 Ls2 : list (list B)) : list (list B) :=
  flat_map (fun L1 => map (app L1) Ls2) Ls1.

(** [script Ls C R m]: the [subprocess.run] calls of [m] are a prefix of
    one of the scripts [Ls]; when [m] returns [a], [R a] holds, and the
    script was run to its end if [C a]. *)
Definition script {A} (Ls : list (list (list string))) (C : A -> bool) (R : A -> Prop)
           (m : M state A) : Prop :=
  forall s, exists L L',
    In L Ls /\
    Obs.calls (trace (snd (m s))) = Obs.calls (trace s) ++ L' /\
    Obs.is_prefix L' L /\
    forall a, fst (m s) = Return a -> R a /\ (C a = true -> L' = L).

(** [p] holds of exactly [n] events so far. *)
Definition counted (p : event -> bool) (n : nat) (s : state) : Prop :=
  Obs.count_events p (trace s) = n.

(** The [subprocess.run] calls so far are [c]. *)
Definition called (c : list (list string)) (s : state) : Prop :=
  Obs.calls (trace s) = c.

(** The scratch directory exists and no download was tried yet. *)
Definition not_fetched (tmp : string) (s : state) : Prop :=
  In tmp (paths s) /\
  counted Obs.is_fetch 0 s /\ counted Obs.is_download_warning 0 s.

(** Either no download was tried, or the suite returned [None] with one
    warning about the download. *)
Definition fetched_or_not (tmp : string) (r : outcome (option Z)) (s : state) : Prop :=
  In tmp (paths s) /\
  ((counted Obs.is_fetch 0 s /\ counted Obs.is_download_warning 0 s) \/
   (r = Return None /\ counted Obs.is_download_warning 1 s)).

(** The value of a suite that ran to its end: [flash_device] falls off
    the end of its [try] suite and returns [None]. *)
Definition is_none {A} (a : option A) : bool :=
  match a with None => true | Some _ => false end.

(** Every event of the trace so far satisfies [Q]. *)
Definition every (Q : event -> Prop) (s : state) : Prop := Forall Q (trace s).

End Logic.

(** ** Some worlds *)

Module Examples.

Local Open Scope list_scope.

Definition fresh_thread : thread := mk_thread false false "".

(** A world on an administrator's console: the scratch directory is
    ["C:\Temp\UniFlash.a1"], the source tree holds three files, every
    oracle not given as an argument answers without a failure. *)
Definition make_world (gui : bool) (kill : nat -> bool) (tmp : exn + string)
           (run : nat -> list string -> run_result) (size : string -> exn + Z)
           (copy : nat -> string -> string -> option exn)
           (fetch : nat -> string -> string -> option exn) : world :=
  {| w_gui := gui;
     w_kill := kill;
     w_is_admin := true;
     w_isfile := fun _ => true;
     w_stamp_source := "1700000000";
     w_stamp_target := "1700000000";
     w_pid := "4242";
     w_paths0 := [];
     w_handle0 := fresh_thread;
     w_mkdtemp := tmp;
     w_makedirs := fun _ => None;
     w_run := run;
     w_walk := fun top => [(top, ["setup.exe"; "bootmgr"]);
                           (path_join top "sources", ["install.wim"])];
     w_getsize := size;
     w_copy2 := copy;
     w_urlretrieve := fetch;
     w_move := fun _ _ _ => None;
     w_rmtree := fun _ _ => None;
     w_alive_after_stop := fun _ => false |}.

Definition scratch : string := "C:\Temp\UniFlash.a1".

Definition run_ok : nat -> list string -> run_result :=
  fun _ _ => RunDone 0 "DiskNumber PartitionNumber DriveLetter".

Definition small_files : string -> exn + Z := fun _ => inr 4096%Z.

Definition copy_ok : nat -> string -> string -> option exn := fun _ _ _ => None.

Definition fetch_ok : nat -> string -> string -> option exn := fun _ _ _ => None.

Definition never : nat -> bool := fun _ => false.

Definition always : nat -> bool := fun _ => true.

(** Everything works. *)
Definition calm_world : world :=
  make_world false never (inr scratch) run_ok small_files copy_ok fetch_ok.

(** The scratch directory cannot be made. *)
Definition no_scratch_world : world :=
  make_world false never (inl (mk_exn OSError "No usable temporary directory" None))
             run_ok small_files copy_ok fetch_ok.

(** The network is down. *)
Definition fetch_down : nat -> string -> string -> option exn :=
  fun _ _ _ => Some (mk_exn URLError "urlopen error: getaddrinfo failed" None).

Definition offline_world : world :=
  make_world false never (inr scratch) run_ok small_files copy_ok fetch_down.

(** Under the GUI, with the kill flag set from the start. *)
Definition killed_world : world :=
  make_world true always (inr scratch) run_ok small_files copy_ok fetch_ok.

(** Under the GUI; the kill flag is set while the first file is copied
    (a run without failures has produced 25 events by then). *)
Definition late_kill_world : world :=
  make_world true (fun t => (25 <=? t)%nat) (inr scratch) run_ok small_files copy_ok fetch_ok.

Definition launch_error : exn := mk_exn OSError "The device is not ready" None.

(** [diskpart] cannot be started for the script [bad]. *)
Definition run_failing (bad : list string) : nat -> list string -> run_result :=
  fun _ argv => if list_eq_dec string_dec argv bad then RunRaise launch_error
                else run_ok 0 argv.

Definition wipe_fails_world : world :=
  make_world false never (inr scratch) (run_failing (Core.cmd_clean "1"))
             small_files copy_ok fetch_ok.

Definition table_fails_world : world :=
  make_world false never (inr scratch) (run_failing (Core.cmd_convert "1" "mbr"))
             small_files copy_ok fetch_ok.

(** Every [diskpart] run ends with the exit status 1. *)
Definition run_status_one : nat -> list string -> run_result :=
  fun _ argv =>
    match argv with
    | "diskpart" :: _ => RunDone 1 ""
    | _ => run_ok 0 argv
    end.

Definition status_world : world :=
  make_world false never (inr scratch) run_status_one small_files copy_ok fetch_ok.

(** The target is full: writing the second file fails, and the error of
    the write names no file. *)
Definition disk_full : exn := mk_exn OSError "[Errno 28] No space left on device" None.

Definition copy_full : nat -> string -> string -> option exn :=
  fun _ src _ => if String.eqb src "D:\bootmgr" then Some disk_full else None.

Definition full_world : world :=
  make_world false never (inr scratch) run_ok small_files copy_full fetch_ok.

(** A source tree in which the name of the mount point comes back further
    down. *)
Definition echo_world : world :=
  {| w_gui := false; w_kill := never; w_is_admin := true; w_isfile := fun _ => true;
     w_stamp_source := "0"; w_stamp_target := "0"; w_pid := "1";
     w_paths0 := []; w_handle0 := fresh_thread; w_mkdtemp := inr scratch;
     w_makedirs := fun _ => None; w_run := run_ok;
     w_walk := fun top => [(path_join top "src", ["a.txt"])];
     w_getsize := small_files; w_copy2 := copy_ok; w_urlretrieve := fetch_ok;
     w_move := fun _ _ _ => None; w_rmtree := fun _ _ => None;
     w_alive_after_stop := fun _ => false |}.

(** [Mount-DiskImage] refuses the image. *)
Definition run_mount_refused : nat -> list string -> run_result :=
  fun _ argv =>
    match argv with
    | "PowerShell" :: "Mount-DiskImage" :: _ => RunDone 1 ""
    | _ => run_ok 0 argv
    end.

Definition mount_refused_world : world :=
  make_world false never (inr scratch) run_mount_refused small_files copy_ok fetch_ok.

(** The source holds a file of 5 GiB. *)
Definition one_big_file : string -> exn + Z :=
  fun path => if occurs "install.wim" path then inr 5368709120%Z else inr 4096%Z.

Definition big_world : world :=
  make_world false never (inr scratch) run_ok one_big_file copy_ok fetch_ok.

(** The connection is reset while the image is read: [urlretrieve] raises
    the [OSError] of the socket, which is none of the errors of [urllib]. *)
Definition connection_reset : exn :=
  mk_exn OSError "[WinError 10054] An existing connection was forcibly closed by the remote host"
         None.

Definition reset_world : world :=
  make_world false never (inr scratch) run_ok small_files copy_ok
             (fun _ _ _ => Some connection_reset).

(** The network is down and the scratch directory cannot be removed. *)
Definition in_use : exn :=
  mk_exn OSError "[WinError 32] The process cannot access the file" (Some scratch).

Definition offline_locked_world : world :=
  {| w_gui := false; w_kill := never; w_is_admin := true; w_isfile := fun _ => true;
     w_stamp_source := "1700000000"; w_stamp_target := "1700000000"; w_pid := "4242";
     w_paths0 := []; w_handle0 := fresh_thread; w_mkdtemp := inr scratch;
     w_makedirs := fun _ => None; w_run := run_ok;
     w_walk := fun top => [(top, ["setup.exe"; "bootmgr"]);
                           (path_join top "sources", ["install.wim"])];
     w_getsize := small_files; w_copy2 := copy_ok; w_urlretrieve := fetch_down;
     w_move := fun _ _ _ => None; w_rmtree := fun _ _ => Some in_use;
     w_alive_after_stop := fun _ => false |}.

(** Under the GUI with the kill flag set, and the scratch directory
    cannot be removed. *)
Definition killed_locked_world : world :=
  {| w_gui := true; w_kill := always; w_is_admin := true; w_isfile := fun _ => true;
     w_stamp_source := "1700000000"; w_stamp_target := "1700000000"; w_pid := "4242";
     w_paths0 := []; w_handle0 := fresh_thread; w_mkdtemp := inr scratch;
     w_makedirs := fun _ => None; w_run := run_ok;
     w_walk := fun top => [(top, ["setup.exe"; "bootmgr"]);
                           (path_join top "sources", ["install.wim"])];
     w_getsize := small_files; w_copy2 := copy_ok; w_urlretrieve := fetch_ok;
     w_move := fun _ _ _ => None; w_rmtree := fun _ _ => Some in_use;
     w_alive_after_stop := fun _ => false |}.

(** A line that holds a no-break space only: U+00A0, CR, LF, in UTF-8. *)
Definition nbsp_line : string :=
  String (ascii_of_nat 194) (String (ascii_of_nat 160)
    (String (ascii_of_nat 13) (String (ascii_of_nat 10) EmptyString))).

(** [Get-Volume] ends with the status 1 and lists the drive [D]; the
    pattern is looked for as a plain text. *)
Definition run_get_volume : nat -> list string -> run_result :=
  fun _ _ => RunDone 1 "DriveLetter FileSystem  D: NTFS".

Definition volume_world : world :=
  make_world false never (inr scratch) run_get_volume small_files copy_ok fetch_ok.

Definition plain_shell : Checks.shell :=
  {| Checks.sh_verbose := false;
     Checks.sh_which := fun _ => true;
     Checks.sh_search := fun pattern text => inr (occurs pattern text) |}.

(** A state in which the scratch directory exists. *)
Definition scratch_state : state :=
  {| trace := []; paths := [scratch]; handle := fresh_thread;
     gui_state := None; gui_error := None |}.

End Examples.

Import Core Checks Obs Logic Examples.

(** * Theorems *)

(** ** Rules of the logic *)

Module Rules.

Local Open Scope list_scope.

Section Keeps.
Variable I : state -> Prop.
Variable Xr : exn -> state -> Prop.
Variable Xe : state -> Prop.

Lemma keeps_ret {A} (R : A -> Prop) (a : A) : R a -> keeps I Xr Xe R (ret a).
Proof. intros H s Hs. simpl. auto. Qed.

Lemma keeps_raise {A} (R : A -> Prop) e :
  (forall s, I s -> Xr e s) -> keeps I Xr Xe R (raise e).
Proof. intros H s Hs. simpl. auto. Qed.

Lemma keeps_sys_exit {A} (R : A -> Prop) :
  (forall s, I s -> Xe s) -> keeps I Xr Xe R sys_exit.
Proof. intros H s Hs. simpl. auto. Qed.

Lemma keeps_gets {A} (f : state -> A) : keeps I Xr Xe (fun _ => True) (gets f).
Proof. intros s Hs. simpl. auto. Qed.

Lemma keeps_modify (f : state -> state) :
  (forall s, I s -> I (f s)) -> keeps I Xr Xe (fun _ => True) (modify f).
Proof. intros H s Hs. simpl. auto. Qed.

Lemma keeps_bind {A B} (R1 : A -> Prop) (R2 : B -> Prop) m k :
  keeps I Xr Xe R1 m -> (forall a, R1 a -> keeps I Xr Xe R2 (k a)) ->
  keeps I Xr Xe R2 (bind m k).
Proof.
  intros Hm Hk s Hs. unfold bind. specialize (Hm s Hs).
  destruct (m s) as [[a | e |] s1]; auto.
  destruct Hm as [H1 Ha]. exact (Hk a Ha s1 H1).
Qed.

Lemma keeps_weaken {A} (R R' : A -> Prop) m :
  keeps I Xr Xe R m -> (forall a, R a -> R' a) -> keeps I Xr Xe R' m.
Proof.
  intros Hm HR s Hs. specialize (Hm s Hs).
  destruct (m s) as [[a | e |] s1]; auto. destruct Hm; auto.
Qed.

Lemma keeps_try_except {A} (R : A -> Prop) body catches handler :
  keeps I Xr Xe R body ->
  (forall e s, catches e = true -> Xr e s -> I s) ->
  (forall e, keeps I Xr Xe R (handler e)) ->
  keeps I Xr Xe R (try_except body catches handler).
Proof.
  intros Hb HX Hh s Hs. unfold try_except. specialize (Hb s Hs).
  destruct (body s) as [[a | e |] s1]; auto.
  destruct (catches e) eqn:Hc; auto. exact (Hh e s1 (HX _ _ Hc Hb)).
Qed.

(** The same, when the body raises less than the suite around it may. *)
Lemma keeps_try_except_strong {A} (Xr' : exn -> state -> Prop) (R : A -> Prop)
      body catches handler :
  keeps I Xr' Xe R body ->
  (forall e s, Xr' e s -> Xr e s) ->
  (forall e s, catches e = true -> Xr' e s -> I s) ->
  (forall e, keeps I Xr Xe R (handler e)) ->
  keeps I Xr Xe R (try_except body catches handler).
Proof.
  intros Hb Hw HX Hh s Hs. unfold try_except. specialize (Hb s Hs).
  destruct (body s) as [[a | e |] s1]; auto.
  destruct (catches e) eqn:Hc; auto. exact (Hh e s1 (HX _ _ Hc Hb)).
Qed.

(** From a kept invariant to a triple: the rule that walks down the spine
    of a suite. *)
Lemma hoare_bind {A B} (R : A -> Prop) (Q : outcome B -> state -> Prop) m k :
  keeps I Xr Xe R m ->
  (forall a, R a -> hoare I (k a) Q) ->
  (forall e s, Xr e s -> Q (Raise e) s) ->
  (forall s, Xe s -> Q SysExit s) ->
  hoare I (bind m k) Q.
Proof.
  intros Hm Hk Hr He s Hs. unfold bind. specialize (Hm s Hs).
  destruct (m s) as [[a | e |] s1]; simpl; auto.
  destruct Hm as [H1 Ha]. exact (Hk a Ha s1 H1).
Qed.

Lemma hoare_keeps {A} (R : A -> Prop) (Q : outcome A -> state -> Prop) m :
  keeps I Xr Xe R m ->
  (forall a s, I s -> R a -> Q (Return a) s) ->
  (forall e s, Xr e s -> Q (Raise e) s) ->
  (forall s, Xe s -> Q SysExit s) ->
  hoare I m Q.
Proof.
  intros Hm Ha Hr He s Hs. specialize (Hm s Hs).
  destruct (m s) as [[a | e |] s1]; simpl; auto. destruct Hm; auto.
Qed.
End Keeps.

End Rules.

Import Rules.

(** Instantiating a result predicate that nothing constrains. *)
Ltac keeps_true :=
  match goal with
  | |- @keeps ?A _ _ _ ?R _ => is_evar R; unify R (fun _ : A => True)
  end.

Ltac keeps_unfold :=
  progress unfold emit, clock, of_fault, is_admin, isfile, exists_, mkdtemp, makedirs,
    subprocess_run, getsize, copy2, urlretrieve, move, rmtree, is_alive, set_stop,
    set_file, start_reporter, print_with_color, check_kill_signal,
    create_target_partition, format_target_device,
    wipe_existing_partition_table_and_filesystem_signatures,
    create_target_partition_table, create_uefi_ntfs_support_partition,
    install_uefi_ntfs_support_partition, mount_source_filesystem,
    mount_target_filesystem, check_fat32_filesize_limitation,
    copy_filesystem_files, cleanup.

(** One step of a proof that a suite keeps an invariant: [special] is
    tried first, [fin] closes the side conditions. *)
Ltac keeps_step special fin :=
  first
    [ special
    | keeps_true
    | lazymatch goal with
      | |- keeps _ _ _ _ (ret _) => apply keeps_ret; fin
      | |- keeps _ _ _ _ (raise _) => apply keeps_raise; fin
      | |- keeps _ _ _ _ sys_exit => apply keeps_sys_exit; fin
      | |- keeps _ _ _ _ (gets _) => apply keeps_gets
      | |- keeps _ _ _ _ (modify _) => apply keeps_modify; fin
      | |- keeps _ _ _ _ (bind _ _) => eapply keeps_bind; [ | intros ]
      | |- keeps _ _ _ _ (try_except _ _ _) => apply keeps_try_except; [ | fin | intros ]
      | |- keeps _ _ _ _ (if ?b then _ else _) => destruct b
      | |- keeps _ _ _ _ (match ?x with _ => _ end) => destruct x
      | |- _ => keeps_unfold
      end ].

Ltac keeps_auto special fin := repeat keeps_step special fin.

(** Unfolding the state updates down to the trace. *)
Ltac state_simpl :=
  unfold add_event, set_paths, set_handle, set_gui_state, set_gui_error in *;
  cbn [trace paths handle gui_state gui_error] in *.

(** Invariants that look at the trace through a filter. *)
Module Counting.

Local Open Scope list_scope.

Lemma count_events_app p a b :
  count_events p (a ++ b) = count_events p a + count_events p b.
Proof. unfold count_events. rewrite filter_app, length_app. reflexivity. Qed.

Lemma calls_app a b : calls (a ++ b) = calls a ++ calls b.
Proof. unfold calls. apply flat_map_app. Qed.

Lemma copies_app a b : copies (a ++ b) = copies a ++ copies b.
Proof. unfold copies. apply flat_map_app. Qed.

Lemma red_messages_app a b : red_messages (a ++ b) = red_messages a ++ red_messages b.
Proof. unfold red_messages. apply flat_map_app. Qed.

End Counting.

Import Counting.

(** ** Facts about the monad *)

Module MonadFacts.

Lemma bind_emit {B} (e : event) (k : unit -> M state B) (s : state) :
  bind (emit e) k s = k tt (add_event e s).
Proof. reflexivity. Qed.

Lemma bind_cases {A B} (m : M state A) (k : A -> M state B) (s : state) :
  bind m k s =
  match m s with
  | (Return a, s1) => k a s1
  | (Raise e, s1) => (Raise e, s1)
  | (SysExit, s1) => (SysExit, s1)
  end.
Proof. unfold bind. destruct (m s) as [[a | e | ] s1]; reflexivity. Qed.

Lemma bind_assoc {A B C} (m : M state A) (k : A -> M state B) (h : B -> M state C) s :
  bind (bind m k) h s = bind m (fun a => bind (k a) h) s.
Proof. unfold bind. destruct (m s) as [[a | e |] s1]; reflexivity. Qed.

(** The same, between suites. *)
Lemma hoare_ext {A} (P : state -> Prop) (Q : outcome A -> state -> Prop)
      (m m' : M state A) :
  (forall s, m s = m' s) -> hoare P m' Q -> hoare P m Q.
Proof. intros E H s Hs. rewrite E. apply H. exact Hs. Qed.

Lemma try_finally_state {A} (body : M state A) (final : M state unit) s :
  snd (try_finally body final s) = snd (final (snd (body s))).
Proof.
  unfold try_finally. destruct (body s) as [r s1]. simpl.
  destruct (final s1) as [[[] | e |] s2]; reflexivity.
Qed.

(** [try ... finally] returns what its body returned, or not at all. *)
Lemma try_finally_return {A} (body : M state A) (final : M state unit) s a :
  fst (try_finally body final s) = Return a -> fst (body s) = Return a.
Proof.
  unfold try_finally. destruct (body s) as [r s1]. simpl.
  destruct (final s1) as [[[] | e |] s2]; simpl; congruence.
Qed.

Lemma keeps_state {A} (I : state -> Prop) (R : A -> Prop) (m : M state A) :
  keeps I (fun _ => I) I R m -> forall s, I s -> I (snd (m s)).
Proof.
  intros H s Hs. specialize (H s Hs).
  destruct (m s) as [[a | e |] s1]; simpl; tauto.
Qed.

Lemma keeps_try_finally {A} (I : state -> Prop) (R : A -> Prop) Rf
      (body : M state A) (final : M state unit) :
  keeps I (fun _ => I) I R body ->
  keeps I (fun _ => I) I Rf final ->
  keeps I (fun _ => I) I R (try_finally body final).
Proof.
  intros Hb Hf s Hs. unfold try_finally. specialize (Hb s Hs).
  destruct (body s) as [[a | e |] s1];
    (assert (H1 : I s1) by tauto); specialize (Hf s1 H1);
    destruct (final s1) as [[[] | e' |] s2]; tauto.
Qed.

End MonadFacts.

Import MonadFacts.

(** ** The steps of the pipeline never emit the events counted here *)

Module Quiet.

Local Open Scope list_scope.

Ltac count_fin :=
  try solve
      [ exact I
      | intros; assumption
      | intros; unfold counted, cleanup_calls, count_events in *; state_simpl;
        rewrite ?filter_app, ?length_app; simpl; lia ].

Ltac count_auto special := keeps_auto special count_fin.

Section CleanupCalls.
Variable w : world.
Variable n : nat.

Local Abbreviation inv := (counted is_cleanup_call n).
Local Abbreviation quiet := (keeps inv (fun _ => inv) inv).

Lemma check_fat32_loop_no_cleanup ps : quiet (fun _ => True) (check_fat32_loop w ps).
Proof.
  induction ps as [| p ps IH]; simpl.
  - count_auto fail.
  - count_auto ltac:(apply IH).
Qed.

Lemma copy_loop_no_cleanup a b ps : quiet (fun _ => True) (copy_loop w a b ps).
Proof.
  induction ps as [| p ps IH]; simpl.
  - count_auto fail.
  - count_auto ltac:(apply IH).
Qed.

Lemma flash_device_try_no_cleanup src dev fs label tmp :
  quiet (fun _ => True) (flash_device_try w src dev fs label tmp).
Proof.
  unfold flash_device_try.
  count_auto ltac:(first [ apply check_fat32_loop_no_cleanup | apply copy_loop_no_cleanup ]).
Qed.

Lemma handler_no_cleanup (error : exn) :
  quiet (fun _ => True)
        (print_with_color w (MsgText (exn_str error)) Red ;;; ret (Some 1%Z)).
Proof. count_auto fail. Qed.

End CleanupCalls.

(** [cleanup] followed by the closing message enters [cleanup] once,
    however it ends. *)
Lemma finally_one_cleanup w a b tmp dev n s :
  counted is_cleanup_call n s ->
  counted is_cleanup_call (S n)
          (snd ((cleanup w a b tmp dev ;;; print_with_color w MsgCompleted Green) s)).
Proof.
  intros Hs. unfold cleanup. rewrite bind_assoc, bind_emit.
  eapply keeps_state with (R := fun _ => True).
  - count_auto fail.
  - unfold counted, count_events in *. state_simpl.
    rewrite filter_app, length_app. simpl. lia.
Qed.

Section TargetMountError.
Variable w : world.

Local Abbreviation inv := (counted is_target_mount_error 0).
Local Abbreviation quiet := (keeps inv (fun _ => inv) inv).

Lemma mount_target_filesystem_zero dev mp :
  quiet (fun r => r = 0%Z) (mount_target_filesystem w dev mp).
Proof.
  unfold mount_target_filesystem.
  eapply keeps_bind; [ count_auto fail | intros ].
  eapply keeps_bind; [ count_auto fail | intros ].
  apply keeps_ret. reflexivity.
Qed.

Ltac mount_target_step :=
  lazymatch goal with
  | |- keeps _ _ _ _ (bind (mount_target_filesystem _ _ _) _) =>
      eapply keeps_bind;
      [ apply mount_target_filesystem_zero
      | let a := fresh "mounted" in
        let H := fresh in
        intros a H; cbv beta in H; subst a;
        change (negb (0 =? 0)%Z) with false; cbv iota ]
  end.

Lemma check_fat32_loop_no_mount_error ps : quiet (fun _ => True) (check_fat32_loop w ps).
Proof.
  induction ps as [| p ps IH]; simpl.
  - count_auto fail.
  - count_auto ltac:(apply IH).
Qed.

Lemma copy_loop_no_mount_error a b ps : quiet (fun _ => True) (copy_loop w a b ps).
Proof.
  induction ps as [| p ps IH]; simpl.
  - count_auto fail.
  - count_auto ltac:(apply IH).
Qed.

Lemma flash_device_no_mount_error src dev fs label :
  quiet (fun _ => True) (flash_device w src dev fs label).
Proof.
  unfold flash_device.
  eapply keeps_bind; [ count_auto fail | intros tmp _ ].
  eapply keeps_try_finally with (Rf := fun _ => True).
  - apply keeps_try_except; [ | count_fin | intros; count_auto fail ].
    unfold flash_device_try.
    count_auto ltac:(first [ mount_target_step
                           | apply check_fat32_loop_no_mount_error
                           | apply copy_loop_no_mount_error ]).
  - count_auto fail.
Qed.

End TargetMountError.

End Quiet.

(** ** Running single steps *)

Module Steps.

Local Open Scope list_scope.

Lemma bind_run {A B} (m : M state A) (k : A -> M state B) s a s1 :
  m s = (Return a, s1) -> bind m k s = k a s1.
Proof. intros H. unfold bind. rewrite H. reflexivity. Qed.

Lemma mkdtemp_run w tmp s :
  w_mkdtemp w = inr tmp ->
  mkdtemp w s = (Return tmp, set_paths (tmp :: paths s) (add_event (EMkdtemp tmp) s)).
Proof. intros H. unfold mkdtemp. rewrite H. reflexivity. Qed.

Lemma mkdtemp_fail w e s :
  w_mkdtemp w = inl e -> mkdtemp w s = (Raise e, s).
Proof. intros H. unfold mkdtemp. rewrite H. reflexivity. Qed.

Lemma path_exists_removed p ps : existsb (String.eqb p) (remove_path p ps) = false.
Proof.
  induction ps as [| q ps IH]; simpl; [ reflexivity | ].
  destruct (String.eqb p q) eqn:E; simpl; [ exact IH | ].
  rewrite E. exact IH.
Qed.

Lemma path_exists_in p s : In p (paths s) -> path_exists p s = true.
Proof.
  intros H. unfold path_exists. apply existsb_exists. exists p.
  split; [ exact H | apply String.eqb_refl ].
Qed.

(** [cleanup], step by step. *)
Lemma cleanup_run w a b tmp dev s :
  let alive := th_started (handle s) &&
               (negb (th_stop (handle s)) ||
                w_alive_after_stop w (S (length (trace s)))) in
  let h := if alive then mk_thread (th_started (handle s)) true (th_file (handle s))
           else handle s in
  let tr := trace s ++ [ECall Fcleanup; ERmtree tmp] in
  cleanup w a b tmp dev s =
  if path_exists tmp s then
    match w_rmtree w (S (length (trace s))) tmp with
    | Some e => (Raise e, mk_state tr (paths s) h (gui_state s) (gui_error s))
    | None => (Return tt, mk_state tr (remove_path tmp (paths s)) h (gui_state s) (gui_error s))
    end
  else (Raise (mk_exn FileNotFoundError "No such file or directory" (Some tmp)),
        mk_state tr (paths s) h (gui_state s) (gui_error s)).
Proof.
  destruct s as [tr0 ps h0 g1 g2].
  unfold cleanup, is_alive, rmtree, set_stop, exists_, clock, emit, of_fault,
    bind, gets, modify, ret, raise, path_exists, add_event, set_handle, set_paths.
  cbn [trace paths handle gui_state gui_error fst snd].
  assert (E : length (tr0 ++ [ECall Fcleanup]) = S (length tr0))
    by (rewrite length_app, Nat.add_1_r; reflexivity).
  rewrite E.
  destruct (th_started h0 && (negb (th_stop h0) || w_alive_after_stop w (S (length tr0))));
    cbn [trace paths handle gui_state gui_error];
    rewrite ?E, <- ?app_assoc; cbn [app];
    destruct (existsb (String.eqb tmp) ps);
    try destruct (w_rmtree w (S (length tr0)) tmp); reflexivity.
Qed.

End Steps.

Import Steps.

(** ** The claims about [cleanup], parameter checking and the target mount *)

Local Open Scope list_scope.

(** C1, as amended.  In every run of [flash_device] in which the scratch
    directory was made (that is, [tempfile.mkdtemp], which stands before
    the [try] statement, returned), [cleanup] is entered exactly once
    before [flash_device] is left, whichever way it is left: at the end of
    the suite, by an early [return 1], by an exception of a step or by
    [SystemExit]. *)
Theorem flash_device_cleanup_once w src dev fs label tmp :
  w_mkdtemp w = inr tmp ->
  cleanup_calls (trace (snd (flash_device w src dev fs label (init w)))) = 1.
Proof.
  intros Htmp. unfold flash_device.
  rewrite (bind_run _ _ _ _ _ (mkdtemp_run w tmp (init w) Htmp)).
  rewrite try_finally_state.
  apply (Quiet.finally_one_cleanup w _ _ tmp dev 0).
  eapply keeps_state.
  - apply keeps_try_except.
    + apply Quiet.flash_device_try_no_cleanup.
    + intros; assumption.
    + intros e. apply Quiet.handler_no_cleanup.
  - reflexivity.
Qed.

Lemma flash_device_cleanup_once_witness :
  w_mkdtemp calm_world = inr scratch /\
  cleanup_calls
    (trace (snd (flash_device calm_world "install.iso" "1" "FAT" "USB" (init calm_world)))) = 1.
Proof.
  split; [ reflexivity | ].
  apply (flash_device_cleanup_once calm_world "install.iso" "1" "FAT" "USB" scratch).
  reflexivity.
Defined.

(** C1, the counterexample.  When the scratch directory cannot be made,
    [flash_device] is left by the exception of [mkdtemp] and [cleanup] is
    never entered. *)
Lemma flash_device_without_scratch_no_cleanup :
  let r := flash_device no_scratch_world "install.iso" "1" "FAT" "USB" (init no_scratch_world) in
  fst r = Raise (mk_exn OSError "No usable temporary directory" None) /\
  cleanup_calls (trace (snd r)) = 0.
Proof. split; reflexivity. Qed.

(** The two patterns of [check_runtime_parameters] exclude each other: what
    starts with a drive letter, a colon and a backslash does not end after
    the colon. *)
Lemma drive_root_not_drive_only s :
  match_drive_root s = true -> match_drive_only s = false.
Proof.
  intros H.
  destruct s as [| c [| c1 s]]; try discriminate H.
  destruct c1 as [[] [] [] [] [] [] [] []]; simpl in H; try discriminate H.
  destruct s as [| c2 s]; try discriminate H.
  destruct c2 as [[] [] [] [] [] [] [] []]; simpl in H; try discriminate H.
  simpl. apply andb_false_r.
Qed.

(** C4, what the code does.  In the mode ["device"],
    [check_runtime_parameters] never returns 0: a target that passes the
    first test, [^[A-Z]:\\], fails the test of the mode, [^[A-Z]:$], and a
    bare drive letter such as ["X:"] fails the first one. *)
Theorem check_runtime_parameters_device_never_accepts w source_media target_media s :
  fst (check_runtime_parameters w "device" source_media target_media s) <> Return 0%Z.
Proof.
  unfold check_runtime_parameters, isfile, print_with_color, emit.
  unfold bind, ret, modify, sys_exit. simpl.
  destruct (w_isfile w source_media); simpl.
  - destruct (match_drive_root target_media) eqn:E; simpl.
    + rewrite (drive_root_not_drive_only _ E). simpl.
      destruct (w_gui w); simpl; discriminate.
    + destruct (w_gui w); simpl; discriminate.
  - destruct (w_gui w); simpl; discriminate.
Qed.

(** The bare drive letter of the scenario is turned away with the message
    of the first test. *)
Lemma check_runtime_parameters_bare_drive_letter w source_media s :
  w_isfile w source_media = true ->
  let r := check_runtime_parameters w "device" source_media "X:" s in
  fst r = (if w_gui w then SysExit else Return 1%Z) /\
  trace (snd r) = trace s ++ [EPrint (MsgNotDriveLetter "X:") Red].
Proof.
  intros H. unfold check_runtime_parameters, isfile, print_with_color, emit.
  unfold bind, ret, modify, sys_exit. simpl. rewrite H. simpl.
  destruct (w_gui w); simpl; split; reflexivity.
Qed.

(** C9, what the code does.  A [cleanup] that succeeded has removed the
    scratch directory, so a second [cleanup] of the same session raises
    [FileNotFoundError]. *)
Theorem cleanup_twice_raises w a b tmp dev s s1 :
  cleanup w a b tmp dev s = (Return tt, s1) ->
  fst (cleanup w a b tmp dev s1) =
  Raise (mk_exn FileNotFoundError "No such file or directory" (Some tmp)).
Proof.
  rewrite cleanup_run. cbv zeta.
  destruct (path_exists tmp s); [ | discriminate ].
  destruct (w_rmtree w (S (length (trace s))) tmp); [ discriminate | ].
  intros H. injection H as <-.
  rewrite cleanup_run. cbv zeta. unfold path_exists. cbn [paths].
  rewrite path_exists_removed. reflexivity.
Qed.

Lemma cleanup_twice_raises_witness :
  let once := cleanup calm_world "S:" "T:" scratch "1" scratch_state in
  once = (Return tt, snd once) /\
  fst (cleanup calm_world "S:" "T:" scratch "1" (snd once)) =
  Raise (mk_exn FileNotFoundError "No such file or directory" (Some scratch)).
Proof.
  split; [ reflexivity | ].
  apply (cleanup_twice_raises calm_world "S:" "T:" scratch "1" scratch_state).
  reflexivity.
Defined.

(** [cleanup] of a session whose scratch directory was never made raises
    as well. *)
Lemma cleanup_without_scratch_raises w a b tmp dev s :
  path_exists tmp s = false ->
  fst (cleanup w a b tmp dev s) =
  Raise (mk_exn FileNotFoundError "No such file or directory" (Some tmp)).
Proof. intros H. rewrite cleanup_run. cbv zeta. rewrite H. reflexivity. Qed.

(** C10.  [mount_target_filesystem] returns 0 whatever its arguments are
    and does nothing but announce itself; so no run of [flash_device]
    prints the error of a failed target mount. *)
Theorem mount_target_filesystem_never_fails :
  (forall w dev mp s,
      fst (mount_target_filesystem w dev mp s) = Return 0%Z /\
      trace (snd (mount_target_filesystem w dev mp s)) =
      trace s ++ [ECall Fmount_target_filesystem; EPrint MsgMountingTarget Green] /\
      paths (snd (mount_target_filesystem w dev mp s)) = paths s) /\
  (forall w src dev fs label,
      count_events is_target_mount_error
                   (trace (snd (flash_device w src dev fs label (init w)))) = 0).
Proof.
  split.
  - intros w dev mp s.
    unfold mount_target_filesystem, print_with_color, emit, bind, ret, modify.
    destruct (w_gui w); simpl; rewrite <- app_assoc; repeat split; reflexivity.
  - intros w src dev fs label.
    apply (keeps_state _ _ _ (Quiet.flash_device_no_mount_error w src dev fs label)).
    reflexivity.
Qed.

(** ** The commands of a run *)

Module Script.

Local Open Scope list_scope.

Lemma is_prefix_refl {A} (l : list A) : is_prefix l l.
Proof. exists []. symmetry. apply app_nil_r. Qed.

Lemma is_prefix_nil {A} (l : list A) : is_prefix [] l.
Proof. exists l. reflexivity. Qed.

Lemma is_prefix_app {A} (l l1 l2 : list A) : is_prefix l1 l2 -> is_prefix (l ++ l1) (l ++ l2).
Proof. intros [r ->]. exists r. apply app_assoc. Qed.

Lemma is_prefix_app_r {A} (l1 l2 r : list A) : is_prefix l1 l2 -> is_prefix l1 (l2 ++ r).
Proof. intros [r' ->]. exists (r' ++ r). symmetry. apply app_assoc. Qed.

Lemma in_cat {B} (Ls1 Ls2 : list (list B)) L1 L2 :
  In L1 Ls1 -> In L2 Ls2 -> In (L1 ++ L2) (cat Ls1 Ls2).
Proof.
  intros H1 H2. unfold cat. apply in_flat_map. exists L1. split; [ exact H1 | ].
  apply in_map. exact H2.
Qed.

Section Rules.
Variable w : world.

Lemma script_quiet {A} (C : A -> bool) (R : A -> Prop) (m : M state A) :
  (forall c, keeps (called c) (fun _ => called c) (called c) R m) ->
  script [[]] C R m.
Proof.
  intros H s. exists [], []. specialize (H (calls (trace s)) s eq_refl).
  split; [ left; reflexivity | ].
  rewrite app_nil_r.
  destruct (m s) as [[a | e |] s1]; simpl; unfold called in H;
    (split; [ tauto | split; [ apply is_prefix_refl | ] ]).
  - intros a' E. injection E as <-. tauto.
  - discriminate.
  - discriminate.
Qed.

Lemma script_bind {A B} Ls1 Ls2 (C : B -> bool) (R1 : A -> Prop) (R2 : B -> Prop)
      (m : M state A) (k : A -> M state B) :
  script Ls1 (fun _ => true) R1 m ->
  (forall a, R1 a -> script Ls2 C R2 (k a)) ->
  (exists L2, In L2 Ls2) ->
  script (cat Ls1 Ls2) C R2 (bind m k).
Proof.
  intros Hm Hk [L0 HL0] s.
  destruct (Hm s) as (L1 & L1' & HL1 & Hc1 & Hp1 & Hr1).
  unfold bind. destruct (m s) as [[a | e |] s1]; simpl in *.
  - destruct (Hr1 a eq_refl) as [Ha Hfull]. specialize (Hfull eq_refl). subst L1'.
    destruct (Hk a Ha s1) as (L2 & L2' & HL2 & Hc2 & Hp2 & Hr2).
    exists (L1 ++ L2), (L1 ++ L2'). split; [ | split; [ | split ] ].
    + apply in_cat; assumption.
    + rewrite Hc2, Hc1. symmetry. apply app_assoc.
    + apply is_prefix_app. exact Hp2.
    + intros b Hb. destruct (Hr2 b Hb) as [HR HC]. split; [ exact HR | ].
      intros H. f_equal. apply HC. exact H.
  - exists (L1 ++ L0), L1'. split; [ | split; [ | split ] ]; try discriminate.
    + apply in_cat; assumption.
    + exact Hc1.
    + apply is_prefix_app_r. exact Hp1.
  - exists (L1 ++ L0), L1'. split; [ | split; [ | split ] ]; try discriminate.
    + apply in_cat; assumption.
    + exact Hc1.
    + apply is_prefix_app_r. exact Hp1.
Qed.

Lemma script_weaken {A} Ls Ls' (C C' : A -> bool) (R R' : A -> Prop) (m : M state A) :
  script Ls C R m ->
  incl Ls Ls' ->
  (forall a, R a -> R' a) ->
  (forall a, R a -> C' a = true -> C a = true) ->
  script Ls' C' R' m.
Proof.
  intros Hm Hi HR HC s.
  destruct (Hm s) as (L & L' & HL & Hc & Hp & Hr).
  exists L, L'. split; [ | split; [ | split ] ]; auto.
  intros a Ha. destruct (Hr a Ha) as [H1 H2]. split; [ auto | ].
  intros H'. apply H2. apply HC; assumption.
Qed.

(** A suite that stops early has run a prefix of any script. *)
Lemma script_early {A} Ls (C : A -> bool) (R R' : A -> Prop) (m : M state A) :
  script [[]] (fun _ => true) R m ->
  (exists L, In L Ls) ->
  (forall a, R a -> C a = false /\ R' a) ->
  script Ls C R' m.
Proof.
  intros Hm [L0 HL0] HC s.
  destruct (Hm s) as (L & L' & HL & Hc & Hp & Hr).
  destruct HL as [<- | []]. destruct Hp as [r Hp].
  symmetry in Hp. apply app_eq_nil in Hp. destruct Hp as [-> _].
  exists L0, []. split; [ | split; [ | split ] ]; auto using is_prefix_nil.
  intros a Ha. destruct (Hr a Ha) as [H1 _]. destruct (HC a H1) as [H2 H3].
  split; [ exact H3 | ].
  intros H'. rewrite H2 in H'. discriminate.
Qed.

Lemma script_subprocess_run argv check :
  script [[argv]] (fun _ => true) (fun _ => True) (subprocess_run w argv check).
Proof.
  intros s. exists [argv], [argv].
  unfold subprocess_run, clock, emit, bind, gets, modify, ret, raise.
  cbn [fst snd].
  assert (E : calls (trace (add_event (ESubprocess argv) s)) = calls (trace s) ++ [argv]).
  { unfold add_event. cbn [trace]. rewrite calls_app. reflexivity. }
  split; [ left; reflexivity | ].
  destruct (w_run w (length (trace s)) argv) as [e | rc out]; cbn [fst snd].
  - split; [ exact E | split; [ apply is_prefix_refl | discriminate ] ].
  - destruct (check && negb (rc =? 0)%Z); cbn [fst snd];
      (split; [ exact E | split; [ apply is_prefix_refl | ] ]);
      [ discriminate | intros; split; auto ].
Qed.

End Rules.

End Script.

Import Script.

Ltac called_fin :=
  try solve
      [ exact I
      | reflexivity
      | intros; assumption
      | intros; unfold called in *; state_simpl;
        rewrite ?calls_app; cbn [calls flat_map app]; rewrite ?app_nil_r; assumption ].

Ltac called_auto special := keeps_auto special called_fin.

(** One statement of a suite: [Ls1] for the statement, [Ls2] for the rest. *)
Ltac script_seq Ls1 Ls2 :=
  lazymatch goal with
  | |- script ?Ls ?C ?R (bind _ _) =>
      apply (script_weaken (cat Ls1 Ls2) Ls C C R R);
      [ eapply (script_bind Ls1 Ls2); [ | intros | eexists; left; reflexivity ]
      | unfold cat; cbn [flat_map map app]; let Hin := fresh in intros ? Hin; exact Hin
      | auto
      | auto ]
  end.

(** The suite runs one of the scripts [Ls0], which are among the expected
    ones. *)
Ltac script_into Ls0 :=
  lazymatch goal with
  | |- script ?Ls ?C ?R _ =>
      apply (script_weaken Ls0 Ls C C R R); [ | | auto | auto ]
  end.

Ltac script_silent special :=
  apply script_quiet; intros; called_auto special.

Module Commands.

Local Open Scope list_scope.

Section Steps.
Variable w : world.

Local Abbreviation still c := (keeps (called c) (fun _ => called c) (called c)).

Lemma print_with_color_still c m col : still c (fun _ => True) (print_with_color w m col).
Proof. called_auto fail. Qed.

Lemma check_fat32_loop_still c ps :
  still c (fun r => r = if existsb (too_big w) ps then 1%Z else 0%Z) (check_fat32_loop w ps).
Proof.
  induction ps as [| p ps IH]; simpl.
  - called_auto fail.
  - unfold getsize, too_big at 1.
    destruct (w_getsize w p) as [e | size].
    + apply keeps_bind with (R1 := fun _ => False);
        [ apply keeps_raise; called_fin | intros ? [] ].
    + apply keeps_bind with (R1 := fun r => r = size);
        [ apply keeps_ret; reflexivity | intros ? -> ].
      simpl. destruct (size >? FAT32_MAX_FILE_SIZE)%Z; simpl.
      * called_auto fail.
      * exact IH.
Qed.

Lemma copy_loop_still c a b ps : still c (fun _ => True) (copy_loop w a b ps).
Proof.
  induction ps as [| p ps IH]; simpl.
  - called_auto fail.
  - called_auto ltac:(apply IH).
Qed.

Lemma script_create_target_partition dev fs label :
  script [[cmd_create_partition dev fs label]] (fun _ => true) (fun _ => True)
         (create_target_partition w dev fs label).
Proof.
  unfold create_target_partition.
  script_seq (@nil (list string) :: nil) [[cmd_create_partition dev fs label]];
    [ script_silent fail | ].
  script_seq (@nil (list string) :: nil) [[cmd_create_partition dev fs label]];
    [ script_silent fail | ].
  script_seq [[cmd_create_partition dev fs label]] (@nil (list string) :: nil);
    [ apply script_subprocess_run | script_silent fail ].
Qed.

Lemma script_wipe dev :
  script [[cmd_clean dev]] (fun _ => true) (fun _ => True)
         (wipe_existing_partition_table_and_filesystem_signatures w dev).
Proof.
  unfold wipe_existing_partition_table_and_filesystem_signatures.
  script_seq (@nil (list string) :: nil) [[cmd_clean dev]]; [ script_silent fail | ].
  script_seq (@nil (list string) :: nil) [[cmd_clean dev]]; [ script_silent fail | ].
  script_seq [[cmd_clean dev]] (@nil (list string) :: nil);
    [ apply script_subprocess_run | script_silent fail ].
Qed.

Lemma script_create_target_partition_table_legacy dev :
  script [[cmd_convert dev "mbr"]] (fun _ => true) (fun _ => True)
         (create_target_partition_table w dev "legacy").
Proof.
  unfold create_target_partition_table.
  script_seq (@nil (list string) :: nil) [[cmd_convert dev "mbr"]]; [ script_silent fail | ].
  script_seq (@nil (list string) :: nil) [[cmd_convert dev "mbr"]]; [ script_silent fail | ].
  change (String.eqb "legacy" "legacy" || String.eqb "legacy" "msdos") with true.
  cbv iota.
  script_seq [[cmd_convert dev "mbr"]] (@nil (list string) :: nil);
    [ apply script_subprocess_run | script_silent fail ].
Qed.

Lemma script_format_target_device dev fs :
  script [[cmd_get_partition dev; cmd_create_partition dev fs DEFAULT_NEW_FS_LABEL];
          [cmd_get_partition dev]]
         (fun _ => true) (fun _ => True) (format_target_device w dev fs).
Proof.
  unfold format_target_device.
  pose (Ls := [[cmd_get_partition dev; cmd_create_partition dev fs DEFAULT_NEW_FS_LABEL];
               [cmd_get_partition dev]]).
  script_seq (@nil (list string) :: nil) Ls; [ script_silent fail | ].
  script_seq (@nil (list string) :: nil) Ls; [ script_silent fail | ].
  script_seq [[cmd_get_partition dev]]
             [[cmd_create_partition dev fs DEFAULT_NEW_FS_LABEL]; []];
    [ apply script_subprocess_run | ].
  destruct (occurs "No partitions" (snd a1) || all_space (snd a1)).
  - script_into [[cmd_create_partition dev fs DEFAULT_NEW_FS_LABEL]].
    + script_seq (@nil (list string) :: nil)
                 [[cmd_create_partition dev fs DEFAULT_NEW_FS_LABEL]];
        [ script_silent fail | apply script_create_target_partition ].
    + intros ? [<- | []]. left. reflexivity.
  - script_into (@nil (list string) :: nil).
    + script_silent fail.
    + intros ? [<- | []]. right. left. reflexivity.
Qed.

(** [mount_source_filesystem] has run its one command whenever it
    returns, also when it returns 1. *)
Lemma script_mount_source_filesystem src mp :
  script [[cmd_mount_image src]] (fun _ => true) (fun _ => True)
         (mount_source_filesystem w src mp).
Proof.
  unfold mount_source_filesystem.
  script_seq (@nil (list string) :: nil) [[cmd_mount_image src]]; [ script_silent fail | ].
  script_seq (@nil (list string) :: nil) [[cmd_mount_image src]]; [ script_silent fail | ].
  script_seq (@nil (list string) :: nil) [[cmd_mount_image src]]; [ script_silent fail | ].
  script_seq (@nil (list string) :: nil) [[cmd_mount_image src]]; [ script_silent fail | ].
  intros s. exists [cmd_mount_image src], [cmd_mount_image src].
  unfold try_except, subprocess_run, clock, emit, bind, gets, modify, ret, raise.
  cbn [fst snd].
  assert (E : calls (trace (add_event (ESubprocess (cmd_mount_image src)) s)) =
              calls (trace s) ++ [cmd_mount_image src]).
  { unfold add_event. cbn [trace]. rewrite calls_app. reflexivity. }
  split; [ left; reflexivity | ].
  destruct (w_run w (length (trace s)) (cmd_mount_image src)) as [e | rc out]; cbn [fst snd].
  - destruct (is_called_process_error e); cbn [fst snd];
      (split; [ exact E | split; [ apply is_prefix_refl | ] ]);
      [ intros; split; auto | discriminate ].
  - destruct (true && negb (rc =? 0)%Z); cbn [fst snd];
      (split; [ exact E | split; [ apply is_prefix_refl | ] ]);
      intros; split; auto.
Qed.

End Steps.

End Commands.

Module Pipeline.

Local Open Scope list_scope.

Section Body.
Variable w : world.

Local Abbreviation still c := (keeps (called c) (fun _ => called c) (called c)).

(** What the size check returns decides the file system as [resolved_type]
    says. *)
Lemma limited_still c fs :
  still c (fun limited => resolve_filesystem_type fs limited = resolved_type w fs)
        (if String.eqb fs "FAT"
         then check_fat32_filesize_limitation w (source_mountpoint w)
         else ret 0%Z).
Proof.
  unfold resolved_type, resolve_filesystem_type.
  destruct (String.eqb fs "FAT"); cbn [andb].
  - unfold check_fat32_filesize_limitation.
    eapply keeps_bind; [ called_auto fail | intros _ _ ].
    eapply keeps_weaken; [ apply Commands.check_fat32_loop_still | ].
    intros a ->. destruct (existsb (too_big w) (walk_paths w (source_mountpoint w))); reflexivity.
  - apply keeps_ret. reflexivity.
Qed.

(** A suite that prints and returns 1. *)
Ltac script_exit :=
  apply (script_early _ _ (fun a => a = Some 1%Z));
  [ script_silent fail
  | eexists; left; reflexivity
  | intros ? ->; split; [ reflexivity | exact I ] ].

Lemma script_flash_device_try src dev fs label tmp :
  script (device_scripts src dev (resolved_type w fs) label) is_none (fun _ => True)
         (flash_device_try w src dev fs label tmp).
Proof.
  unfold flash_device_try, device_scripts.
  set (fs' := resolved_type w fs).
  set (mount := cmd_mount_image src).
  set (get := cmd_get_partition dev).
  set (first := cmd_create_partition dev fs' DEFAULT_NEW_FS_LABEL).
  set (clean := cmd_clean dev).
  set (convert := cmd_convert dev "mbr").
  set (create := cmd_create_partition dev fs' label).
  script_seq (@nil (list string) :: nil)
             [[mount; get; first; clean; convert; create]; [mount; get; clean; convert; create]];
    [ script_silent fail | ].
  destruct (negb a); [ script_exit | ].
  script_seq [[mount]] [[get; first; clean; convert; create]; [get; clean; convert; create]];
    [ apply Commands.script_mount_source_filesystem | ].
  destruct (negb (a0 =? 0)%Z); [ script_exit | ].
  lazymatch goal with
  | |- script ?Ls ?C ?R (bind _ _) =>
      apply (script_weaken (cat [[]] Ls) Ls C C R R);
      [ apply (script_bind [[]] Ls C
                           (fun limited => resolve_filesystem_type fs limited = fs') R);
        [ apply script_quiet; intros; apply limited_still
        | intros limited Hlim
        | eexists; left; reflexivity ]
      | unfold cat; cbn [flat_map map app]; intros ? Hin; exact Hin
      | auto
      | auto ]
  end.
  cbv zeta. rewrite Hlim. fold first create.
  script_seq [[get; first]; [get]] [[clean; convert; create]];
    [ apply Commands.script_format_target_device | ].
  script_seq [[clean]] [[convert; create]]; [ apply Commands.script_wipe | ].
  script_seq [[convert]] [[create]];
    [ apply Commands.script_create_target_partition_table_legacy | ].
  script_seq [[create]] (@nil (list string) :: nil);
    [ apply Commands.script_create_target_partition | ].
  script_silent ltac:(apply Commands.copy_loop_still).
Qed.

(** The handler of [flash_device] and its [finally] suite run no command. *)
Lemma handler_still c (error : exn) :
  still c (fun _ => True)
        (print_with_color w (MsgText (exn_str error)) Red ;;; ret (Some 1%Z)).
Proof. called_auto fail. Qed.

Lemma finally_still c a b tmp dev :
  still c (fun _ => True) (cleanup w a b tmp dev ;;; print_with_color w MsgCompleted Green).
Proof. called_auto fail. Qed.

End Body.

(** The commands of a whole run of [flash_device]: a prefix of one of the
    two scripts, built with the resolved file system; and the whole script
    when [flash_device] returns [None]. *)
Lemma flash_device_script w src dev fs label :
  let r := flash_device w src dev fs label (init w) in
  exists L,
    In L (device_scripts src dev (resolved_type w fs) label) /\
    is_prefix (calls (trace (snd r))) L /\
    (fst r = Return None -> calls (trace (snd r)) = L).
Proof.
  cbv zeta. unfold flash_device.
  destruct (w_mkdtemp w) as [e | tmp] eqn:Htmp.
  - unfold bind. rewrite (mkdtemp_fail w e _ Htmp). cbn [fst snd init trace calls flat_map].
    eexists. split; [ left; reflexivity | ].
    split; [ apply is_prefix_nil | discriminate ].
  - rewrite (bind_run _ _ _ _ _ (mkdtemp_run w tmp (init w) Htmp)).
    set (s0 := set_paths _ _).
    destruct (script_flash_device_try w src dev fs label tmp s0)
      as (L & L' & HL & Hc & Hp & Hr).
    change (calls (trace s0)) with (@nil (list string)) in Hc. cbn [app] in Hc.
    exists L. split; [ exact HL | ].
    set (body := flash_device_try w src dev fs label tmp) in *.
    set (handler := fun error : exn =>
                      print_with_color w (MsgText (exn_str error)) Red ;;; ret (Some 1%Z)).
    set (final := cleanup w _ _ tmp dev ;;; _).
    assert (Hh : forall e s, called L' s -> called L' (snd (handler e s))).
    { intros e s. apply (keeps_state _ _ _ (handler_still w L' e)). }
    assert (Hf : forall s, called L' s -> called L' (snd (final s))).
    { intros s.
      apply (keeps_state _ _ _ (finally_still w L' (source_mountpoint w)
                                              (target_mountpoint w) tmp dev)). }
    rewrite try_finally_state.
    assert (Hcalls : called L' (snd (try_except body (fun _ => true) handler s0))).
    { unfold try_except. destruct (body s0) as [[a | e |] s1]; cbn [fst snd] in *;
        try exact Hc. apply Hh. exact Hc. }
    split.
    + rewrite (Hf _ Hcalls). exact Hp.
    + intros Hret. rewrite (Hf _ Hcalls).
      apply try_finally_return in Hret.
      unfold try_except in Hret.
      destruct (body s0) as [[a | e |] s1] eqn:Hb; cbn [fst snd] in *.
      * injection Hret as ->. apply (Hr None eq_refl). reflexivity.
      * exfalso. clear - Hret. subst handler. cbv beta in Hret.
        unfold print_with_color, emit, bind, modify, ret, sys_exit in Hret.
        cbn in Hret. destruct (w_gui w); cbn in Hret; discriminate.
      * discriminate.
Qed.

End Pipeline.

(** ** How [flash_device] ends *)

Module Ending.

Local Open Scope list_scope.

(** Two ways of cutting one list at an element. *)
Lemma app_cons_cases {A} (pre pre' : list A) x y post tail :
  pre ++ x :: post = pre' ++ y :: tail ->
  (exists mid, pre' = pre ++ x :: mid /\ post = mid ++ y :: tail) \/
  (pre = pre' /\ x = y /\ post = tail) \/
  (exists mid, pre = pre' ++ y :: mid /\ tail = mid ++ x :: post).
Proof.
  revert pre'. induction pre as [| a pre IH]; intros [| b pre'] H; simpl in H.
  - injection H as -> ->. right. left. auto.
  - injection H as -> ->. left. exists pre'. auto.
  - injection H as -> <-. right. right. exists pre. auto.
  - injection H as -> H. destruct (IH _ H) as [(mid & -> & ->) | [(-> & -> & ->) | (mid & -> & ->)]].
    + left. exists mid. auto.
    + right. left. auto.
    + right. right. exists mid. auto.
Qed.

(** Whatever the thread was, after [cleanup] it is stopped if it was
    started. *)
Ltac stopped s :=
  destruct (handle s) as [[] [] ?];
  cbn; try easy;
  repeat match goal with
         | |- context [w_alive_after_stop ?w ?t] => destruct (w_alive_after_stop w t); cbn
         end;
  easy.

(** After the [try] suite: the handler, when the suite raised; then
    [cleanup]; then the closing message, when [cleanup] returned. *)
Lemma flash_device_ending w src dev fs label tmp s0 r_b s1 :
  flash_device_try w src dev fs label tmp s0 = (r_b, s1) ->
  exists r s2 (closed : bool),
    try_finally
      (try_except (flash_device_try w src dev fs label tmp) (fun _ => true)
                  (fun error => print_with_color w (MsgText (exn_str error)) Red ;;;
                                ret (Some 1%Z)))
      (cleanup w (source_mountpoint w) (target_mountpoint w) tmp dev ;;;
       print_with_color w MsgCompleted Green) s0 = (r, s2) /\
    trace s2 =
    trace s1 ++
    match r_b with Raise e => [EPrint (MsgText (exn_str e)) Red] | _ => [] end ++
    [ECall Fcleanup; ERmtree tmp] ++
    (if closed then [EPrint MsgCompleted Green] else []) /\
    (closed = true ->
     r = match r_b with
         | Raise _ => if w_gui w then SysExit else Return (Some 1%Z)
         | _ => r_b
         end) /\
    (closed = false -> exists e, r = Raise e) /\
    (closed = true <->
     (existsb (String.eqb tmp) (paths s1) = true /\
      w_rmtree w (S (length (trace s1) +
                     match r_b with Raise _ => 1 | _ => 0 end)) tmp = None)) /\
    (th_started (handle s2) = true -> th_stop (handle s2) = true).
Proof.
  intros Hb. unfold try_finally, try_except. rewrite Hb.
  set (final := cleanup w _ _ tmp dev ;;; _).
  assert (Hfinal : forall s (r : outcome (option Z)),
             exists (r' : outcome (option Z)) s2 (closed : bool),
               match final s with
               | (Return _, s2) => (r, s2)
               | (Raise e, s2) => (Raise e, s2)
               | (SysExit, s2) => (SysExit, s2)
               end = (r', s2) /\
               trace s2 = trace s ++ [ECall Fcleanup; ERmtree tmp] ++
                                  (if closed then [EPrint MsgCompleted Green] else []) /\
               (closed = true -> r' = r) /\
               (closed = false -> exists e, r' = Raise e) /\
               (closed = true <->
                (existsb (String.eqb tmp) (paths s) = true /\
                 w_rmtree w (S (length (trace s))) tmp = None)) /\
               (th_started (handle s2) = true -> th_stop (handle s2) = true)).
  { intros s r. subst final. unfold bind at 1. rewrite cleanup_run. cbv zeta.
    unfold path_exists.
    destruct (existsb (String.eqb tmp) (paths s)).
    - destruct (w_rmtree w (S (length (trace s))) tmp) as [e |].
      + eexists _, _, false. split; [ reflexivity | ]. cbn [trace handle].
        rewrite app_nil_r.
        split; [ reflexivity | ]. split; [ discriminate | ].
        split; [ intros; eexists; reflexivity | ].
        split; [ split; [ discriminate | intros [_ H]; discriminate ] | ].
        stopped s.
      + unfold print_with_color, emit, bind, modify, ret.
        destruct (w_gui w); cbn [fst snd is_red];
          (eexists _, _, true; split; [ reflexivity | ]);
          state_simpl; rewrite <- app_assoc;
          (split; [ reflexivity | ]); (split; [ reflexivity | ]);
          (split; [ discriminate | ]); (split; [ tauto | ]);
          stopped s.
    - eexists _, _, false. split; [ reflexivity | ]. cbn [trace handle].
      rewrite app_nil_r.
      split; [ reflexivity | ]. split; [ discriminate | ].
      split; [ intros; eexists; reflexivity | ].
      split; [ split; [ discriminate | intros [H _]; discriminate ] | ].
      stopped s. }
  destruct r_b as [a | e |].
  - destruct (Hfinal s1 (Return a)) as (r' & s2 & closed & H1 & H2 & H3 & H4 & H5 & H6).
    exists r', s2, closed. rewrite Nat.add_0_r. cbn [app]. auto 10.
  - unfold print_with_color, emit, bind, modify, ret, sys_exit. cbn [is_red].
    destruct (w_gui w); cbn [fst snd].
    + match goal with
      | |- context [final ?s] =>
          destruct (Hfinal s (@SysExit (option Z)))
            as (r' & s2 & closed & H1 & H2 & H3 & H4 & H5 & H6)
      end.
      exists r', s2, closed. state_simpl. rewrite <- app_assoc in H2.
      rewrite length_app, Nat.add_1_r in H5. rewrite Nat.add_1_r. cbn [app] in *. auto 10.
    + match goal with
      | |- context [final ?s] =>
          destruct (Hfinal s (Return (Some 1%Z)))
            as (r' & s2 & closed & H1 & H2 & H3 & H4 & H5 & H6)
      end.
      exists r', s2, closed. state_simpl. rewrite <- app_assoc in H2.
      rewrite length_app, Nat.add_1_r in H5. rewrite Nat.add_1_r. cbn [app] in *. auto 10.
  - destruct (Hfinal s1 (@SysExit (option Z)))
      as (r' & s2 & closed & H1 & H2 & H3 & H4 & H5 & H6).
    exists r', s2, closed. rewrite Nat.add_0_r. cbn [app]. auto 10.
Qed.

(** [flash_device] keeps what its parts keep. *)
Lemma flash_device_keeps w (I : state -> Prop) src dev fs label :
  keeps I (fun _ => I) I (fun _ => True) (mkdtemp w) ->
  (forall tmp, keeps I (fun _ => I) I (fun _ => True)
                     (flash_device_try w src dev fs label tmp)) ->
  (forall error, keeps I (fun _ => I) I (fun _ => True)
                       (print_with_color w (MsgText (exn_str error)) Red ;;;
                        ret (Some 1%Z))) ->
  (forall tmp, keeps I (fun _ => I) I (fun _ => True)
                     (cleanup w (source_mountpoint w) (target_mountpoint w) tmp dev ;;;
                      print_with_color w MsgCompleted Green)) ->
  keeps I (fun _ => I) I (fun _ => True) (flash_device w src dev fs label).
Proof.
  intros H1 H2 H3 H4. unfold flash_device.
  eapply keeps_bind; [ exact H1 | intros tmp _ ].
  eapply keeps_try_finally; [ | apply H4 ].
  apply keeps_try_except; [ apply H2 | auto | exact H3 ].
Qed.

End Ending.

Import Ending.

(** ** The scratch directory *)

Module Scratch.

Local Open Scope list_scope.

Ltac paths_fin :=
  try solve
      [ exact I
      | intros; assumption
      | intros; state_simpl; first [ assumption | right; assumption ] ].

Section Body.
Variable w : world.
Variable p : string.

Local Abbreviation there := (fun s => In p (paths s)).
Local Abbreviation stays := (keeps there (fun _ => there) there).

(** Nothing in the [try] suite removes a path. *)
Lemma check_fat32_loop_stays ps : stays (fun _ => True) (check_fat32_loop w ps).
Proof.
  induction ps as [| q ps IH]; simpl.
  - keeps_auto fail paths_fin.
  - keeps_auto ltac:(apply IH) paths_fin.
Qed.

Lemma copy_loop_stays a b ps : stays (fun _ => True) (copy_loop w a b ps).
Proof.
  induction ps as [| q ps IH]; simpl.
  - keeps_auto fail paths_fin.
  - keeps_auto ltac:(apply IH) paths_fin.
Qed.

Lemma flash_device_try_stays src dev fs label tmp :
  stays (fun _ => True) (flash_device_try w src dev fs label tmp).
Proof.
  unfold flash_device_try.
  keeps_auto ltac:(first [ apply check_fat32_loop_stays | apply copy_loop_stays ]) paths_fin.
Qed.

End Body.

End Scratch.

(** ** The claims about the file system type and the order of the steps *)

(** A file of the source tree is larger than FAT32 allows. *)
Lemma too_big_spec w path :
  too_big w path = true <->
  exists size, w_getsize w path = inr size /\ (size > 2 ^ 32 - 1)%Z.
Proof.
  unfold too_big, FAT32_MAX_FILE_SIZE. split.
  - destruct (w_getsize w path) as [e | size]; [ discriminate | ].
    intros H. exists size. split; [ reflexivity | ].
    apply Z.gtb_lt in H. lia.
  - intros (size & -> & H). apply Z.gtb_lt. lia.
Qed.

Lemma copy_loop_no_size_check w a b ps :
  keeps (counted is_size_check 0) (fun _ => counted is_size_check 0)
        (counted is_size_check 0) (fun _ => True) (copy_loop w a b ps).
Proof.
  induction ps as [| p ps IH]; simpl.
  - Quiet.count_auto fail.
  - Quiet.count_auto ltac:(apply IH).
Qed.

(** The sizes are looked at for the request ["FAT"] only. *)
Lemma flash_device_no_size_check w src dev requested label :
  requested <> "FAT"%string ->
  keeps (counted is_size_check 0) (fun _ => counted is_size_check 0)
        (counted is_size_check 0) (fun _ => True)
        (flash_device w src dev requested label).
Proof.
  intros Hreq. apply String.eqb_neq in Hreq.
  apply flash_device_keeps.
  - Quiet.count_auto fail.
  - intros tmp. unfold flash_device_try. rewrite Hreq.
    Quiet.count_auto ltac:(apply copy_loop_no_size_check).
  - intros. Quiet.count_auto fail.
  - intros. Quiet.count_auto fail.
Qed.

(** C2, as amended.  The request that is escalated is the string ["FAT"]:
    for it the file system of the commands that partition and format is
    ["NTFS"] exactly when some file that [os.walk] lists under the source
    mount point is larger than [2^32 - 1] bytes; in every other case (no
    such file, or any other request, ["FAT32"] among them) it is the
    requested one, and for another request the sizes are not even looked
    at.  The type is settled before the first of these commands and not
    changed after: the commands of the run are an initial part of the one
    script built with it, and all of the script when [flash_device]
    returns [None]. *)
Theorem flash_device_resolves_filesystem_type w src dev requested label :
  let r := flash_device w src dev requested label (init w) in
  let oversized :=
      exists path size,
        In path (walk_paths w (source_mountpoint w)) /\
        w_getsize w path = inr size /\ (size > 2 ^ 32 - 1)%Z in
  exists (used : string) (had_none : bool),
    let steps :=
        [cmd_mount_image src; cmd_get_partition dev] ++
        (if had_none then [cmd_create_partition dev used DEFAULT_NEW_FS_LABEL] else []) ++
        [cmd_clean dev; cmd_convert dev "mbr"; cmd_create_partition dev used label] in
    ((requested = "FAT"%string /\ oversized /\ used = "NTFS"%string) \/
     (~ (requested = "FAT"%string /\ oversized) /\ used = requested)) /\
    is_prefix (calls (trace (snd r))) steps /\
    (fst r = Return None -> calls (trace (snd r)) = steps) /\
    (requested <> "FAT"%string -> count_events is_size_check (trace (snd r)) = 0).
Proof.
  cbv zeta.
  assert (Hbig : existsb (too_big w) (walk_paths w (source_mountpoint w)) = true <->
                 exists path size,
                   In path (walk_paths w (source_mountpoint w)) /\
                   w_getsize w path = inr size /\ (size > 2 ^ 32 - 1)%Z).
  { rewrite existsb_exists. split.
    - intros (path & Hin & Hb). apply too_big_spec in Hb. destruct Hb as (size & H1 & H2).
      exists path, size. auto.
    - intros (path & size & Hin & H1 & H2). exists path. split; [ exact Hin | ].
      apply too_big_spec. exists size. auto. }
  destruct (Pipeline.flash_device_script w src dev requested label) as (L & HL & Hp & Hfull).
  exists (resolved_type w requested).
  assert (Hused : (requested = "FAT"%string /\
                   (exists path size,
                       In path (walk_paths w (source_mountpoint w)) /\
                       w_getsize w path = inr size /\ (size > 2 ^ 32 - 1)%Z) /\
                   resolved_type w requested = "NTFS"%string) \/
                  (~ (requested = "FAT"%string /\
                      exists path size,
                        In path (walk_paths w (source_mountpoint w)) /\
                        w_getsize w path = inr size /\ (size > 2 ^ 32 - 1)%Z) /\
                   resolved_type w requested = requested)).
  { unfold resolved_type.
    destruct (String.eqb requested "FAT") eqn:Hreq; cbn [andb].
    - apply String.eqb_eq in Hreq.
      destruct (existsb (too_big w) (walk_paths w (source_mountpoint w))) eqn:Hex.
      + left. split; [ exact Hreq | ]. split; [ apply Hbig; reflexivity | reflexivity ].
      + right. split; [ | reflexivity ]. intros (_ & Hover).
        apply Hbig in Hover. discriminate Hover.
    - apply String.eqb_neq in Hreq. right. split; [ | reflexivity ].
      intros (Heq & _). contradiction. }
  assert (Hcount : requested <> "FAT"%string ->
                   count_events is_size_check
                     (trace (snd (flash_device w src dev requested label (init w)))) = 0).
  { intros Hreq.
    apply (keeps_state _ _ _ (flash_device_no_size_check w src dev requested label Hreq)).
    reflexivity. }
  destruct HL as [<- | [<- | []]].
  - exists true. auto.
  - exists false. auto.
Qed.

(** C2, the counterexample.  A source with a file of 5 GiB and the request
    ["FAT32"]: the sizes are not looked at, and the device is formatted
    as FAT32.  With the request ["FAT"] the same source gives NTFS. *)
Lemma fat32_request_is_not_escalated :
  let r := flash_device big_world "install.iso" "1" "FAT32" "USB" (init big_world) in
  let r' := flash_device big_world "install.iso" "1" "FAT" "USB" (init big_world) in
  (exists path size,
      In path (walk_paths big_world (source_mountpoint big_world)) /\
      w_getsize big_world path = inr size /\ (size > 2 ^ 32 - 1)%Z) /\
  (fst r = Return None /\
   count_events is_size_check (trace (snd r)) = 0 /\
   calls (trace (snd r)) =
   [cmd_mount_image "install.iso"; cmd_get_partition "1"; cmd_clean "1";
    cmd_convert "1" "mbr"; cmd_create_partition "1" "FAT32" "USB"]) /\
  (fst r' = Return None /\
   calls (trace (snd r')) =
   [cmd_mount_image "install.iso"; cmd_get_partition "1"; cmd_clean "1";
    cmd_convert "1" "mbr"; cmd_create_partition "1" "NTFS" "USB"]).
Proof.
  cbv zeta. split; [ | split; repeat split ].
  exists (path_join (path_join (source_mountpoint big_world) "sources") "install.wim"),
    5368709120%Z.
  split; [ vm_compute; auto 10 | ]. split; [ reflexivity | reflexivity ].
Qed.

(** C5.  The commands of [flash_device] come in one order only: after the
    mount of the source, the query for the partitions of the device (and
    the default partition, when there was none), the wipe, the new
    partition table, the partition that is formatted; a run that stops
    early has run an initial part of this sequence, and a run that returns
    [None] has run all of it. *)
Theorem flash_device_steps_in_order w src dev fs label :
  let r := flash_device w src dev fs label (init w) in
  exists (fs' : string) (had_none : bool),
    let steps :=
        [cmd_mount_image src; cmd_get_partition dev] ++
        (if had_none then [cmd_create_partition dev fs' DEFAULT_NEW_FS_LABEL] else []) ++
        [cmd_clean dev; cmd_convert dev "mbr"; cmd_create_partition dev fs' label] in
    is_prefix (calls (trace (snd r))) steps /\
    (fst r = Return None -> calls (trace (snd r)) = steps).
Proof.
  cbv zeta.
  destruct (Pipeline.flash_device_script w src dev fs label) as (L & HL & Hp & Hfull).
  exists (resolved_type w fs).
  destruct HL as [<- | [<- | []]].
  - exists true. split; assumption.
  - exists false. split; assumption.
Qed.

(** ** The kill flag *)

Module Kill.

Local Open Scope list_scope.

Lemma count_events_hit p pre x post :
  p x = true -> count_events p (pre ++ x :: post) <> 0.
Proof.
  intros H. rewrite count_events_app. unfold count_events at 2. simpl. rewrite H. simpl. lia.
Qed.

Lemma kill_check_placed_snoc tr e :
  kill_check_placed tr -> is_kill_check e = false -> kill_check_placed (tr ++ [e]).
Proof.
  intros H He pre b post Hd.
  change (tr ++ [e]) with (tr ++ e :: []) in Hd. symmetry in Hd.
  apply app_cons_cases in Hd.
  destruct Hd as [(mid & Htr & _) | [(_ & <- & _) | (mid & _ & Hm)]].
  - apply (H pre b mid). exact Htr.
  - discriminate He.
  - destruct mid; discriminate Hm.
Qed.

Lemma kill_check_placed_check tr f b :
  kill_check_placed tr ->
  f = Fcopy_filesystem_files \/ f = Finstall_uefi_ntfs_support_partition ->
  kill_check_placed ((tr ++ [ECall f]) ++ [EKillCheck b]).
Proof.
  intros H Hf pre b' post Hd.
  change ((tr ++ [ECall f]) ++ [EKillCheck b]) with ((tr ++ [ECall f]) ++ EKillCheck b :: [])
    in Hd.
  symmetry in Hd. apply app_cons_cases in Hd.
  destruct Hd as [(mid & Hp & _) | [(-> & _ & _) | (mid & _ & Hm)]].
  - apply (kill_check_placed_snoc tr (ECall f) H eq_refl pre b' mid). exact Hp.
  - exists tr. destruct Hf as [-> | ->]; auto.
  - destruct mid; discriminate Hm.
Qed.

Ltac kill_fin :=
  try solve
      [ exact I
      | intros; assumption
      | intros; left; assumption
      | intros; unfold counted, count_events in *; state_simpl;
        rewrite ?filter_app, ?length_app; simpl; lia
      | intros; state_simpl; apply kill_check_placed_snoc; [ assumption | reflexivity ] ].

Section Body.
Variable w : world.

Local Abbreviation unseen := (counted is_kill_seen 0).
Local Abbreviation seen_or_not :=
  (fun s => counted is_kill_seen 0 s \/ kill_seen_last (trace s)).

(** The flag was never found set, unless the suite was left by the
    [SystemExit] of [check_kill_signal], right after it was. *)
Lemma check_kill_signal_seen :
  keeps unseen (fun _ => unseen) seen_or_not (fun _ => True) (check_kill_signal w).
Proof.
  unfold check_kill_signal. destruct (w_gui w); [ | apply keeps_ret; exact I ].
  intros s Hs. unfold bind, clock, emit, gets, modify, ret, sys_exit. cbn [fst snd].
  destruct (w_kill w (length (trace s))).
  - right. exists (trace s). split; [ reflexivity | exact Hs ].
  - split; [ | exact I ]. unfold counted, count_events in *. state_simpl.
    rewrite filter_app, length_app. simpl. lia.
Qed.

Lemma check_fat32_loop_seen ps :
  keeps unseen (fun _ => unseen) seen_or_not (fun _ => True) (check_fat32_loop w ps).
Proof.
  induction ps as [| p ps IH]; simpl.
  - keeps_auto fail kill_fin.
  - keeps_auto ltac:(apply IH) kill_fin.
Qed.

Lemma copy_loop_seen a b ps :
  keeps unseen (fun _ => unseen) seen_or_not (fun _ => True) (copy_loop w a b ps).
Proof.
  induction ps as [| p ps IH]; simpl.
  - keeps_auto fail kill_fin.
  - keeps_auto ltac:(apply IH) kill_fin.
Qed.

Lemma flash_device_try_seen src dev fs label tmp :
  keeps unseen (fun _ => unseen) seen_or_not (fun _ => True)
        (flash_device_try w src dev fs label tmp).
Proof.
  unfold flash_device_try.
  keeps_auto ltac:(first [ apply check_kill_signal_seen
                         | apply check_fat32_loop_seen
                         | apply copy_loop_seen ]) kill_fin.
Qed.

(** Where the flag is read. *)
Local Abbreviation placed := (fun s => kill_check_placed (trace s)).

Lemma call_then_check_placed {A} (R : A -> Prop) f (k : M state A) :
  f = Fcopy_filesystem_files \/ f = Finstall_uefi_ntfs_support_partition ->
  keeps placed (fun _ => placed) placed R k ->
  keeps placed (fun _ => placed) placed R
        (emit (ECall f) ;;; check_kill_signal w ;;; k).
Proof.
  intros Hf Hk s Hs. rewrite bind_emit. unfold check_kill_signal.
  destruct (w_gui w).
  - unfold bind at 1. unfold bind at 1. unfold clock, gets, emit, modify. cbn [fst snd].
    assert (Hp : forall b, placed (add_event (EKillCheck b) (add_event (ECall f) s))).
    { intros b. state_simpl. apply kill_check_placed_check; assumption. }
    destruct (w_kill w (length (trace (add_event (ECall f) s)))) eqn:E;
      unfold bind, sys_exit, ret.
    + apply Hp.
    + apply Hk. apply Hp.
  - unfold bind, ret. apply Hk. state_simpl. apply kill_check_placed_snoc; auto.
Qed.

Ltac placed_check :=
  lazymatch goal with
  | |- keeps _ _ _ _ (bind (emit (ECall _)) (fun _ => bind (check_kill_signal _) _)) =>
      apply call_then_check_placed; [ auto | ]
  end.

Lemma check_fat32_loop_placed ps :
  keeps placed (fun _ => placed) placed (fun _ => True) (check_fat32_loop w ps).
Proof.
  induction ps as [| p ps IH]; simpl.
  - keeps_auto fail kill_fin.
  - keeps_auto ltac:(apply IH) kill_fin.
Qed.

Lemma copy_loop_placed a b ps :
  keeps placed (fun _ => placed) placed (fun _ => True) (copy_loop w a b ps).
Proof.
  induction ps as [| p ps IH]; simpl.
  - keeps_auto fail kill_fin.
  - keeps_auto ltac:(apply IH) kill_fin.
Qed.

Lemma flash_device_placed src dev fs label :
  keeps placed (fun _ => placed) placed (fun _ => True) (flash_device w src dev fs label).
Proof.
  apply flash_device_keeps.
  - keeps_auto fail kill_fin.
  - intros tmp. unfold flash_device_try.
    keeps_auto ltac:(first [ placed_check
                           | apply check_fat32_loop_placed
                           | apply copy_loop_placed ]) kill_fin.
  - intros. keeps_auto fail kill_fin.
  - intros. keeps_auto fail kill_fin.
Qed.

(** Without a GUI the flag is never read. *)
Section Console.
Hypothesis Hgui : w_gui w = false.

Local Abbreviation unread := (counted is_kill_check 0).

Lemma check_kill_signal_console :
  keeps unread (fun _ => unread) unread (fun _ => True) (check_kill_signal w).
Proof. unfold check_kill_signal. rewrite Hgui. apply keeps_ret. exact I. Qed.

Lemma check_fat32_loop_unread ps :
  keeps unread (fun _ => unread) unread (fun _ => True) (check_fat32_loop w ps).
Proof.
  induction ps as [| p ps IH]; simpl.
  - keeps_auto fail kill_fin.
  - keeps_auto ltac:(apply IH) kill_fin.
Qed.

Lemma copy_loop_unread a b ps :
  keeps unread (fun _ => unread) unread (fun _ => True) (copy_loop w a b ps).
Proof.
  induction ps as [| p ps IH]; simpl.
  - keeps_auto fail kill_fin.
  - keeps_auto ltac:(apply IH) kill_fin.
Qed.

Lemma flash_device_unread src dev fs label :
  keeps unread (fun _ => unread) unread (fun _ => True) (flash_device w src dev fs label).
Proof.
  apply flash_device_keeps.
  - keeps_auto fail kill_fin.
  - intros tmp. unfold flash_device_try.
    keeps_auto ltac:(first [ apply check_kill_signal_console
                           | apply check_fat32_loop_unread
                           | apply copy_loop_unread ]) kill_fin.
  - intros. keeps_auto fail kill_fin.
  - intros. keeps_auto fail kill_fin.
Qed.

End Console.

End Body.

End Kill.

(** ** The claim about cancellation *)



(** When the scratch directory cannot be removed, the run that saw the
    kill flag ends with the exception of [cleanup], without the closing
    message. *)
Lemma killed_run_with_failing_cleanup :
  let r := flash_device killed_locked_world "install.iso" "1" "FAT" "USB"
                        (init killed_locked_world) in
  fst r = Raise in_use /\
  skipn 22 (trace (snd r)) = [EKillCheck true; ECall Fcleanup; ERmtree scratch].
Proof. cbv zeta. split; reflexivity. Qed.


(** ** The boot support image *)

Module Fetch.

Local Open Scope list_scope.

Lemma count_events_in p x tr : In x tr -> p x = true -> count_events p tr <> 0.
Proof.
  intros Hin Hp. apply in_split in Hin. destruct Hin as (l1 & l2 & ->).
  apply Kill.count_events_hit. exact Hp.
Qed.

Ltac fetch_fin :=
  try solve
      [ exact I
      | intros; assumption
      | let H1 := fresh in
        let H2 := fresh in
        let H3 := fresh in
        intros ? (H1 & H2 & H3);
        unfold not_fetched, counted, count_events in *; state_simpl;
        split; [ first [ assumption | right; assumption ] | ];
        split; rewrite ?filter_app, ?length_app; simpl; lia ].

Section Body.
Variable w : world.
Variable tmp : string.

Hypothesis Hdown :
  forall t, exists e,
      w_urlretrieve w t UEFI_NTFS_URL "uefi-ntfs.img" = Some e /\ is_url_error e = true.

Local Abbreviation before := (not_fetched tmp).
Local Abbreviation calm := (keeps before (fun _ => before) before).

Lemma check_fat32_loop_calm ps : calm (fun _ => True) (check_fat32_loop w ps).
Proof.
  induction ps as [| p ps IH]; simpl.
  - keeps_auto fail fetch_fin.
  - keeps_auto ltac:(apply IH) fetch_fin.
Qed.

Lemma copy_loop_calm a b ps : calm (fun _ => True) (copy_loop w a b ps).
Proof.
  induction ps as [| p ps IH]; simpl.
  - keeps_auto fail fetch_fin.
  - keeps_auto ltac:(apply IH) fetch_fin.
Qed.

(** The download fails, is reported in yellow, and the step returns 1. *)
Lemma install_uefi_ntfs_support_partition_offline part dir s :
  before s ->
  let r := install_uefi_ntfs_support_partition w part dir s in
  In tmp (paths (snd r)) /\
  ((fst r = SysExit /\ counted is_fetch 0 (snd r) /\ counted is_download_warning 0 (snd r)) \/
   (fst r = Return (Some 1%Z) /\ counted is_download_warning 1 (snd r))).
Proof.
  intros (H1 & H2 & H3). cbv zeta.
  unfold install_uefi_ntfs_support_partition, check_kill_signal, urlretrieve,
    print_with_color, of_fault, try_except, clock, emit.
  unfold bind, gets, modify, ret, raise, sys_exit.
  unfold counted, count_events in *.
  destruct (w_gui w); cbn [fst snd is_red];
    repeat match goal with
           | |- context [w_kill w ?t] => destruct (w_kill w t); cbn [fst snd]
           | |- context [w_urlretrieve w ?t UEFI_NTFS_URL "uefi-ntfs.img"] =>
               let e := fresh "e" in
               let He := fresh "He" in
               let Hu := fresh "Hu" in
               destruct (Hdown t) as (e & He & Hu); rewrite He; cbn [fst snd]; rewrite Hu;
               cbn [fst snd]
           end;
    state_simpl; (split; [ exact H1 | ]);
    rewrite ?filter_app, ?length_app; simpl;
    solve [ left; repeat split; lia | right; split; [ reflexivity | lia ] ].
Qed.

Lemma flash_device_try_offline src dev fs label :
  hoare before (flash_device_try w src dev fs label tmp) (fetched_or_not tmp).
Proof.
  assert (Hq : forall (r : outcome (option Z)) s, before s -> fetched_or_not tmp r s).
  { intros r s (H1 & H2 & H3). split; auto. }
  unfold flash_device_try.
  eapply (hoare_bind before (fun _ => before) before); [ keeps_auto fail fetch_fin | intros admin _ | auto | auto ].
  destruct (negb admin).
  { eapply (hoare_keeps before (fun _ => before) before); [ keeps_auto fail fetch_fin | auto | auto | auto ]. }
  eapply (hoare_bind before (fun _ => before) before); [ keeps_auto fail fetch_fin | intros mounted _ | auto | auto ].
  destruct (negb (mounted =? 0)%Z).
  { eapply (hoare_keeps before (fun _ => before) before); [ keeps_auto fail fetch_fin | auto | auto | auto ]. }
  eapply (hoare_bind before (fun _ => before) before);
    [ keeps_auto ltac:(apply check_fat32_loop_calm) fetch_fin | intros limited _ | auto | auto ].
  cbv zeta.
  eapply (hoare_bind before (fun _ => before) before); [ keeps_auto fail fetch_fin | intros _ _ | auto | auto ].
  eapply (hoare_bind before (fun _ => before) before); [ keeps_auto fail fetch_fin | intros _ _ | auto | auto ].
  eapply (hoare_bind before (fun _ => before) before); [ keeps_auto fail fetch_fin | intros _ _ | auto | auto ].
  eapply (hoare_bind before (fun _ => before) before); [ keeps_auto fail fetch_fin | intros _ _ | auto | auto ].
  eapply (hoare_bind before (fun _ => before) before); [ keeps_auto fail fetch_fin | intros mounted' _ | auto | auto ].
  destruct (negb (mounted' =? 0)%Z).
  { eapply (hoare_keeps before (fun _ => before) before); [ keeps_auto fail fetch_fin | auto | auto | auto ]. }
  eapply (hoare_bind before (fun _ => before) before);
    [ keeps_auto ltac:(apply copy_loop_calm) fetch_fin | intros _ _ | auto | auto ].
  destruct (String.eqb (resolve_filesystem_type fs limited) "NTFS").
  - eapply hoare_ext; [ intros s; rewrite !bind_assoc; reflexivity | ].
    eapply (hoare_bind before (fun _ => before) before); [ keeps_auto fail fetch_fin | intros _ _ | auto | auto ].
    intros s Hs.
    destruct (install_uefi_ntfs_support_partition_offline (dev ++ "2")%string tmp s Hs)
      as (Hin & Hcase).
    unfold bind.
    destruct (install_uefi_ntfs_support_partition w (dev ++ "2")%string tmp s)
      as [[a | e |] s1]; cbn [fst snd] in *.
    + destruct Hcase as [(Hx & _) | (_ & Hw)]; [ discriminate Hx | ].
      split; [ exact Hin | right; split; [ reflexivity | exact Hw ] ].
    + destruct Hcase as [(Hx & _) | (Hx & _)]; discriminate Hx.
    + destruct Hcase as [(_ & Hf & Hw) | (Hx & _)]; [ | discriminate Hx ].
      split; [ exact Hin | left; split; assumption ].
  - eapply (hoare_keeps before (fun _ => before) before); [ keeps_auto fail fetch_fin | auto | auto | auto ].
Qed.

End Body.

End Fetch.

(** C8, as amended.  When the download of the UEFI:NTFS image is reached
    (every step up to the copy has returned, and the file system is NTFS)
    and fails with one of the errors of [urllib] that the step catches
    ([URLError] and its subclasses [HTTPError] and
    [ContentTooShortError]), and [cleanup] can remove the scratch
    directory, [flash_device] prints the warning about the download
    exactly once and still returns [None], after the closing message: the
    failed download does not abort the run. *)
Theorem flash_device_download_failure_is_a_warning w src dev fs label :
  (forall t, exists e,
        w_urlretrieve w t UEFI_NTFS_URL "uefi-ntfs.img" = Some e /\ is_url_error e = true) ->
  (forall t tmp, w_mkdtemp w = inr tmp -> w_rmtree w t tmp = None) ->
  let r := flash_device w src dev fs label (init w) in
  In (EUrlretrieve UEFI_NTFS_URL "uefi-ntfs.img") (trace (snd r)) ->
  fst r = Return None /\
  count_events is_download_warning (trace (snd r)) = 1 /\
  exists pre, trace (snd r) = (pre ++ [EPrint MsgCompleted Green])%list.
Proof.
  intros Hdown Hrm. cbv zeta. unfold flash_device.
  destruct (w_mkdtemp w) as [e | tmp] eqn:Htmp.
  { unfold bind. rewrite (mkdtemp_fail w e _ Htmp). intros []. }
  rewrite (bind_run _ _ _ _ _ (mkdtemp_run w tmp (init w) Htmp)).
  set (s0 := set_paths _ _).
  assert (H0 : not_fetched tmp s0).
  { split; [ left; reflexivity | split; reflexivity ]. }
  pose proof (Fetch.flash_device_try_offline w tmp Hdown src dev fs label s0 H0) as Hbody.
  destruct (flash_device_try w src dev fs label tmp s0) as [r_b s1] eqn:Hb.
  cbn [fst snd] in Hbody. destruct Hbody as (Hin & Hcase).
  destruct (flash_device_ending w src dev fs label tmp s0 r_b s1 Hb)
    as (r & s2 & closed & Hrun & Htr & Hc1 & _ & Hclosed & _).
  assert (closed = true) as ->.
  { apply Hclosed. split; [ | apply Hrm; reflexivity ].
    apply existsb_exists. exists tmp. split; [ exact Hin | apply String.eqb_refl ]. }
  rewrite Hrun. cbn [fst snd]. rewrite Htr. intros Hfetch.
  destruct Hcase as [(Hf & _) | (-> & Hw)].
  - exfalso. apply in_app_or in Hfetch. destruct Hfetch as [Hfetch | Hfetch].
    + apply (Fetch.count_events_in is_fetch _ _ Hfetch eq_refl). exact Hf.
    + destruct r_b; simpl in Hfetch; intuition discriminate.
  - split; [ apply Hc1; reflexivity | ]. split.
    + rewrite count_events_app. unfold counted in Hw. rewrite Hw. reflexivity.
    + exists (trace s1 ++ [ECall Fcleanup; ERmtree tmp])%list.
      rewrite <- app_assoc. reflexivity.
Qed.

Lemma flash_device_download_failure_is_a_warning_witness :
  let r := flash_device offline_world "install.iso" "1" "NTFS" "USB" (init offline_world) in
  In (EUrlretrieve UEFI_NTFS_URL "uefi-ntfs.img") (trace (snd r)) /\
  (fst r = Return None /\
   count_events is_download_warning (trace (snd r)) = 1 /\
   exists pre, trace (snd r) = (pre ++ [EPrint MsgCompleted Green])%list).
Proof.
  cbv zeta.
  assert (Hin : In (EUrlretrieve UEFI_NTFS_URL "uefi-ntfs.img")
                   (trace (snd (flash_device offline_world "install.iso" "1" "NTFS" "USB"
                                             (init offline_world))))).
  { cbv. repeat (first [ left; reflexivity | right ]). }
  split; [ exact Hin | ].
  apply (flash_device_download_failure_is_a_warning offline_world "install.iso" "1" "NTFS" "USB").
  - intros t. eexists. split; reflexivity.
  - intros t tmp _. reflexivity.
  - exact Hin.
Defined.

(** C8, the counterexample.  A network failure that is none of the errors
    of [urllib]: the connection is reset while the image is read.  All
    three files were copied, the download was tried, and [flash_device]
    returns 1 after the red text of the error, without any warning.  And
    when the network is down but the scratch directory cannot be removed,
    the warning is printed and [flash_device] is left by the exception of
    [cleanup]. *)
Lemma download_reset_is_fatal :
  let r := flash_device reset_world "install.iso" "1" "NTFS" "USB" (init reset_world) in
  let r' := flash_device offline_locked_world "install.iso" "1" "NTFS" "USB"
                         (init offline_locked_world) in
  (is_url_error connection_reset = false /\
   In (EUrlretrieve UEFI_NTFS_URL "uefi-ntfs.img") (trace (snd r)) /\
   length (copies (trace (snd r))) = 3 /\
   fst r = Return (Some 1%Z) /\
   count_events is_download_warning (trace (snd r)) = 0 /\
   red_messages (trace (snd r)) = [MsgText (exn_str connection_reset)]) /\
  (In (EUrlretrieve UEFI_NTFS_URL "uefi-ntfs.img") (trace (snd r')) /\
   count_events is_download_warning (trace (snd r')) = 1 /\
   fst r' = Raise in_use).
Proof.
  cbv zeta. split; [ split; [ reflexivity | split; [ | repeat split ] ]
                   | split; [ | split; reflexivity ] ];
    vm_compute; repeat (first [ left; reflexivity | right ]).
Qed.

(** ** Commands that cannot be run *)

Module Launch.

Local Open Scope list_scope.

Section Body.
Variable w : world.

Lemma answered_snoc_other tr e :
  answered w tr -> is_subprocess e = false -> answered w (tr ++ [e]).
Proof.
  intros H He pre argv post Hd.
  change (tr ++ [e]) with (tr ++ e :: []) in Hd. symmetry in Hd.
  apply app_cons_cases in Hd.
  destruct Hd as [(mid & Htr & _) | [(_ & <- & _) | (mid & _ & Hm)]].
  - apply (H pre argv mid). exact Htr.
  - discriminate He.
  - destruct mid; discriminate Hm.
Qed.

Lemma answered_snoc_run tr argv :
  answered w tr ->
  match w_run w (length tr) argv with
  | RunDone _ _ => True
  | RunRaise e => is_called_process_error e = true
  end ->
  answered w (tr ++ [ESubprocess argv]).
Proof.
  intros H Hrun pre argv' post Hd.
  change (tr ++ [ESubprocess argv]) with (tr ++ ESubprocess argv :: []) in Hd.
  symmetry in Hd. apply app_cons_cases in Hd.
  destruct Hd as [(mid & Htr & _) | [(-> & Heq & _) | (mid & _ & Hm)]].
  - apply (H pre argv' mid). exact Htr.
  - injection Heq as ->. exact Hrun.
  - destruct mid; discriminate Hm.
Qed.

Local Abbreviation sound := (fun s => answered w (trace s)).
Local Abbreviation broken :=
  (fun e s => answered w (trace s) \/ launch_failed w e (trace s)).

Lemma caught_is_sound e s :
  is_called_process_error e = true -> broken e s -> sound s.
Proof.
  intros Hc [H | (pre & argv & -> & Hpre & Hrun)]; [ exact H | ].
  apply answered_snoc_run; [ exact Hpre | ]. rewrite Hrun. exact Hc.
Qed.

Lemma subprocess_run_sound argv check :
  keeps sound broken sound (fun _ => True) (subprocess_run w argv check).
Proof.
  intros s Hs. unfold subprocess_run, clock, emit, bind, gets, modify, ret, raise.
  cbn [fst snd].
  destruct (w_run w (length (trace s)) argv) as [e | rc out] eqn:Hrun.
  - right. exists (trace s), argv. auto.
  - assert (Ha : answered w (trace (add_event (ESubprocess argv) s))).
    { state_simpl. apply answered_snoc_run; [ exact Hs | ]. rewrite Hrun. exact I. }
    destruct (check && negb (rc =? 0)%Z); cbn [fst snd]; auto.
Qed.

Ltac launch_fin :=
  try solve
      [ exact I
      | intros; assumption
      | intros; left; assumption
      | intros; eapply caught_is_sound; eassumption
      | intros; state_simpl; apply answered_snoc_other; [ assumption | reflexivity ] ].

(** The download raises nothing that a command could have raised. *)
Ltac fetch_step :=
  lazymatch goal with
  | |- keeps _ _ _ _ (try_except _ is_url_error _) =>
      apply (keeps_try_except_strong _ _ _ (fun _ => sound));
      [ keeps_auto fail launch_fin
      | intros; left; assumption
      | intros; assumption
      | intros ]
  end.

Lemma check_fat32_loop_sound ps :
  keeps sound broken sound (fun _ => True) (check_fat32_loop w ps).
Proof.
  induction ps as [| p ps IH]; simpl.
  - keeps_auto fail launch_fin.
  - keeps_auto ltac:(apply IH) launch_fin.
Qed.

Lemma copy_loop_sound a b ps :
  keeps sound broken sound (fun _ => True) (copy_loop w a b ps).
Proof.
  induction ps as [| p ps IH]; simpl.
  - keeps_auto fail launch_fin.
  - keeps_auto ltac:(apply IH) launch_fin.
Qed.

Lemma flash_device_try_sound src dev fs label tmp :
  keeps sound broken sound (fun _ => True) (flash_device_try w src dev fs label tmp).
Proof.
  unfold flash_device_try.
  keeps_auto ltac:(first [ apply subprocess_run_sound
                         | fetch_step
                         | apply check_fat32_loop_sound
                         | apply copy_loop_sound ]) launch_fin.
Qed.

End Body.

End Launch.

(** C3, as amended.  When a command of [flash_device] cannot be run
    ([subprocess.run] raises; among these are the wipe, the partition
    table and the partition), the failure is fatal: what follows is the
    text of the exception printed in red, then [cleanup], then the closing
    message when [cleanup] returned, and nothing else.  [flash_device]
    then returns 1, or is left by [SystemExit] under the GUI; when the
    scratch directory cannot be removed it is left by the exception of
    [cleanup] instead. *)
Theorem flash_device_launch_failure_is_fatal w src dev fs label :
  let r := flash_device w src dev fs label (init w) in
  forall pre argv post e,
    trace (snd r) = (pre ++ ESubprocess argv :: post)%list ->
    w_run w (length pre) argv = RunRaise e ->
    is_called_process_error e = false ->
    exists tmp (closed : bool),
      w_mkdtemp w = inr tmp /\
      post = EPrint (MsgText (exn_str e)) Red :: ECall Fcleanup :: ERmtree tmp ::
             (if closed then [EPrint MsgCompleted Green] else []) /\
      (closed = true -> fst r = if w_gui w then SysExit else Return (Some 1%Z)) /\
      (closed = false -> exists e', fst r = Raise e') /\
      ((forall t, w_rmtree w t tmp = None) -> closed = true).
Proof.
  cbv zeta. intros pre argv post e. unfold flash_device.
  destruct (w_mkdtemp w) as [e0 | tmp] eqn:Htmp.
  { unfold bind. rewrite (mkdtemp_fail w e0 _ Htmp). cbn [fst snd init trace].
    intros H. destruct pre; discriminate H. }
  rewrite (bind_run _ _ _ _ _ (mkdtemp_run w tmp (init w) Htmp)).
  set (s0 := set_paths _ _).
  assert (H0 : answered w (trace s0)).
  { intros p a q H. destruct p as [| ? [| ? ?]]; discriminate H. }
  pose proof (Launch.flash_device_try_sound w src dev fs label tmp s0 H0) as Hbody.
  pose proof (Scratch.flash_device_try_stays w tmp src dev fs label tmp s0
                                              (or_introl eq_refl)) as Hstay.
  destruct (flash_device_try w src dev fs label tmp s0) as [r_b s1] eqn:Hb.
  assert (Hin : In tmp (paths s1)) by (destruct r_b; cbv beta iota in Hstay; tauto).
  destruct (flash_device_ending w src dev fs label tmp s0 r_b s1 Hb)
    as (r & s2 & closed & Hrun & Htr & Hc1 & Hc2 & Hclosed & _).
  rewrite Hrun. cbn [fst snd]. intros Hd Hraise Hcpe.
  (* a trace whose commands were all answered holds no such command *)
  assert (Hsound : forall tail,
             answered w (trace s1) ->
             trace s2 = (trace s1 ++ tail)%list ->
             count_events is_subprocess tail = 0 -> False).
  { intros tail Ha Ht Hn. rewrite Ht in Hd. symmetry in Hd.
    apply List.app_eq_app in Hd.
    destruct Hd as (mid & [[H1 H2] | [H1 H2]]).
    - apply (Fetch.count_events_in is_subprocess (ESubprocess argv) tail); auto.
      rewrite H2. apply in_or_app. right. left. reflexivity.
    - destruct mid as [| x mid].
      + simpl in H2. subst tail.
        unfold count_events in Hn. simpl in Hn. discriminate Hn.
      + injection H2 as <- H2. specialize (Ha pre argv mid H1).
        rewrite Hraise, Hcpe in Ha. discriminate Ha. }
  destruct r_b as [a | e1 |]; cbv beta iota in Hbody.
  - exfalso. apply (Hsound _ (proj1 Hbody) Htr). destruct closed; reflexivity.
  - destruct Hbody as [Ha | (pre1 & argv1 & Hpre1 & Ha1 & Hrun1)].
    + exfalso. apply (Hsound _ Ha Htr). destruct closed; reflexivity.
    + rewrite Hpre1, <- app_assoc in Htr. cbn [app] in Htr.
      rewrite Htr in Hd. apply app_cons_cases in Hd.
      destruct Hd as [(mid & _ & Hm) | [(Hp & Hx & Hpost) | (mid & Hp & _)]].
      * exfalso.
        destruct closed;
          repeat (destruct mid as [| ? mid]; simpl in Hm;
                  [ discriminate Hm | injection Hm as _ Hm ]);
          destruct mid; discriminate Hm.
      * subst pre1. injection Hx as <-. rewrite Hraise in Hrun1. injection Hrun1 as <-.
        exists tmp, closed. split; [ reflexivity | ].
        split; [ symmetry; exact Hpost | ]. split; [ exact Hc1 | ]. split; [ exact Hc2 | ].
        intros Hrm. apply Hclosed. split; [ | apply Hrm ].
        apply existsb_exists. exists tmp. split; [ exact Hin | apply String.eqb_refl ].
      * exfalso. specialize (Ha1 pre argv mid Hp).
        rewrite Hraise, Hcpe in Ha1. discriminate Ha1.
  - exfalso. apply (Hsound _ Hbody Htr). destruct closed; reflexivity.
Qed.

Lemma flash_device_launch_failure_is_fatal_witness :
  let r := flash_device wipe_fails_world "install.iso" "1" "FAT" "USB" (init wipe_fails_world) in
  (trace (snd r) =
   (firstn 12 (trace (snd r)) ++ ESubprocess (cmd_clean "1") :: skipn 13 (trace (snd r)))%list /\
   w_run wipe_fails_world (length (firstn 12 (trace (snd r)))) (cmd_clean "1") =
   RunRaise launch_error /\
   is_called_process_error launch_error = false) /\
  exists tmp (closed : bool),
    w_mkdtemp wipe_fails_world = inr tmp /\
    skipn 13 (trace (snd r)) =
    EPrint (MsgText (exn_str launch_error)) Red :: ECall Fcleanup :: ERmtree tmp ::
    (if closed then [EPrint MsgCompleted Green] else []) /\
    (closed = true ->
     fst r = if w_gui wipe_fails_world then SysExit else Return (Some 1%Z)) /\
    (closed = false -> exists e', fst r = Raise e') /\
    ((forall t, w_rmtree wipe_fails_world t tmp = None) -> closed = true).
Proof.
  cbv zeta.
  set (r := flash_device wipe_fails_world "install.iso" "1" "FAT" "USB" (init wipe_fails_world)).
  split; [ repeat split | ].
  apply (flash_device_launch_failure_is_fatal
           wipe_fails_world "install.iso" "1" "FAT" "USB"
           (firstn 12 (trace (snd r))) (cmd_clean "1") (skipn 13 (trace (snd r))) launch_error);
    reflexivity.
Defined.

(** C3, the counterexample.  The report does not tell which step failed:
    whether the wipe or the partition table cannot be run, the caller gets
    the same value and the same red text.  And an exit status is no
    failure for [flash_device]: with every [diskpart] run ending in the
    status 1, it copies the files and returns [None], with nothing printed
    in red. *)
Lemma device_failure_not_identified_and_status_ignored :
  let r1 := flash_device wipe_fails_world "install.iso" "1" "FAT" "USB" (init wipe_fails_world) in
  let r2 := flash_device table_fails_world "install.iso" "1" "FAT" "USB" (init table_fails_world) in
  let r3 := flash_device status_world "install.iso" "1" "FAT" "USB" (init status_world) in
  (last (calls (trace (snd r1))) [] = cmd_clean "1" /\
   last (calls (trace (snd r2))) [] = cmd_convert "1" "mbr" /\
   fst r1 = fst r2 /\
   red_messages (trace (snd r1)) = red_messages (trace (snd r2)) /\
   gui_error (snd r1) = gui_error (snd r2)) /\
  ((forall t script, w_run status_world t ["diskpart"; "/s"; script] = RunDone 1 "") /\
   fst r3 = Return None /\
   red_messages (trace (snd r3)) = [] /\
   length (copies (trace (snd r3))) = 3).
Proof. cbv zeta. repeat split. Qed.

(** ** Copying the files *)

Module Copy.

Local Open Scope list_scope.

Lemma strip_prefix_append p s : strip_prefix p (p ++ s)%string = Some s.
Proof.
  induction p as [| a p IH]; simpl; [ reflexivity | ].
  rewrite Ascii.eqb_refl. exact IH.
Qed.

Lemma length_append (a b : string) :
  String.length (a ++ b)%string = String.length a + String.length b.
Proof. induction a as [| c a IH]; simpl; [ reflexivity | rewrite IH; reflexivity ]. Qed.

(** Where the pattern does not occur, nothing is removed. *)
Lemma remove_all_fuel_absent p fuel s :
  p <> ""%string -> occurs p s = false -> remove_all_fuel fuel p s = s.
Proof.
  intros Hp. revert s. induction fuel as [| fuel IH]; intros s Ho; [ reflexivity | ].
  simpl. destruct s as [| c s]; simpl in Ho.
  - destruct p; [ contradiction Hp; reflexivity | reflexivity ].
  - destruct (strip_prefix p (String c s)); [ discriminate Ho | ].
    rewrite (IH s Ho). reflexivity.
Qed.

(** [path.replace(source, "")] is the relative path, when the name of the
    mount point does not come back in it. *)
Lemma remove_all_prefix p rel :
  p <> ""%string -> occurs p rel = false -> remove_all p (p ++ rel)%string = rel.
Proof.
  intros Hp Ho. unfold remove_all.
  destruct p as [| a p]; [ contradiction Hp; reflexivity | ].
  rewrite length_append. cbn [String.length Nat.add remove_all_fuel].
  rewrite strip_prefix_append.
  apply remove_all_fuel_absent; assumption.
Qed.

Section Loop.
Variable w : world.
Variables src tgt : string.

Local Abbreviation dest := (fun path : string => (tgt ++ remove_all src path)%string).
Local Abbreviation cp := (fun path : string => ECopy2 path (dest path)).

Lemma copies_map_cp ps : copies (map cp ps) = map (fun p => (p, dest p)) ps.
Proof. induction ps as [| p ps IH]; simpl; [ reflexivity | rewrite <- IH; reflexivity ]. Qed.

(** One round of the loop. *)
Lemma copy_round p (k : M state unit) s :
  (set_file p ;;; copy2 w p (dest p) ;;; k) s =
  let s' := add_event (cp p)
                      (set_handle (mk_thread (th_started (handle s)) (th_stop (handle s)) p) s) in
  match w_copy2 w (length (trace s)) p (dest p) with
  | Some e => (Raise e, s')
  | None => k s'
  end.
Proof.
  unfold set_file, copy2, clock, emit, of_fault, bind, gets, modify, ret, raise.
  cbv zeta. cbn [fst snd]. state_simpl.
  destruct (w_copy2 w (length (trace s)) p (dest p)); reflexivity.
Qed.

Lemma trace_after_copy p s :
  length (trace (add_event (cp p)
                   (set_handle (mk_thread (th_started (handle s)) (th_stop (handle s)) p) s))) =
  S (length (trace s)).
Proof. state_simpl. rewrite length_app. simpl. apply Nat.add_1_r. Qed.

(** The loop copies the files in order, and stops at the first that fails
    with the exception of that file; [CopyFiles_handle.file] is then the
    path of that file.  Every round leaves one event, so the file at
    position [i] is copied at the time [i] after the start of the loop. *)
Lemma copy_loop_run ps s :
  let r := copy_loop w src tgt ps s in
  th_started (handle (snd r)) = th_started (handle s) /\
  th_stop (handle (snd r)) = th_stop (handle s) /\
  ((fst r = Return tt /\ trace (snd r) = trace s ++ map cp ps /\
    (forall done path rest,
        ps = done ++ path :: rest ->
        w_copy2 w (length (trace s) + length done) path (dest path) = None)) \/
   (exists e done path rest,
       fst r = Raise e /\
       ps = done ++ path :: rest /\
       trace (snd r) = trace s ++ map cp (done ++ [path]) /\
       w_copy2 w (length (trace s) + length done) path (dest path) = Some e /\
       th_file (handle (snd r)) = path)).
Proof.
  revert s. induction ps as [| p ps IH]; intros s; cbv zeta.
  - simpl. rewrite app_nil_r. split; [ reflexivity | ]. split; [ reflexivity | ].
    left. split; [ reflexivity | ]. split; [ reflexivity | ].
    intros done path rest H. destruct done; discriminate H.
  - cbn [copy_loop]. rewrite copy_round. cbv zeta.
    destruct (w_copy2 w (length (trace s)) p (dest p)) as [e |] eqn:Hc.
    + cbn [fst snd]. state_simpl.
      split; [ reflexivity | ]. split; [ reflexivity | ]. right.
      exists e, [], p, ps. rewrite Nat.add_0_r. repeat split; auto.
    + match goal with
      | |- context [copy_loop w src tgt ps ?s'] =>
          destruct (IH s') as (H1 & H2 & H3); cbv zeta in *;
            pose proof (trace_after_copy p s) as Hlen
      end.
      rewrite Hlen in H3. setoid_rewrite Nat.add_succ_l in H3. state_simpl.
      split; [ exact H1 | ]. split; [ exact H2 | ].
      destruct H3 as [(Hr & Ht & Hok) | (e & done & path & rest & Hr & Hps & Ht & Hw & Hf)].
      * left. split; [ exact Hr | ]. split; [ rewrite Ht, <- app_assoc; reflexivity | ].
        intros done path rest Hd. destruct done as [| q done].
        -- injection Hd as <- _. rewrite Nat.add_0_r. exact Hc.
        -- injection Hd as _ Hd. simpl length. rewrite Nat.add_succ_r.
           apply (Hok done path rest). rewrite Hd. reflexivity.
      * right. exists e, (p :: done), path, rest.
        split; [ exact Hr | ]. split; [ rewrite Hps; reflexivity | ].
        split; [ rewrite Ht, <- app_assoc; reflexivity | ].
        split; [ simpl length; rewrite Nat.add_succ_r; exact Hw | exact Hf ].
Qed.

(** The first file whose copy fails ends the loop with its exception:
    the files after it are not tried. *)
Lemma copy_loop_stops done path rest e :
  forall s,
    (forall d1 p1 r1,
        done = d1 ++ p1 :: r1 ->
        w_copy2 w (length (trace s) + length d1) p1 (dest p1) = None) ->
    w_copy2 w (length (trace s) + length done) path (dest path) = Some e ->
    let r := copy_loop w src tgt (done ++ path :: rest) s in
    fst r = Raise e /\
    trace (snd r) = trace s ++ map cp (done ++ [path]) /\
    th_file (handle (snd r)) = path.
Proof.
  induction done as [| q done IH]; intros s Hok Hfail; cbv zeta.
  - cbn [app copy_loop]. rewrite copy_round. cbv zeta.
    rewrite Nat.add_0_r in Hfail. rewrite Hfail. cbn [fst snd]. state_simpl. auto.
  - cbn [app copy_loop]. rewrite copy_round. cbv zeta.
    pose proof (Hok [] q done eq_refl) as Hq. rewrite Nat.add_0_r in Hq. rewrite Hq.
    pose proof (trace_after_copy q s) as Hlen.
    match goal with
    | |- context [copy_loop w src tgt _ ?s'] =>
        destruct (IH s') as (H1 & H2 & H3)
    end.
    + intros d1 p1 r1 Hd. rewrite Hlen, Nat.add_succ_l, <- Nat.add_succ_r.
      apply (Hok (q :: d1) p1 r1). rewrite Hd. reflexivity.
    + rewrite Hlen, Nat.add_succ_l, <- Nat.add_succ_r. exact Hfail.
    + cbv zeta in *. split; [ exact H1 | ]. split; [ | exact H3 ].
      rewrite H2. state_simpl. rewrite <- app_assoc. reflexivity.
Qed.

(** The copy after the kill flag was read. *)
Lemma reporter_and_loop_run s :
  (start_reporter ;;; copy_loop w src tgt (walk_paths w src) ;;; set_stop) s =
  match copy_loop w src tgt (walk_paths w src)
                  (add_event EThreadStart (set_handle (mk_thread true false "") s)) with
  | (Return _, s2) =>
      (Return tt,
       set_handle (mk_thread (th_started (handle s2)) true (th_file (handle s2))) s2)
  | (Raise e, s2) => (Raise e, s2)
  | (SysExit, s2) => (SysExit, s2)
  end.
Proof.
  unfold start_reporter, set_stop, emit, bind, modify. cbn [fst snd].
  destruct (copy_loop w src tgt (walk_paths w src) _) as [[[] | e |] s2]; reflexivity.
Qed.

Lemma copy_filesystem_files_run s :
  copy_filesystem_files w src tgt s =
  let s0 := add_event (ECall Fcopy_filesystem_files) s in
  let rest := start_reporter ;;; copy_loop w src tgt (walk_paths w src) ;;; set_stop in
  if w_gui w then
    if w_kill w (length (trace s0)) then (SysExit, add_event (EKillCheck true) s0)
    else rest (add_event (EKillCheck false) s0)
  else rest s0.
Proof.
  unfold copy_filesystem_files, check_kill_signal. cbv zeta.
  destruct (w_gui w).
  - unfold bind at 1 2. unfold emit at 1, modify at 1. cbn [fst snd].
    unfold bind at 1. unfold clock, gets. cbn [fst snd].
    unfold bind at 1. unfold emit at 1, modify at 1. cbn [fst snd].
    destruct (w_kill w (length (trace (add_event (ECall Fcopy_filesystem_files) s))));
      reflexivity.
  - reflexivity.
Qed.

End Loop.

End Copy.




(** * More of [core.py] *)

(** ** [check_runtime_parameters] *)

(** X1.  [check_runtime_parameters] returns 0 exactly when the source is a
    regular file, the target starts with a drive letter, a colon and a
    backslash, and the mode is not ["device"]; the mode ["partition"] is
    not asked for, any other string passes as well. *)
Theorem check_runtime_parameters_accepts_iff w install_mode source_media target_media s :
  fst (check_runtime_parameters w install_mode source_media target_media s) = Return 0%Z <->
  w_isfile w source_media = true /\
  match_drive_root target_media = true /\
  install_mode <> "device".
Proof.
  unfold check_runtime_parameters, isfile, print_with_color, emit.
  unfold bind, ret, modify, sys_exit. cbn [fst snd negb].
  destruct (w_isfile w source_media); cbn [negb fst snd].
  - destruct (match_drive_root target_media) eqn:E; cbn [negb fst snd andb].
    + rewrite (drive_root_not_drive_only _ E). cbn [negb andb].
      rewrite andb_false_r, andb_true_r.
      destruct (String.eqb_spec install_mode "device") as [-> | Hmode]; cbn [fst snd].
      * destruct (w_gui w); cbn [fst snd is_red]; split;
          try discriminate; intros (_ & _ & H); contradiction H; reflexivity.
      * split; auto.
    + destruct (w_gui w); cbn [fst snd is_red]; split;
        try discriminate; intros (_ & H & _); discriminate H.
  - destruct (w_gui w); cbn [fst snd is_red]; split;
      try discriminate; intros (H & _); discriminate H.
Qed.

(** X2.  A run of [check_runtime_parameters] prints nothing when it
    accepts and exactly one red message when it rejects; the message is
    never the one about a partition, whose test repeats the second one.
    Under the GUI a rejection does not return 1: the function is left by
    [SystemExit], with the message in [gui.error]. *)
Theorem check_runtime_parameters_rejection w install_mode source_media target_media s :
  let r := check_runtime_parameters w install_mode source_media target_media s in
  (fst r = Return 0%Z /\ trace (snd r) = trace s) \/
  (exists m,
      trace (snd r) = (trace s ++ [EPrint m Red])%list /\
      m <> MsgNotPartition target_media /\
      fst r = (if w_gui w then SysExit else Return 1%Z) /\
      (w_gui w = true -> gui_error (snd r) = Some m)).
Proof.
  cbv zeta.
  unfold check_runtime_parameters, isfile, print_with_color, emit.
  unfold bind, ret, modify, sys_exit. cbn [fst snd negb].
  destruct (w_isfile w source_media); cbn [negb fst snd].
  - destruct (match_drive_root target_media) eqn:E; cbn [negb fst snd andb].
    + rewrite (drive_root_not_drive_only _ E). cbn [negb andb].
      rewrite andb_false_r, andb_true_r.
      destruct (String.eqb install_mode "device"); cbn [fst snd].
      * right. exists (MsgNotEntireDevice target_media).
        destruct (w_gui w); cbn [fst snd is_red]; state_simpl;
          repeat split; discriminate.
      * left. split; reflexivity.
    + right. exists (MsgNotDriveLetter target_media).
      destruct (w_gui w); cbn [fst snd is_red]; state_simpl;
        repeat split; discriminate.
  - right. exists (MsgSourceNotFound source_media).
    destruct (w_gui w); cbn [fst snd is_red]; state_simpl;
      repeat split; discriminate.
Qed.

(** ** The sizes of the source files *)

Module Sizes.

Local Open Scope list_scope.

(** The size check stops at the first file that is too large. *)
Lemma check_fat32_loop_first w before path after s :
  (forall q, In q before -> exists size,
        w_getsize w q = inr size /\ (size <= FAT32_MAX_FILE_SIZE)%Z) ->
  too_big w path = true ->
  check_fat32_loop w (before ++ path :: after) s =
  (print_with_color w (MsgFat32Limit path) Yellow ;;; ret 1%Z) s.
Proof.
  intros Hbefore Hbig. induction before as [| q before IH]; cbn [app check_fat32_loop].
  - unfold too_big in Hbig. unfold getsize, bind at 1.
    destruct (w_getsize w path) as [e | size]; [ discriminate Hbig | ].
    unfold ret at 1. rewrite Hbig. reflexivity.
  - destruct (Hbefore q (or_introl eq_refl)) as (size & Hq & Hle).
    unfold getsize, bind at 1. rewrite Hq. unfold ret at 1.
    replace (size >? FAT32_MAX_FILE_SIZE)%Z with false
      by (symmetry; rewrite Z.gtb_ltb; apply Z.ltb_ge; lia).
    apply IH. intros q' Hq'. apply Hbefore. right. exact Hq'.
Qed.

(** With sizes that can be read, [get_size_loop] adds them up. *)
Lemma get_size_loop_total w ps acc s :
  (forall q, In q ps -> readable w q) ->
  get_size_loop w ps acc s = (Return (acc + total_size w ps)%Z, s).
Proof.
  revert acc. induction ps as [| p ps IH]; intros acc Hr; cbn [get_size_loop total_size fold_right].
  - rewrite Z.add_0_r. reflexivity.
  - destruct (Hr p (or_introl eq_refl)) as (size & Hp & _).
    assert (Hsize : size_of w p = size) by (unfold size_of; rewrite Hp; reflexivity).
    fold (total_size w ps). rewrite Hsize.
    unfold getsize, bind at 1. rewrite Hp. unfold ret at 1.
    rewrite IH by (intros q Hq; apply Hr; right; exact Hq).
    f_equal. f_equal. lia.
Qed.

Lemma total_size_bounds w ps :
  (forall q, In q ps -> readable w q) ->
  (0 <= total_size w ps)%Z /\
  forall q, In q ps -> (size_of w q <= total_size w ps)%Z.
Proof.
  induction ps as [| p ps IH]; intros Hr; cbn [total_size fold_right].
  - split; [ lia | intros q [] ].
  - fold (total_size w ps).
    destruct IH as [H0 Hle]; [ intros q Hq; apply Hr; right; exact Hq | ].
    destruct (Hr p (or_introl eq_refl)) as (size & Hp & Hpos).
    assert (size_of w p = size) by (unfold size_of; rewrite Hp; reflexivity).
    split; [ lia | ].
    intros q [<- | Hq]; [ lia | specialize (Hle q Hq); lia ].
Qed.

Lemma check_fat32_loop_none w ps s :
  (forall q, In q ps -> exists size,
        w_getsize w q = inr size /\ (size <= FAT32_MAX_FILE_SIZE)%Z) ->
  check_fat32_loop w ps s = (Return 0%Z, s).
Proof.
  induction ps as [| p ps IH]; intros H; cbn [check_fat32_loop]; [ reflexivity | ].
  destruct (H p (or_introl eq_refl)) as (size & Hp & Hle).
  unfold getsize, bind at 1. rewrite Hp. unfold ret at 1.
  replace (size >? FAT32_MAX_FILE_SIZE)%Z with false
    by (symmetry; rewrite Z.gtb_ltb; apply Z.ltb_ge; lia).
  apply IH. intros q Hq. apply H. right. exact Hq.
Qed.

End Sizes.

(** X3.  [check_fat32_filesize_limitation] returns 1 at the first file of
    the walk that is larger than [2^32 - 1] bytes, with one warning that
    names this file; the files after it are not looked at, so what they
    are (also files whose size cannot be read) does not matter. *)
Theorem check_fat32_filesize_limitation_first_oversized w mountpoint before path after s :
  walk_paths w mountpoint = (before ++ path :: after)%list ->
  (forall q, In q before -> exists size,
        w_getsize w q = inr size /\ (size <= 2 ^ 32 - 1)%Z) ->
  too_big w path = true ->
  let r := check_fat32_filesize_limitation w mountpoint s in
  fst r = Return 1%Z /\
  trace (snd r) =
  (trace s ++ [ECall Fcheck_fat32_filesize_limitation; EPrint (MsgFat32Limit path) Yellow])%list.
Proof.
  intros Hwalk Hbefore Hbig. cbv zeta.
  unfold check_fat32_filesize_limitation. rewrite bind_emit, Hwalk.
  rewrite (Sizes.check_fat32_loop_first w before path after _ Hbefore Hbig).
  unfold print_with_color, emit, bind, modify, ret.
  destruct (w_gui w); cbn [fst snd is_red]; state_simpl; rewrite <- app_assoc;
    split; reflexivity.
Qed.

Lemma check_fat32_filesize_limitation_first_oversized_witness :
  let w := make_world false never (inr scratch) run_ok
                      (fun p => if String.eqb p "D:\bootmgr" then inr 5368709120%Z
                                else if String.eqb p "D:\sources\install.wim"
                                     then inl disk_full else inr 4096%Z)
                      copy_ok fetch_ok in
  let r := check_fat32_filesize_limitation w "D:\" (init w) in
  (walk_paths w "D:\" = (["D:\setup.exe"] ++ "D:\bootmgr" :: ["D:\sources\install.wim"])%list /\
   too_big w "D:\bootmgr" = true) /\
  fst r = Return 1%Z /\
  trace (snd r) =
  (trace (init w) ++
   [ECall Fcheck_fat32_filesize_limitation; EPrint (MsgFat32Limit "D:\bootmgr") Yellow])%list.
Proof.
  cbv zeta. split; [ split; reflexivity | ].
  apply (check_fat32_filesize_limitation_first_oversized
           _ "D:\" ["D:\setup.exe"] "D:\bootmgr" ["D:\sources\install.wim"]).
  - reflexivity.
  - intros q [<- | []]. exists 4096%Z. split; [ reflexivity | lia ].
  - reflexivity.
Defined.

(** X4.  When the sizes of all files under a directory can be read,
    [get_size] returns their sum and changes nothing; and if the sum is at
    most [2^32 - 1], [check_fat32_filesize_limitation] returns 0 for the
    same directory, without a warning. *)
Theorem get_size_is_total w path s :
  (forall q, In q (walk_paths w path) -> readable w q) ->
  get_size w path s = (Return (total_size w (walk_paths w path)), s) /\
  ((total_size w (walk_paths w path) <= 2 ^ 32 - 1)%Z ->
   forall s',
     fst (check_fat32_filesize_limitation w path s') = Return 0%Z /\
     trace (snd (check_fat32_filesize_limitation w path s')) =
     (trace s' ++ [ECall Fcheck_fat32_filesize_limitation])%list).
Proof.
  intros Hr. split.
  - unfold get_size. rewrite (Sizes.get_size_loop_total w _ 0%Z s Hr). reflexivity.
  - intros Hle s'. unfold check_fat32_filesize_limitation. rewrite bind_emit.
    rewrite Sizes.check_fat32_loop_none; [ split; reflexivity | ].
    intros q Hq. destruct (Hr q Hq) as (size & Hsz & Hpos). exists size.
    split; [ exact Hsz | ].
    destruct (Sizes.total_size_bounds w _ Hr) as [_ Hb]. specialize (Hb q Hq).
    unfold size_of in Hb. rewrite Hsz in Hb. unfold FAT32_MAX_FILE_SIZE. lia.
Qed.

Lemma get_size_is_total_witness :
  (forall q, In q (walk_paths calm_world "D:\") -> readable calm_world q) /\
  get_size calm_world "D:\" (init calm_world) = (Return 12288%Z, init calm_world).
Proof.
  assert (H : forall q, In q (walk_paths calm_world "D:\") -> readable calm_world q).
  { intros q _. exists 4096%Z. split; [ reflexivity | lia ]. }
  split; [ exact H | ].
  exact (proj1 (get_size_is_total calm_world "D:\" (init calm_world) H)).
Defined.

(** ** The device steps one by one *)

(** Running a suite by hand: everything is unfolded down to the state. *)
Ltac exec :=
  unfold format_target_device, create_target_partition,
    wipe_existing_partition_table_and_filesystem_signatures,
    create_target_partition_table, create_uefi_ntfs_support_partition,
    install_uefi_ntfs_support_partition, mount_source_filesystem,
    mount_target_filesystem, check_kill_signal, print_with_color,
    subprocess_run, urlretrieve, move, copy2, makedirs, exists_, of_fault, clock, emit;
  unfold try_except, bind, gets, modify, ret, raise, sys_exit;
  cbn [fst snd is_red].

Module Runs.

Local Open Scope list_scope.

(** A message that is not red is printed and nothing else happens. *)
Lemma print_with_color_run w m c s :
  is_red c = false ->
  exists s1, print_with_color w m c s = (Return tt, s1) /\
             trace s1 = trace s ++ [EPrint m c].
Proof.
  intros Hc. unfold print_with_color, emit, bind, modify, ret. rewrite Hc.
  destruct (w_gui w); cbn [fst snd]; eexists; split; reflexivity.
Qed.

(** Without [check], a child that ran to its end gives its result. *)
Lemma subprocess_run_done w argv rc out s :
  w_run w (length (trace s)) argv = RunDone rc out ->
  subprocess_run w argv false s = (Return (rc, out), add_event (ESubprocess argv) s).
Proof.
  intros H. unfold subprocess_run, clock, emit, bind, gets, modify, ret.
  cbn [fst snd]. rewrite H. reflexivity.
Qed.

Lemma create_target_partition_calls w dev fs label s :
  calls (trace (snd (create_target_partition w dev fs label s))) =
  calls (trace s) ++ [cmd_create_partition dev fs label].
Proof.
  unfold create_target_partition.
  set (c := cmd_create_partition dev fs label).
  unfold subprocess_run, print_with_color, clock, emit.
  unfold bind, gets, modify, ret, raise. cbn [fst snd is_red andb].
  destruct (w_gui w); cbn [fst snd];
    match goal with
    | |- context [w_run ?w ?t c] => destruct (w_run w t c); cbn [fst snd]
    end;
    state_simpl; rewrite !calls_app; cbn [calls flat_map app]; rewrite ?app_nil_r;
    reflexivity.
Qed.

End Runs.

Import Runs.

(** X5.  [create_target_partition_table] runs [convert mbr] for the types
    ["legacy"] and ["msdos"] and [convert gpt] for ["gpt"]; for any other
    type it prints its message, runs nothing and returns as if the table
    had been made. *)
Theorem create_target_partition_table_by_type w dev partition_table_type s :
  let r := create_target_partition_table w dev partition_table_type s in
  calls (trace (snd r)) =
  (calls (trace s) ++
   (if String.eqb partition_table_type "legacy" || String.eqb partition_table_type "msdos"
    then [cmd_convert dev "mbr"]
    else if String.eqb partition_table_type "gpt" then [cmd_convert dev "gpt"] else []))%list /\
  (String.eqb partition_table_type "legacy" || String.eqb partition_table_type "msdos" ||
   String.eqb partition_table_type "gpt" = false ->
   fst r = Return tt).
Proof.
  cbv zeta. exec.
  destruct (w_gui w); cbn [fst snd];
    destruct (String.eqb partition_table_type "legacy" || String.eqb partition_table_type "msdos");
    cbn [orb]; try destruct (String.eqb partition_table_type "gpt"); cbn [fst snd];
    repeat match goal with
           | |- context [w_run ?w ?t ?a] => destruct (w_run w t a); cbn [fst snd andb]
           end;
    state_simpl; rewrite ?calls_app; cbn [calls flat_map app]; rewrite ?app_nil_r;
    split; reflexivity || discriminate || auto.
Qed.

(** X6.  The three steps that change the device take no notice of how
    [diskpart] ended: whenever the child ran to its end, with whatever
    exit status, the step returns normally. *)
Theorem device_steps_ignore_exit_status w dev fs label s :
  (forall t argv, exists rc out, w_run w t argv = RunDone rc out) ->
  fst (wipe_existing_partition_table_and_filesystem_signatures w dev s) = Return tt /\
  fst (create_target_partition_table w dev "legacy" s) = Return tt /\
  fst (create_target_partition w dev fs label s) = Return tt.
Proof.
  intros Hrun. exec.
  change (String.eqb "legacy" "legacy" || String.eqb "legacy" "msdos") with true. cbv iota.
  destruct (w_gui w); cbn [fst snd];
    repeat match goal with
           | |- context [w_run ?w ?t ?a] =>
               let rc := fresh "rc" in
               let out := fresh "out" in
               let H := fresh in
               destruct (Hrun t a) as (rc & out & H); rewrite H; cbn [fst snd andb]
           end;
    repeat split.
Qed.

Lemma device_steps_ignore_exit_status_witness :
  (forall t argv, exists rc out, w_run status_world t argv = RunDone rc out) /\
  fst (wipe_existing_partition_table_and_filesystem_signatures
         status_world "1" (init status_world)) = Return tt /\
  fst (create_target_partition_table status_world "1" "legacy" (init status_world)) = Return tt /\
  fst (create_target_partition status_world "1" "FAT" "USB" (init status_world)) = Return tt.
Proof.
  assert (H : forall t argv, exists rc out, w_run status_world t argv = RunDone rc out).
  { intros t argv. cbn. unfold run_status_one, run_ok.
    destruct argv as [| a argv]; [ eexists; eexists; reflexivity | ].
    destruct (String.eqb a "diskpart") eqn:E.
    - apply String.eqb_eq in E. subst a. eexists; eexists; reflexivity.
    - destruct a as [| c a]; [ eexists; eexists; reflexivity | ].
      repeat (first [ eexists; eexists; reflexivity
                    | destruct c as [[] [] [] [] [] [] [] []];
                      try (eexists; eexists; reflexivity);
                      destruct a as [| c a]; try (eexists; eexists; reflexivity) ]). }
  split; [ exact H | ].
  apply (device_steps_ignore_exit_status status_world "1" "FAT" "USB" (init status_world) H).
Defined.

(** X7.  [format_target_device] asks for the partitions of the device and
    creates one exactly when the answer holds ["No partitions"] or nothing
    but white space (that of [str.strip], the white space above 127
    included); the partition it creates carries the label ["USB"], not the
    label given to [flash_device], and the exit status of the query is not
    looked at. *)
Theorem format_target_device_creates_when_none w dev fs rc out s :
  (forall t, w_run w t (cmd_get_partition dev) = RunDone rc out) ->
  calls (trace (snd (format_target_device w dev fs s))) =
  (calls (trace s) ++
   cmd_get_partition dev ::
   (if occurs "No partitions" out || all_space out
    then [cmd_create_partition dev fs "USB"] else []))%list.
Proof.
  intros Hrun. unfold format_target_device.
  set (q := cmd_get_partition dev) in *.
  rewrite bind_emit, bind_cases.
  destruct (print_with_color_run w (MsgCheckingFormatting dev) Green
              (add_event (ECall Fformat_target_device) s) eq_refl) as (s1 & -> & Ht1).
  rewrite bind_cases, (subprocess_run_done w q rc out s1 (Hrun _)).
  cbn [snd].
  assert (Hq : calls (trace (add_event (ESubprocess q) s1)) = calls (trace s) ++ [q]).
  { state_simpl. rewrite calls_app, Ht1, !calls_app. cbn [calls flat_map app].
    rewrite !app_nil_r. reflexivity. }
  destruct (occurs "No partitions" out || all_space out).
  - rewrite bind_cases.
    destruct (print_with_color_run w MsgNoPartitions Green
                (add_event (ESubprocess q) s1) eq_refl) as (s2 & -> & Ht2).
    rewrite create_target_partition_calls, Ht2, calls_app, Hq.
    cbn [calls flat_map app]. rewrite app_nil_r, <- app_assoc. reflexivity.
  - destruct (print_with_color_run w MsgHasPartition Green
                (add_event (ESubprocess q) s1) eq_refl) as (s2 & -> & Ht2).
    cbn [snd]. rewrite Ht2, calls_app, Hq. cbn [calls flat_map app].
    rewrite app_nil_r. reflexivity.
Qed.

Lemma format_target_device_creates_when_none_witness :
  let w := make_world false never (inr scratch) (fun _ _ => RunDone 1 nbsp_line) small_files
                      copy_ok fetch_ok in
  (forall t, w_run w t (cmd_get_partition "1") = RunDone 1 nbsp_line) /\
  calls (trace (snd (format_target_device w "1" "NTFS" (init w)))) =
  [cmd_get_partition "1"; cmd_create_partition "1" "NTFS" "USB"].
Proof.
  cbv zeta.
  set (w := make_world false never (inr scratch) (fun _ _ => RunDone 1 nbsp_line) small_files
                       copy_ok fetch_ok).
  split; [ reflexivity | ].
  exact (format_target_device_creates_when_none w "1" "NTFS" 1%Z nbsp_line (init w)
                                                (fun t => eq_refl)).
Defined.

(** ** The end of a run *)

(** X8.  The closing message is no sign of success: in every run in which
    the scratch directory was made and [cleanup] can remove it,
    ["Flashing completed successfully!"] is the last thing printed,
    whether [flash_device] returns [None], returns 1 or is left by
    [SystemExit]. *)
Theorem flash_device_always_prints_completed w src dev fs label tmp :
  w_mkdtemp w = inr tmp ->
  (forall t, w_rmtree w t tmp = None) ->
  let r := flash_device w src dev fs label (init w) in
  (exists pre, trace (snd r) = (pre ++ [EPrint MsgCompleted Green])%list) /\
  (forall e, fst r <> Raise e).
Proof.
  intros Htmp Hrm. cbv zeta. unfold flash_device.
  rewrite (bind_run _ _ _ _ _ (mkdtemp_run w tmp (init w) Htmp)).
  set (s0 := set_paths _ _).
  pose proof (Scratch.flash_device_try_stays w tmp src dev fs label tmp s0
                                              (or_introl eq_refl)) as Hbody.
  destruct (flash_device_try w src dev fs label tmp s0) as [r_b s1] eqn:Hb.
  assert (Hin : In tmp (paths s1)) by (destruct r_b; cbv beta iota in Hbody; tauto).
  destruct (flash_device_ending w src dev fs label tmp s0 r_b s1 Hb)
    as (r & s2 & closed & Hrun & Htr & Hc1 & _ & Hclosed & _).
  assert (closed = true) as ->.
  { apply Hclosed. split; [ | apply Hrm ].
    apply existsb_exists. exists tmp. split; [ exact Hin | apply String.eqb_refl ]. }
  rewrite Hrun. cbn [fst snd]. split.
  - rewrite Htr. eexists. rewrite !app_assoc. reflexivity.
  - rewrite (Hc1 eq_refl).
    destruct r_b; [ | destruct (w_gui w) | ]; intros e0 H; discriminate H.
Qed.

Lemma flash_device_always_prints_completed_witness :
  let r := flash_device wipe_fails_world "install.iso" "1" "FAT" "USB" (init wipe_fails_world) in
  (w_mkdtemp wipe_fails_world = inr scratch /\
   (forall t, w_rmtree wipe_fails_world t scratch = None) /\
   fst r = Return (Some 1%Z)) /\
  (exists pre, trace (snd r) = (pre ++ [EPrint MsgCompleted Green])%list) /\
  (forall e, fst r <> Raise e).
Proof.
  cbv zeta. split; [ repeat split | ].
  apply (flash_device_always_prints_completed
           wipe_fails_world "install.iso" "1" "FAT" "USB" scratch);
    reflexivity.
Defined.

(** X9.  Without administrator rights [flash_device] touches nothing: it
    makes the scratch directory, prints its warning, cleans up and returns
    1; no command is run and no file is copied. *)
Theorem flash_device_not_admin w src dev fs label tmp :
  w_is_admin w = false ->
  w_mkdtemp w = inr tmp ->
  (forall t, w_rmtree w t tmp = None) ->
  let r := flash_device w src dev fs label (init w) in
  fst r = Return (Some 1%Z) /\
  trace (snd r) =
  [EMkdtemp tmp; EPrint MsgNotAdmin Yellow; ECall Fcleanup; ERmtree tmp;
   EPrint MsgCompleted Green].
Proof.
  intros Hadmin Htmp Hrm. cbv zeta. unfold flash_device.
  rewrite (bind_run _ _ _ _ _ (mkdtemp_run w tmp (init w) Htmp)).
  set (s0 := set_paths _ _).
  assert (Hb : exists s1,
             flash_device_try w src dev fs label tmp s0 = (Return (Some 1%Z), s1) /\
             trace s1 = (trace s0 ++ [EPrint MsgNotAdmin Yellow])%list /\
             paths s1 = paths s0).
  { unfold flash_device_try, is_admin. unfold bind at 1. unfold ret at 1.
    rewrite Hadmin. cbn [negb].
    unfold print_with_color, emit, bind, modify, ret.
    destruct (w_gui w); cbn [fst snd is_red]; eexists; repeat split. }
  destruct Hb as (s1 & Hb & Ht1 & Hp1).
  destruct (flash_device_ending w src dev fs label tmp s0 _ s1 Hb)
    as (r & s2 & closed & Hrun & Htr & Hc1 & _ & Hclosed & _).
  assert (closed = true) as ->.
  { apply Hclosed. split; [ | apply Hrm ]. rewrite Hp1. cbn. rewrite String.eqb_refl.
    reflexivity. }
  rewrite Hrun. cbn [fst snd]. split; [ apply Hc1; reflexivity | ].
  rewrite Htr, Ht1. reflexivity.
Qed.

Lemma flash_device_not_admin_witness :
  let w := {| w_gui := false; w_kill := never; w_is_admin := false; w_isfile := fun _ => true;
              w_stamp_source := "0"; w_stamp_target := "0"; w_pid := "1";
              w_paths0 := []; w_handle0 := fresh_thread; w_mkdtemp := inr scratch;
              w_makedirs := fun _ => None; w_run := run_ok; w_walk := fun _ => [];
              w_getsize := small_files; w_copy2 := copy_ok; w_urlretrieve := fetch_ok;
              w_move := fun _ _ _ => None; w_rmtree := fun _ _ => None;
              w_alive_after_stop := fun _ => false |} in
  let r := flash_device w "install.iso" "1" "FAT" "USB" (init w) in
  fst r = Return (Some 1%Z) /\
  trace (snd r) =
  [EMkdtemp scratch; EPrint MsgNotAdmin Yellow; ECall Fcleanup; ERmtree scratch;
   EPrint MsgCompleted Green].
Proof.
  cbv zeta.
  match goal with
  | |- context [flash_device ?w _ _ _ _ _] =>
      exact (flash_device_not_admin w "install.iso" "1" "FAT" "USB" scratch
                                    eq_refl eq_refl (fun t => eq_refl))
  end.
Defined.

(** X10.  Whenever the scratch directory was made, the progress reporter
    is not left running when [flash_device] is over: if the thread was
    started, its stop flag is set (by the copy when it ran to its end, by
    [cleanup] otherwise). *)
Theorem flash_device_stops_reporter w src dev fs label tmp :
  w_mkdtemp w = inr tmp ->
  let r := flash_device w src dev fs label (init w) in
  th_started (handle (snd r)) = true -> th_stop (handle (snd r)) = true.
Proof.
  intros Htmp. cbv zeta. unfold flash_device.
  rewrite (bind_run _ _ _ _ _ (mkdtemp_run w tmp (init w) Htmp)).
  set (s0 := set_paths _ _).
  destruct (flash_device_try w src dev fs label tmp s0) as [r_b s1] eqn:Hb.
  destruct (flash_device_ending w src dev fs label tmp s0 r_b s1 Hb)
    as (r & s2 & closed & Hrun & _ & _ & _ & _ & Hstop).
  rewrite Hrun. exact Hstop.
Qed.

Lemma flash_device_stops_reporter_witness :
  let r := flash_device full_world "install.iso" "1" "FAT" "USB" (init full_world) in
  (w_mkdtemp full_world = inr scratch /\ th_started (handle (snd r)) = true) /\
  th_stop (handle (snd r)) = true.
Proof.
  cbv zeta. split; [ split; reflexivity | ].
  apply (flash_device_stops_reporter full_world "install.iso" "1" "FAT" "USB" scratch);
    reflexivity.
Defined.

(** X11.  Only the three errors of [urllib] turn a failed download into a
    warning.  Any other exception of the download, and any failure to move
    the image into the scratch directory or to copy it onto the partition,
    leaves [install_uefi_ntfs_support_partition] as an exception, with no
    warning printed (unless the kill flag ended the step before). *)
Theorem install_uefi_other_failures_raise w part dir e s :
  ((forall t, w_urlretrieve w t UEFI_NTFS_URL "uefi-ntfs.img" = Some e) /\
   is_url_error e = false) \/
  ((forall t, w_urlretrieve w t UEFI_NTFS_URL "uefi-ntfs.img" = None) /\
   (forall t a b, w_move w t a b = Some e)) \/
  ((forall t, w_urlretrieve w t UEFI_NTFS_URL "uefi-ntfs.img" = None) /\
   (forall t a b, w_move w t a b = None) /\
   (forall t a b, w_copy2 w t a b = Some e)) ->
  let r := install_uefi_ntfs_support_partition w part dir s in
  (fst r = Raise e \/ (w_gui w = true /\ fst r = SysExit)) /\
  count_events is_download_warning (trace (snd r)) =
  count_events is_download_warning (trace s).
Proof.
  intros H. cbv zeta. exec.
  destruct (w_gui w); cbn [fst snd];
    repeat match goal with
           | |- context [w_kill w ?t] => destruct (w_kill w t); cbn [fst snd]
           end;
    destruct H as [(Hf & Hu) | [(Hf & Hm) | (Hf & Hm & Hc)]];
    rewrite ?Hf; cbn [fst snd]; rewrite ?Hu; cbn [fst snd];
    rewrite ?Hm; cbn [fst snd]; rewrite ?Hc; cbn [fst snd];
    state_simpl; rewrite ?count_events_app; unfold count_events; cbn;
    (split; [ auto | lia ]).
Qed.

Lemma install_uefi_other_failures_raise_witness :
  let timeout := mk_exn OtherException "timed out" None in
  let w := make_world false never (inr scratch) run_ok small_files copy_ok
                      (fun _ _ _ => Some timeout) in
  let r := install_uefi_ntfs_support_partition w "12" scratch (init w) in
  ((forall t, w_urlretrieve w t UEFI_NTFS_URL "uefi-ntfs.img" = Some timeout) /\
   is_url_error timeout = false) /\
  (fst r = Raise timeout \/ (w_gui w = true /\ fst r = SysExit)) /\
  count_events is_download_warning (trace (snd r)) =
  count_events is_download_warning (trace (init w)).
Proof.
  cbv zeta. split; [ split; reflexivity | ].
  match goal with
  | |- context [install_uefi_ntfs_support_partition ?w ?p ?d ?s] =>
      exact (install_uefi_other_failures_raise
               w p d (mk_exn OtherException "timed out" None) s
               (or_introl (conj (fun t => eq_refl) eq_refl)))
  end.
Defined.

(** ** The checks made before flashing *)

Module Preflight.

Local Open Scope list_scope.

(** Outside the GUI the loop of [check_runtime_dependencies] goes through
    every command and prints an error for each one that is missing. *)
Lemma check_commands_console w sh app :
  w_gui w = false ->
  forall commands result s,
  exists s',
    check_commands w sh app commands result s =
    (Return (result && forallb (sh_which sh) commands), s') /\
    trace s' = trace s ++ report_missing app (missing (sh_which sh) commands) /\
    gui_error s' = gui_error s.
Proof.
  intros Hgui. induction commands as [ | c rest IH]; intros result s.
  - exists s. cbn. rewrite andb_true_r, app_nil_r. auto.
  - cbn [check_commands forallb missing filter].
    destruct (sh_which sh c) eqn:Hc; cbn [negb andb].
    + apply IH.
    + unfold bind at 1. unfold print_with_color, emit, bind, modify, ret.
      rewrite Hgui. cbn [fst snd].
      destruct (IH false (add_event (EPrint (MsgDependencyMissing app c) Red) s))
        as (s' & Hrun & Htr & Herr).
      exists s'. rewrite Hrun, andb_false_r. cbn [andb]. split; [ reflexivity | ].
      split; [ | exact Herr ].
      rewrite Htr. state_simpl. rewrite <- app_assoc. reflexivity.
Qed.

(** Under the GUI the first missing command ends the run. *)
Lemma check_commands_gui w sh app :
  w_gui w = true ->
  forall commands result s,
  let r := check_commands w sh app commands result s in
  match missing (sh_which sh) commands with
  | [] => r = (Return result, s)
  | c :: _ =>
      fst r = SysExit /\
      trace (snd r) = trace s ++ [EPrint (MsgDependencyMissing app c) Red] /\
      gui_error (snd r) = Some (MsgDependencyMissing app c)
  end.
Proof.
  intros Hgui. induction commands as [ | c rest IH]; intros result s; cbv zeta.
  - reflexivity.
  - cbn [check_commands missing filter].
    destruct (sh_which sh c) eqn:Hc; cbn [negb].
    + apply IH.
    + unfold bind at 1. unfold print_with_color, emit, bind, modify, ret, sys_exit.
      rewrite Hgui. cbn [fst snd is_red]. auto.
Qed.

End Preflight.

(** X12.  [check_runtime_dependencies] returns its list exactly when both
    [diskpart] and [PowerShell] are found, leaving the state as it was.
    Otherwise, outside the GUI every missing command is reported in red,
    in order, before [RuntimeError] is raised; under the GUI the report of
    the first missing command ends the run, so that [RuntimeError] is never
    raised there. *)
Theorem check_runtime_dependencies_reports w sh app s :
  let absent := missing (sh_which sh) ["diskpart"; "PowerShell"] in
  let r := check_runtime_dependencies w sh app s in
  match absent with
  | [] => r = (Return [Some "diskpart"; Some "diskpart"; None], s)
  | c :: _ =>
      if w_gui w then
        fst r = SysExit /\
        trace (snd r) = trace s ++ [EPrint (MsgDependencyMissing app c) Red] /\
        gui_error (snd r) = Some (MsgDependencyMissing app c)
      else
        fst r = Raise (mk_exn RuntimeError "Dependencies are not met" None) /\
        trace (snd r) = trace s ++ report_missing app absent
  end.
Proof.
  cbv zeta. unfold check_runtime_dependencies.
  destruct (w_gui w) eqn:Hgui.
  - pose proof (Preflight.check_commands_gui w sh app Hgui
                  ["diskpart"; "PowerShell"] true s) as H.
    cbv zeta in H. unfold bind.
    destruct (missing (sh_which sh) ["diskpart"; "PowerShell"]) as [ | c rest].
    + rewrite H. reflexivity.
    + destruct H as (Hr & Htr & Herr).
      destruct (check_commands w sh app ["diskpart"; "PowerShell"] true s) as [r s'].
      cbn [fst snd] in *. subst r. cbn [fst snd]. auto.
  - destruct (Preflight.check_commands_console w sh app Hgui
                ["diskpart"; "PowerShell"] true s) as (s' & Hrun & Htr & _).
    destruct (missing (sh_which sh) ["diskpart"; "PowerShell"]) as [ | c rest] eqn:Hm.
    + unfold missing in Hm. cbn [filter] in Hm. cbn [check_commands]. unfold bind.
      destruct (sh_which sh "diskpart"); [ | discriminate Hm ].
      destruct (sh_which sh "PowerShell"); [ | discriminate Hm ].
      reflexivity.
    + unfold bind. rewrite Hrun. cbn [fst snd andb].
      assert (forallb (sh_which sh) ["diskpart"; "PowerShell"] = false) as ->.
      { unfold missing in Hm. cbn [filter forallb] in *.
        destruct (sh_which sh "diskpart"), (sh_which sh "PowerShell");
          try reflexivity; discriminate Hm. }
      unfold raise. cbn [fst snd]. auto.
Qed.

Module Busy.

Local Open Scope list_scope.

Ltac run_probe :=
  unfold check_is_target_device_busy, subprocess_run, print_with_color, clock, emit;
  unfold bind, gets, modify, ret, raise, sys_exit; cbn [fst snd is_red andb].

Ltac observe :=
  state_simpl;
  rewrite ?calls_app, ?red_messages_app; cbn [calls red_messages flat_map app map];
  rewrite ?app_nil_r.

(** One probe: what [check_is_target_device_busy] leaves behind whatever
    its outcome. *)
Lemma probe_effect w sh device s :
  let r := check_is_target_device_busy w sh device s in
  calls (trace (snd r)) =
  calls (trace s) ++ map cmd_get_volume (first_letter device) /\
  red_messages (trace (snd r)) = red_messages (trace s) /\
  gui_error (snd r) = gui_error s /\
  fst r <> SysExit /\
  (forall z, fst r = Return z -> z = 0%Z \/ z = 1%Z).
Proof.
  cbv zeta. destruct device as [ | letter rest].
  - cbn. rewrite app_nil_r. repeat split; try discriminate.
  - run_probe.
    destruct (w_run w (length (trace s)) (cmd_get_volume letter)) as [e | rc out];
      cbn [fst snd].
    + observe. repeat split; try discriminate.
    + destruct (sh_search sh (String letter rest) out) as [e | [ | ]]; cbn [fst snd].
      * observe. repeat split; try discriminate.
      * destruct (w_gui w); cbn [fst snd]; observe;
          (split; [ reflexivity | split; [ reflexivity | split; [ reflexivity | ] ] ]);
          (split; [ discriminate | ]); intros z Hz; injection Hz as <-; auto.
      * observe.
        (split; [ reflexivity | split; [ reflexivity | split; [ reflexivity | ] ] ]);
          (split; [ discriminate | ]); intros z Hz; injection Hz as <-; auto.
Qed.

(** A probe whose child ran to its end, with whatever exit status, and
    whose search gave an answer. *)
Lemma probe_run w sh letter rest rc out found s :
  w_run w (length (trace s)) (cmd_get_volume letter) = RunDone rc out ->
  sh_search sh (String letter rest) out = inr found ->
  exists s1,
    check_is_target_device_busy w sh (String letter rest) s =
    (Return (if found then 1 else 0)%Z, s1) /\
    trace s1 =
    trace s ++ ESubprocess (cmd_get_volume letter) ::
      (if found then [EPrint (MsgDriveBusy (String letter rest)) Yellow] else []) /\
    gui_error s1 = gui_error s.
Proof.
  intros Hrun Hfound. run_probe. rewrite Hrun. cbn [fst snd]. rewrite Hfound.
  destruct found; [ destruct (w_gui w) | ]; cbn [fst snd];
    (eexists; split; [ reflexivity | ]); state_simpl; rewrite <- ?app_assoc; auto.
Qed.

End Busy.

(** X13.  [check_is_target_device_busy] asks [Get-Volume] for the first
    character of the device only, while the whole device string is the
    pattern searched in the output.  Whenever PowerShell ran to its end,
    with whatever exit status, it returns 1 if the pattern is found and 0
    if not, and these are the only ways in which it returns; its warning
    is yellow, so it never ends the run, not even under the GUI. *)
Theorem check_is_target_device_busy_probe w sh device s :
  let r := check_is_target_device_busy w sh device s in
  calls (trace (snd r)) =
  calls (trace s) ++ map cmd_get_volume (first_letter device) /\
  fst r <> SysExit /\
  (forall letter rest rc out found,
     device = String letter rest ->
     w_run w (length (trace s)) (cmd_get_volume letter) = RunDone rc out ->
     sh_search sh device out = inr found ->
     fst r = Return (if found then 1 else 0)%Z /\
     trace (snd r) =
     trace s ++ ESubprocess (cmd_get_volume letter) ::
       (if found then [EPrint (MsgDriveBusy device) Yellow] else [])) /\
  (forall z, fst r = Return z ->
     exists letter rest rc out found,
       device = String letter rest /\
       w_run w (length (trace s)) (cmd_get_volume letter) = RunDone rc out /\
       sh_search sh device out = inr found /\
       z = (if found then 1 else 0)%Z).
Proof.
  cbv zeta.
  destruct (Busy.probe_effect w sh device s) as (Hcalls & _ & _ & Hexit & _).
  split; [ exact Hcalls | ]. split; [ exact Hexit | ]. clear Hcalls Hexit.
  split.
  - intros letter rest rc out found -> Hrun Hfound.
    destruct (Busy.probe_run w sh letter rest rc out found s Hrun Hfound)
      as (s1 & -> & Htr & _).
    split; [ reflexivity | exact Htr ].
  - destruct device as [ | letter rest]; [ intros z Hz; discriminate Hz | ].
    intros z.
    destruct (w_run w (length (trace s)) (cmd_get_volume letter)) as [e | rc out] eqn:Hrun.
    { Busy.run_probe. rewrite Hrun. cbn [fst snd]. discriminate. }
    destruct (sh_search sh (String letter rest) out) as [e | found] eqn:Hfound.
    { Busy.run_probe. rewrite Hrun. cbn [fst snd]. rewrite Hfound. cbn [fst snd].
      discriminate. }
    destruct (Busy.probe_run w sh letter rest rc out found s Hrun Hfound)
      as (s1 & -> & _ & _).
    cbn [fst]. intros Hz. injection Hz as <-.
    exists letter, rest, rc, out, found. auto.
Qed.

Lemma check_is_target_device_busy_probe_witness :
  let r := check_is_target_device_busy volume_world plain_shell "D:" (init volume_world) in
  (w_run volume_world 0 (cmd_get_volume "D") = RunDone 1 "DriveLetter FileSystem  D: NTFS" /\
   sh_search plain_shell "D:" "DriveLetter FileSystem  D: NTFS" = inr true) /\
  fst r = Return 1%Z /\
  trace (snd r) = [ESubprocess (cmd_get_volume "D"); EPrint (MsgDriveBusy "D:") Yellow].
Proof.
  cbv zeta. split; [ split; reflexivity | ].
  exact (proj1 (proj2 (proj2 (check_is_target_device_busy_probe
                                volume_world plain_shell "D:" (init volume_world))))
               "D"%char ":" 1%Z "DriveLetter FileSystem  D: NTFS" true
               eq_refl eq_refl eq_refl).
Defined.

(** The ways in which [check_source_and_target_not_busy] can end, also
    when a probe raises. *)
Lemma check_source_and_target_not_busy_shapes w sh mode src dev part s :
  let target := if String.eqb mode "partition" then part else dev in
  let probes d := map cmd_get_volume (first_letter d) in
  let r := check_source_and_target_not_busy w sh mode src dev part s in
  (forall z, fst r = Return z ->
     (z = 0%Z /\
      red_messages (trace (snd r)) = red_messages (trace s) /\
      calls (trace (snd r)) = calls (trace s) ++ probes src ++ probes target) \/
     (z = 1%Z /\ w_gui w = false /\
      exists m, red_messages (trace (snd r)) = red_messages (trace s) ++ [m])) /\
  (fst r = SysExit ->
     w_gui w = true /\
     exists m, red_messages (trace (snd r)) = red_messages (trace s) ++ [m] /\
               gui_error (snd r) = Some m) /\
  (red_messages (trace (snd r)) = red_messages (trace s) ++ [MsgSourceInUse] ->
   calls (trace (snd r)) = calls (trace s) ++ probes src).
Proof.
  cbv zeta. unfold check_source_and_target_not_busy.
  rewrite bind_cases.
  destruct (Busy.probe_effect w sh src s) as (Hc1 & Hr1 & He1 & Hx1 & Hz1).
  destruct (check_is_target_device_busy w sh src s) as [[z1 | e1 | ] s1];
    cbn [fst snd] in *; [ | | contradiction ].
  2:{ split; [ discriminate | ]. split; [ discriminate | ]. intros _. exact Hc1. }
  destruct (Hz1 z1 eq_refl) as [-> | ->]; cbn [Z.eqb negb].
  2:{ unfold print_with_color, emit, bind, modify, ret, sys_exit.
      destruct (w_gui w); cbn [fst snd is_red]; Busy.observe; rewrite Hr1, Hc1;
        (split; [ intros z Hz; try discriminate Hz | split; [ intros Hz; try discriminate Hz | auto ] ]).
      - split; [ reflexivity | ]. eexists. split; reflexivity.
      - injection Hz as <-. right. split; [ reflexivity | ]. split; [ reflexivity | ].
        eexists. reflexivity. }
  assert (Hno : forall A (l : list A) x y, l ++ [x] = l ++ [y] -> x = y).
  { intros A l x y H. apply app_inv_head in H. injection H as ->. reflexivity. }
  assert (Hnil : forall A (l : list A) x, l <> l ++ [x]).
  { intros A l x H. rewrite <- (app_nil_r l) in H at 1. apply app_inv_head in H.
    discriminate H. }
  destruct (String.eqb mode "partition");
    rewrite bind_cases;
    [ destruct (Busy.probe_effect w sh part s1) as (Hc2 & Hr2 & He2 & Hx2 & Hz2);
      destruct (check_is_target_device_busy w sh part s1) as [[z2 | e2 | ] s2]
    | destruct (Busy.probe_effect w sh dev s1) as (Hc2 & Hr2 & He2 & Hx2 & Hz2);
      destruct (check_is_target_device_busy w sh dev s1) as [[z2 | e2 | ] s2] ];
    cbn [fst snd] in *; try contradiction;
    try (split; [ discriminate | ]; split; [ discriminate | ];
         rewrite Hr2, Hr1; intros H; exfalso; exact (Hnil _ _ _ H));
    (destruct (Hz2 z2 eq_refl) as [-> | ->]; cbn [Z.eqb negb];
     [ unfold ret; cbn [fst snd];
       split; [ intros z Hz; injection Hz as <-; left;
                split; [ reflexivity | ];
                split; [ rewrite Hr2, Hr1; reflexivity
                       | rewrite Hc2, Hc1, <- app_assoc; reflexivity ]
              | split; [ discriminate | ];
                rewrite Hr2, Hr1; intros H; exfalso; exact (Hnil _ _ _ H) ]
     | unfold print_with_color, emit, bind, modify, ret, sys_exit;
       destruct (w_gui w); cbn [fst snd is_red]; Busy.observe; rewrite Hr2, Hr1;
       (split; [ intros z Hz; try discriminate Hz
               | split; [ intros Hz; try discriminate Hz
                        | intros H; apply Hno in H; discriminate H ] ]);
       [ split; [ reflexivity | ]; eexists; split; reflexivity
       | injection Hz as <-; right; split; [ reflexivity | ]; split; [ reflexivity | ];
         eexists; reflexivity ] ]).
Qed.

(** X14.  When every probe runs to its end and every search gives an
    answer, [check_source_and_target_not_busy] is decided by what the
    probes find: a busy source gives 1 outside the GUI and ends the run
    under it, after the red message about the source and without the
    target being probed; a free source and a busy target (the partition
    in the mode ["partition"], the device otherwise) give the same after
    the red message about the target; and 0 is returned, with nothing in
    red, exactly when both are free.  The exit status of PowerShell plays
    no part. *)
Theorem check_source_and_target_not_busy_outcomes w sh mode src dev part s
        (out : nat -> list string -> string) (found : string -> string -> bool) :
  (forall t argv, exists rc, w_run w t argv = RunDone rc (out t argv)) ->
  (forall pattern text, sh_search sh pattern text = inr (found pattern text)) ->
  let target := if String.eqb mode "partition" then part else dev in
  let target_message :=
      if String.eqb mode "partition" then MsgTargetPartitionMounted else MsgTargetDeviceBusy in
  forall l1 r1 l2 r2,
    src = String l1 r1 -> target = String l2 r2 ->
    let source_busy := found src (out (length (trace s)) (cmd_get_volume l1)) in
    let target_busy := found target (out (S (length (trace s))) (cmd_get_volume l2)) in
    let r := check_source_and_target_not_busy w sh mode src dev part s in
    fst r = (if source_busy || target_busy
             then (if w_gui w then SysExit else Return 1%Z)
             else Return 0%Z) /\
    calls (trace (snd r)) =
    calls (trace s) ++ cmd_get_volume l1 :: (if source_busy then [] else [cmd_get_volume l2]) /\
    red_messages (trace (snd r)) =
    red_messages (trace s) ++
    (if source_busy then [MsgSourceInUse]
     else if target_busy then [target_message] else []).
Proof.
  intros Hrun Hsearch. cbv zeta. intros l1 r1 l2 r2 Hsrc Htarget.
  destruct (check_source_and_target_not_busy w sh mode src dev part s) as [r s3] eqn:Hr.
  revert Hr. unfold check_source_and_target_not_busy. rewrite bind_cases.
  destruct (Hrun (length (trace s)) (cmd_get_volume l1)) as (rc1 & Hrun1).
  subst src.
  destruct (Busy.probe_run w sh l1 r1 rc1 _ _ s Hrun1 (Hsearch _ _))
    as (s1 & -> & Ht1 & _).
  destruct (found (String l1 r1) (out (length (trace s)) (cmd_get_volume l1))) eqn:Hb1;
    cbn [Z.eqb negb orb].
  - unfold print_with_color, emit, bind, modify, ret, sys_exit.
    destruct (w_gui w); cbn [fst snd is_red]; intros Hr; injection Hr as <- <-;
      state_simpl; rewrite !calls_app, !red_messages_app, Ht1, !calls_app, !red_messages_app;
      cbn [calls red_messages flat_map app]; rewrite ?app_nil_r; auto.
  - assert (Hlen : length (trace s1) = S (length (trace s))).
    { rewrite Ht1, length_app. simpl. apply Nat.add_1_r. }
    assert (Hprobe : forall target,
               target = String l2 r2 ->
               exists s2,
                 check_is_target_device_busy w sh target s1 =
                 (Return (if found target (out (S (length (trace s))) (cmd_get_volume l2))
                          then 1 else 0)%Z, s2) /\
                 trace s2 =
                 trace s1 ++ ESubprocess (cmd_get_volume l2) ::
                   (if found target (out (S (length (trace s))) (cmd_get_volume l2))
                    then [EPrint (MsgDriveBusy target) Yellow] else [])).
    { intros target ->.
      destruct (Hrun (length (trace s1)) (cmd_get_volume l2)) as (rc2 & Hrun2).
      destruct (Busy.probe_run w sh l2 r2 rc2 _ _ s1 Hrun2 (Hsearch _ _))
        as (s2 & H1 & H2 & _).
      rewrite Hlen in H1, H2. exists s2. split; assumption. }
    destruct (String.eqb mode "partition");
      rewrite bind_cases;
      destruct (Hprobe _ Htarget) as (s2 & -> & Ht2);
      match goal with
      | |- context [found ?d ?o] => destruct (found d o)
      end;
      cbn [Z.eqb negb];
      unfold print_with_color, emit, bind, modify, ret, sys_exit;
      try destruct (w_gui w); cbn [fst snd is_red]; intros Hr; injection Hr as <- <-;
      state_simpl;
      rewrite ?calls_app, ?red_messages_app, Ht2, ?calls_app, ?red_messages_app, Ht1,
        ?calls_app, ?red_messages_app;
      cbn [calls red_messages flat_map app]; rewrite ?app_nil_r, <- ?app_assoc; auto.
Qed.

Lemma check_source_and_target_not_busy_outcomes_witness :
  let out := fun (_ : nat) (_ : list string) => "DriveLetter FileSystem  D: NTFS" in
  let r := check_source_and_target_not_busy volume_world plain_shell "device" "D:" "E:" "E:"
                                            (init volume_world) in
  let r' := check_source_and_target_not_busy volume_world plain_shell "device" "E:" "D:" "D:"
                                             (init volume_world) in
  let r'' := check_source_and_target_not_busy volume_world plain_shell "device" "E:" "F:" "F:"
                                              (init volume_world) in
  ((forall t argv, exists rc, w_run volume_world t argv = RunDone rc (out t argv)) /\
   (forall pattern text, sh_search plain_shell pattern text = inr (occurs pattern text))) /\
  (fst r = Return 1%Z /\
   calls (trace (snd r)) = [cmd_get_volume "D"] /\
   red_messages (trace (snd r)) = [MsgSourceInUse]) /\
  (fst r' = Return 1%Z /\
   calls (trace (snd r')) = [cmd_get_volume "E"; cmd_get_volume "D"] /\
   red_messages (trace (snd r')) = [MsgTargetDeviceBusy]) /\
  (fst r'' = Return 0%Z /\
   calls (trace (snd r'')) = [cmd_get_volume "E"; cmd_get_volume "F"] /\
   red_messages (trace (snd r'')) = []).
Proof.
  cbv zeta.
  assert (H1 : forall t argv, exists rc,
               w_run volume_world t argv = RunDone rc "DriveLetter FileSystem  D: NTFS").
  { intros t argv. exists 1%Z. reflexivity. }
  assert (H2 : forall pattern text,
               sh_search plain_shell pattern text = inr (occurs pattern text)).
  { intros pattern text. reflexivity. }
  split; [ split; assumption | ].
  split; [ | split ].
  - exact (check_source_and_target_not_busy_outcomes
             volume_world plain_shell "device" "D:" "E:" "E:" (init volume_world)
             _ _ H1 H2 "D"%char ":" "E"%char ":" eq_refl eq_refl).
  - exact (check_source_and_target_not_busy_outcomes
             volume_world plain_shell "device" "E:" "D:" "D:" (init volume_world)
             _ _ H1 H2 "E"%char ":" "D"%char ":" eq_refl eq_refl).
  - exact (check_source_and_target_not_busy_outcomes
             volume_world plain_shell "device" "E:" "F:" "F:" (init volume_world)
             _ _ H1 H2 "E"%char ":" "F"%char ":" eq_refl eq_refl).
Defined.

(** X15.  [determine_target_parameters] gives the target media both as the
    device and as the partition, in either mode, and never fails.  With
    these two, the mode makes no difference to
    [check_source_and_target_not_busy] but the wording of its last error:
    the outcome and the commands run are the same. *)
Theorem determine_target_parameters_same_letter w sh mode media s :
  let r := determine_target_parameters w sh mode media s in
  fst r = Return (media, media) /\
  trace (snd r) =
  trace s ++
  (if sh_verbose sh
   then [EPrint (MsgInfoTargetDevice media) Plain;
         EPrint (MsgInfoTargetPartition media) Plain]
   else []) /\
  forall mode' src s',
    let a := check_source_and_target_not_busy w sh mode src media media s' in
    let b := check_source_and_target_not_busy w sh mode' src media media s' in
    fst a = fst b /\ calls (trace (snd a)) = calls (trace (snd b)).
Proof.
  cbv zeta. split; [ | split ].
  - unfold determine_target_parameters.
    destruct (String.eqb mode "partition"), (sh_verbose sh);
      unfold print_with_color, emit, bind, modify, ret;
      destruct (w_gui w); reflexivity.
  - unfold determine_target_parameters.
    destruct (String.eqb mode "partition"), (sh_verbose sh);
      unfold print_with_color, emit, bind, modify, ret;
      destruct (w_gui w); cbn [fst snd is_red]; state_simpl;
      rewrite <- ?app_assoc, ?app_nil_r; reflexivity.
  - intros mode' src s'. unfold check_source_and_target_not_busy.
    rewrite !bind_cases.
    destruct (check_is_target_device_busy w sh src s') as [[z1 | e1 | ] s1];
      [ | split; reflexivity | split; reflexivity ].
    destruct (negb (z1 =? 0)%Z); [ split; reflexivity | ].
    destruct (String.eqb mode "partition"), (String.eqb mode' "partition");
      try (split; reflexivity);
      rewrite !bind_cases;
      (destruct (check_is_target_device_busy w sh media s1) as [[z2 | e2 | ] s2];
       [ | split; reflexivity | split; reflexivity ]);
      (destruct (negb (z2 =? 0)%Z); [ | split; reflexivity ]);
      unfold print_with_color, emit, bind, modify, ret, sys_exit;
      destruct (w_gui w); cbn [fst snd is_red]; state_simpl;
      rewrite !calls_app; split; reflexivity.
Qed.

(** ** Where [flash_device] writes *)

Module Places.

Local Open Scope list_scope.

Ltac place_fin :=
  try solve
      [ exact I
      | intros; assumption
      | intros; unfold every in *; state_simpl;
        apply Forall_app; split; [ assumption | ];
        repeat constructor; cbn; eauto ].

Ltac place_auto special := keeps_auto special place_fin.

Section Body.
Variable w : world.
Variables made removed below onto : string.

Local Abbreviation inv := (every (in_place made removed below onto)).
Local Abbreviation placed := (keeps inv (fun _ => inv) inv).

Lemma check_fat32_loop_in_place ps : placed (fun _ => True) (check_fat32_loop w ps).
Proof.
  induction ps as [| p ps IH]; simpl.
  - place_auto fail.
  - place_auto ltac:(apply IH).
Qed.

Lemma copy_loop_in_place a ps : placed (fun _ => True) (copy_loop w a below ps).
Proof.
  induction ps as [| p ps IH]; simpl.
  - place_auto fail.
  - place_auto ltac:(apply IH).
Qed.

End Body.

Lemma flash_device_try_in_place w removed src dev fs label tmp :
  let inv := every (in_place (source_mountpoint w) removed (target_mountpoint w)
                             (dev ++ "2")) in
  keeps inv (fun _ => inv) inv (fun _ => True) (flash_device_try w src dev fs label tmp).
Proof.
  cbv zeta. unfold flash_device_try.
  place_auto ltac:(first [ apply check_fat32_loop_in_place | apply copy_loop_in_place ]).
Qed.

(** The whole run, once the scratch directory is made. *)
Lemma flash_device_in_place w src dev fs label tmp :
  w_mkdtemp w = inr tmp ->
  every (in_place (source_mountpoint w) tmp (target_mountpoint w) (dev ++ "2"))
        (snd (flash_device w src dev fs label (init w))).
Proof.
  intros Htmp. unfold flash_device.
  rewrite (bind_run _ _ _ _ _ (mkdtemp_run w tmp (init w) Htmp)).
  set (s0 := set_paths _ _).
  destruct (flash_device_try w src dev fs label tmp s0) as [r_b s1] eqn:Hb.
  destruct (flash_device_ending w src dev fs label tmp s0 r_b s1 Hb)
    as (r & s2 & closed & Hrun & Htr & _).
  rewrite Hrun. cbn [snd]. unfold every. rewrite Htr.
  assert (H1 : every (in_place (source_mountpoint w) tmp (target_mountpoint w)
                               (dev ++ "2")) s1).
  { change s1 with (snd (r_b, s1)). rewrite <- Hb.
    apply (keeps_state _ (fun _ => True)).
    - apply (flash_device_try_in_place w tmp src dev fs label tmp).
    - unfold every. subst s0. cbn. repeat constructor. }
  apply Forall_app. split; [ exact H1 | ].
  apply Forall_app. split; [ destruct r_b; repeat constructor | ].
  destruct closed; repeat constructor.
Qed.

End Places.

(** X16.  [flash_device] makes no directory but the source mount point,
    which is the directory [<seconds>_<pid>] below
    [C:\media\uniflash_source_] and not the target mount point; and it
    removes no tree but the scratch directory that [mkdtemp] gave it. *)
Theorem flash_device_directories w src dev fs label :
  let r := flash_device w src dev fs label (init w) in
  (forall p, In (EMakedirs p) (trace (snd r)) -> p = source_mountpoint w) /\
  (forall p, In (ERmtree p) (trace (snd r)) -> w_mkdtemp w = inr p) /\
  source_mountpoint w =
  ("C:\media\uniflash_source_\" ++ w_stamp_source w ++ "_" ++ w_pid w)%string /\
  source_mountpoint w <> target_mountpoint w.
Proof.
  cbv zeta.
  assert (Hnone : forall e, w_mkdtemp w = inl e ->
                            trace (snd (flash_device w src dev fs label (init w))) = []).
  { intros e He. unfold flash_device, mkdtemp. rewrite He. reflexivity. }
  split; [ | split; [ | split ] ].
  - intros p Hin. destruct (w_mkdtemp w) as [e | tmp] eqn:Htmp.
    + rewrite (Hnone e eq_refl) in Hin. destruct Hin.
    + pose proof (Places.flash_device_in_place w src dev fs label tmp Htmp) as H.
      unfold every in H. rewrite Forall_forall in H. exact (H _ Hin).
  - intros p Hin. destruct (w_mkdtemp w) as [e | tmp] eqn:Htmp.
    + rewrite (Hnone e eq_refl) in Hin. destruct Hin.
    + pose proof (Places.flash_device_in_place w src dev fs label tmp Htmp) as H.
      unfold every in H. rewrite Forall_forall in H. specialize (H _ Hin).
      cbn in H. subst p. reflexivity.
  - reflexivity.
  - unfold source_mountpoint, target_mountpoint. cbn. intros H. discriminate H.
Qed.

(** X17.  Every file that [flash_device] copies is written below the
    target mount point, or onto the second partition of the device (the
    UEFI:NTFS image). *)
Theorem flash_device_copy_targets w src dev fs label a b :
  let r := flash_device w src dev fs label (init w) in
  In (ECopy2 a b) (trace (snd r)) ->
  (exists rest, b = target_mountpoint w ++ rest)%string \/ b = (dev ++ "2")%string.
Proof.
  cbv zeta. intros Hin. destruct (w_mkdtemp w) as [e | tmp] eqn:Htmp.
  - unfold flash_device, mkdtemp in Hin. rewrite Htmp in Hin. destruct Hin.
  - pose proof (Places.flash_device_in_place w src dev fs label tmp Htmp) as H.
    unfold every in H. rewrite Forall_forall in H. exact (H _ Hin).
Qed.

Lemma flash_device_copy_targets_witness :
  let r := flash_device calm_world "install.iso" "1" "FAT" "USB" (init calm_world) in
  let a := (source_mountpoint calm_world ++ "\bootmgr")%string in
  let b := (target_mountpoint calm_world ++ "\bootmgr")%string in
  In (ECopy2 a b) (trace (snd r)) /\
  ((exists rest, b = target_mountpoint calm_world ++ rest)%string \/
   b = ("1" ++ "2")%string).
Proof.
  cbv zeta.
  assert (Hin : In (ECopy2 (source_mountpoint calm_world ++ "\bootmgr")%string
                           (target_mountpoint calm_world ++ "\bootmgr")%string)
                   (trace (snd (flash_device calm_world "install.iso" "1" "FAT" "USB"
                                             (init calm_world))))).
  { vm_compute. repeat (first [ left; reflexivity | right ]). }
  split; [ exact Hin | ].
  exact (flash_device_copy_targets calm_world "install.iso" "1" "FAT" "USB" _ _ Hin).
Defined.

(** ** The source image cannot be mounted *)

Module SourceMount.

Local Open Scope list_scope.

(** [mount_source_filesystem] answers 1, and says nothing, when
    [Mount-DiskImage] ends with a non-zero status. *)
Lemma mount_source_filesystem_refused w src mp rc out s :
  w_makedirs w mp = None ->
  (forall t, w_run w t (cmd_mount_image src) = RunDone rc out) ->
  rc <> 0%Z ->
  exists s1,
    mount_source_filesystem w src mp s = (Return 1%Z, s1) /\
    calls (trace s1) = calls (trace s) ++ [cmd_mount_image src] /\
    red_messages (trace s1) = red_messages (trace s) /\
    copies (trace s1) = copies (trace s).
Proof.
  intros Hmk Hrun Hrc.
  assert (Hnz : (rc =? 0)%Z = false) by (apply Z.eqb_neq; exact Hrc).
  set (q := cmd_mount_image src) in *.
  exec. unfold is_called_process_error. rewrite Hmk.
  destruct (w_gui w); cbn [fst snd];
    destruct (path_exists mp _); cbn [fst snd negb];
    rewrite Hrun; cbn [fst snd]; rewrite Hnz; cbn [fst snd negb andb exn_cls];
    (eexists; split; [ reflexivity | ]);
    state_simpl; rewrite ?calls_app, ?red_messages_app, ?copies_app;
    cbn [calls red_messages copies flat_map app]; rewrite ?app_nil_r;
    auto.
Qed.

(** The [try] suite stops after [Mount-DiskImage] when it ends with a
    non-zero status. *)
Lemma flash_device_try_mount_refused w src dev fs label tmp rc out s :
  w_is_admin w = true ->
  w_makedirs w (source_mountpoint w) = None ->
  (forall t, w_run w t (cmd_mount_image src) = RunDone rc out) ->
  rc <> 0%Z ->
  let r := flash_device_try w src dev fs label tmp s in
  fst r = (if w_gui w then SysExit else Return (Some 1%Z)) /\
  calls (trace (snd r)) = calls (trace s) ++ [cmd_mount_image src] /\
  red_messages (trace (snd r)) = red_messages (trace s) ++ [MsgSourceMountFailed] /\
  copies (trace (snd r)) = copies (trace s).
Proof.
  intros Hadmin Hmk Hrun Hrc. cbv zeta.
  destruct (mount_source_filesystem_refused w src (source_mountpoint w) rc out s
              Hmk Hrun Hrc) as (s1 & Hm & Hcalls & Hred & Hcop).
  destruct (flash_device_try w src dev fs label tmp s) as [r s2] eqn:Hb.
  revert Hb.
  unfold flash_device_try. rewrite bind_cases. unfold is_admin, ret at 1.
  rewrite Hadmin. cbn [negb]. rewrite bind_cases, Hm. cbn [negb Z.eqb].
  unfold print_with_color, emit, bind, modify, ret, sys_exit.
  destruct (w_gui w); cbn [fst snd is_red]; intros Hb; injection Hb as <- <-;
    state_simpl;
    rewrite !calls_app, !red_messages_app, !copies_app, Hcalls, Hred, Hcop;
    cbn [calls red_messages copies flat_map app]; rewrite ?app_nil_r; auto.
Qed.

End SourceMount.

(** X18.  When [Mount-DiskImage] ends with a non-zero status,
    [flash_device] reports that the source cannot be mounted and gives up
    (1 outside the GUI, the end of the run under it): the mount is the only
    command it ran, nothing was copied, and the closing message is printed
    all the same. *)
Theorem flash_device_source_mount_refused w src dev fs label tmp rc out :
  w_is_admin w = true ->
  w_mkdtemp w = inr tmp ->
  w_makedirs w (source_mountpoint w) = None ->
  (forall t, w_run w t (cmd_mount_image src) = RunDone rc out) ->
  rc <> 0%Z ->
  (forall t, w_rmtree w t tmp = None) ->
  let r := flash_device w src dev fs label (init w) in
  fst r = (if w_gui w then SysExit else Return (Some 1%Z)) /\
  calls (trace (snd r)) = [cmd_mount_image src] /\
  copies (trace (snd r)) = [] /\
  red_messages (trace (snd r)) = [MsgSourceMountFailed] /\
  exists pre, trace (snd r) = pre ++ [EPrint MsgCompleted Green].
Proof.
  intros Hadmin Htmp Hmk Hrun Hrc Hrm. cbv zeta. unfold flash_device.
  rewrite (bind_run _ _ _ _ _ (mkdtemp_run w tmp (init w) Htmp)).
  set (s0 := set_paths _ _).
  destruct (SourceMount.flash_device_try_mount_refused
              w src dev fs label tmp rc out s0 Hadmin Hmk Hrun Hrc)
    as (Hr & Hcalls & Hred & Hcop).
  pose proof (Scratch.flash_device_try_stays w tmp src dev fs label tmp s0
                                              (or_introl eq_refl)) as Hstay.
  destruct (flash_device_try w src dev fs label tmp s0) as [r_b s1] eqn:Hb.
  cbn [fst snd] in Hr, Hcalls, Hred, Hcop.
  assert (Hin : In tmp (paths s1)) by (destruct r_b; cbv beta iota in Hstay; tauto).
  destruct (flash_device_ending w src dev fs label tmp s0 r_b s1 Hb)
    as (r & s2 & closed & Hfin & Htr & Hc1 & _ & Hclosed & _).
  assert (closed = true) as ->.
  { apply Hclosed. split; [ | apply Hrm ].
    apply existsb_exists. exists tmp. split; [ exact Hin | apply String.eqb_refl ]. }
  rewrite Hfin. cbn [fst snd]. rewrite (Hc1 eq_refl), Htr, Hr.
  assert (Hnil : match (if w_gui w then @SysExit (option Z) else Return (Some 1%Z)) with
                 | Raise e => [EPrint (MsgText (exn_str e)) Red]
                 | _ => []
                 end = []) by (destruct (w_gui w); reflexivity).
  rewrite Hnil. cbn [app].
  rewrite !calls_app, !copies_app, !red_messages_app, Hcalls, Hcop, Hred.
  subst s0. cbn.
  split; [ destruct (w_gui w); reflexivity | ].
  repeat (split; [ reflexivity | ]).
  exists (trace s1 ++ [ECall Fcleanup; ERmtree tmp]). rewrite <- app_assoc. reflexivity.
Qed.

Lemma flash_device_source_mount_refused_witness :
  let w := mount_refused_world in
  let r := flash_device w "install.iso" "1" "FAT" "USB" (init w) in
  fst r = (if w_gui w then SysExit else Return (Some 1%Z)) /\
  calls (trace (snd r)) = [cmd_mount_image "install.iso"] /\
  copies (trace (snd r)) = [] /\
  red_messages (trace (snd r)) = [MsgSourceMountFailed] /\
  exists pre, trace (snd r) = pre ++ [EPrint MsgCompleted Green].
Proof.
  cbv zeta.
  apply (flash_device_source_mount_refused
           mount_refused_world "install.iso" "1" "FAT" "USB" scratch 1%Z "");
    try reflexivity.
  discriminate.
Defined.
